(** * KPI-PDBenergy: the Kafka sweep benchmark of [scripts/hydro_analytics.py]

    A shallow embedding of [HydroKafkaTester] and [main], and the properties
    of its sweeps, metric reduction, provisioning and top-level error
    handling.

    Layout:
    - [Binary64]: Python floats (IEEE-754 binary64, round to nearest, ties to
      even) as the rationals they denote, with the arithmetic the script uses;
    - [Py]: exceptions, the world the script runs in (clock, broker, files,
      event trace) and a state-and-exception monad;
    - [Hydro]: the methods of [HydroKafkaTester] and [main];
    - the properties. *)

From Stdlib Require Import ZArith QArith Qpower Qround Lia Lqa Sorted.
From stdpp Require Import base option list strings pretty gmap.

Local Open Scope Z_scope.

(** ** Python floats *)

Module Binary64.

(** A finite binary64 value is modelled by the rational it denotes.  Every
    operation computes the exact rational result and rounds it to 53
    significant bits, ties to even.  The exponent range is not bounded:
    overflow to infinity and gradual underflow are outside the model (the
    script's quantities are record counts, byte counts, ratios in [0,1] and
    wall-clock differences). *)

Definition pow2 (k : Z) : Q := (2 ^ k)%Q.

(** Nearest integer, ties to the even one. *)
Definition rne (x : Q) : Z :=
  let f := Qfloor x in
  match (x - inject_Z f ?= 1 # 2)%Q with
  | Lt => f
  | Gt => f + 1
  | Eq => if Z.even f then f else f + 1
  end.

(** [ilog2 x] is the binary exponent of a positive [x]:
    [2^(ilog2 x) <= x < 2^(ilog2 x + 1)]. *)
Definition ilog2 (x : Q) : Z :=
  let e0 := Z.log2 (Qnum x) - Z.log2 (Zpos (Qden x)) in
  if Qle_bool (pow2 e0) x then e0 else e0 - 1.

Definition round_pos (x : Q) : Q :=
  let e := ilog2 x in
  (inject_Z (rne (x * pow2 (52 - e))) * pow2 (e - 52))%Q.

Definition round53 (x : Q) : Q :=
  match (x ?= 0)%Q with
  | Eq => 0%Q
  | Gt => round_pos x
  | Lt => (- round_pos (- x))%Q
  end.

(** Arithmetic of Python floats.  Division by zero raises
    [ZeroDivisionError] in Python; [fdiv] returns [None] there. *)
Definition fadd (x y : Q) : Q := round53 (x + y).
Definition fsub (x y : Q) : Q := round53 (x - y).
Definition fmul (x y : Q) : Q := round53 (x * y).
Definition fdiv (x y : Q) : option Q :=
  if Qeq_bool y 0 then None else Some (round53 (x / y)).

(** [float(n)] for a Python int. *)
Definition of_int (n : Z) : Q := round53 (inject_Z n).

(** [int(x)]: truncation toward zero. *)
Definition to_int (x : Q) : Z := Z.quot (Qnum x) (Zpos (Qden x)).

(** A decimal literal of the source is the nearest binary64 value. *)
Definition lit (num den : Z) : Q := round53 (Qmake num (Z.to_pos den)).

Definition lit_0_95 : Q := lit 95 100.
Definition lit_0_99 : Q := lit 99 100.
Definition lit_0_40 : Q := lit 40 100.
Definition lit_0_35 : Q := lit 35 100.
Definition lit_0_25 : Q := lit 25 100.

End Binary64.

(** ** The world of the script: exceptions, broker, clock, files *)

(** The broker, the clock and the file system are the environment of the
    script.  They are modelled by oracles in the state: the successive
    readings of [time.time()], and the outcome of every [producer.send],
    every [future.get] and every administrative call, in call order.  A
    send, an acknowledgment wait and an administrative call can raise;
    opening, flushing and closing a producer and parsing a line of the
    workload file are taken to succeed.  Every effect is logged in an event
    trace.  The runs of consecutive [print] calls that only format a value
    are logged as one event each. *)

Module Py.

(** The exceptions that can arise while the script runs.  All of them are
    subclasses of [Exception] except [KeyboardInterrupt]. *)
Inductive Exn :=
  | FileNotFoundError
  | TopicAlreadyExistsError
  | KafkaTimeoutError
  | NoBrokersAvailable
  | KafkaError (msg : string)
  | StatisticsError
  | ZeroDivisionError
  | IndexError
  | KeyError (key : string)
  | TypeError
  | AttributeError
  | UnicodeEncodeError
  | ValueError
  | OverflowError
  | KeyboardInterrupt.

#[global] Instance Exn_eq_dec : EqDecision Exn.
Proof. solve_decision. Defined.

(** [isinstance(e, Exception)] *)
Definition is_Exception (e : Exn) : bool :=
  match e with KeyboardInterrupt => false | _ => true end.

Inductive Result (A : Type) :=
  | Ok (a : A)
  | Raise (e : Exn).
Arguments Ok {A} a.
Arguments Raise {A} e.

(** Python values stored in the result dictionaries. *)
Inductive PyVal :=
  | VInt (n : Z)
  | VFloat (x : Q)
  | VStr (s : string).

(** One configuration's metrics: a Python [dict] with string keys. *)
Abbreviation RunResult := (gmap string PyVal).

(** [NewTopic(name, num_partitions, replication_factor, topic_configs)] *)
Record TopicSpec := NewTopic {
  topic_name : string;
  num_partitions : Z;
  replication_factor : Z;
  topic_configs : list (string * string)
}.

(** The keyword arguments given to [KafkaProducer]. *)
Record ProducerConfig := {
  cfg_batch_size : Z;
  cfg_linger_ms : Z;
  cfg_compression_type : option string
}.

(** What [record['turbine_type'].encode('utf-8')] finds in a parsed line
    of the workload file.  A line can hold any JSON value: subscripting
    one that is not an object with a string raises [TypeError]; an object
    without the field raises [KeyError]; a field that is not a string has
    no [encode] ([AttributeError]); a string with a lone surrogate (from an
    escape such as [\ud800]) cannot be encoded ([UnicodeEncodeError]). *)
Inductive KeyField :=
  | NotAnObject
  | NoField
  | NotAString
  | LoneSurrogate
  | StringField (s : string).

(** A record of the workload file: what [json.dumps] makes of it (the
    payload that is sent and measured) and what is found under
    ['turbine_type']. *)
Record JRecord := {
  payload : string;
  turbine_field : KeyField
}.

(** The key of a record whose ['turbine_type'] is a string. *)
Definition turbine_type (r : JRecord) : option string :=
  match turbine_field r with
  | StringField s => Some s
  | _ => None
  end.

Inductive Msg :=
  | MsgBanner
  | MsgStage (name : string)
  | MsgTopicCreated (name : string)
  | MsgTopicExists (name : string)
  | MsgTesting (what : string)
  | MsgMetrics (r : RunResult)
  | MsgReportSection (name : string)
  | MsgReportRow (r : RunResult)
  | MsgRecommendations
  | MsgSuccess
  | MsgRunGenerator
  | MsgError (e : Exn).

Inductive Event :=
  | EvAdminOpen
  | EvCreateTopic (t : TopicSpec)
  | EvAdminClose
  | EvOpen (p : nat) (cfg : ProducerConfig)
  | EvSend (p : nat) (topic : string) (key : option string) (r : JRecord)
  | EvAckWait (p : nat) (timeout : Z)
  | EvFlush (p : nat)
  | EvClose (p : nat)
  | EvSleep (secs : Z)
  | EvReadFile (name : string)
  | EvPrint (m : Msg).

(** The state the script runs in.  The environment is given by oracles:
    the readings of the wall clock, and the outcome of each send, each
    acknowledgment wait and each administrative call, in call order. *)
Record World := {
  clock : nat -> Q;
  ticks : nat;
  send_fault : nat -> option Exn;
  sends : nat;
  ack_fault : nat -> option Exn;
  acks : nat;
  admin_connect_fault : option Exn;
  admin_fault : nat -> option Exn;
  admin_calls : nat;
  topics : gset string;
  files : gmap string (list JRecord);
  next_producer : nat;
  trace : list Event;
  test_results : gmap string (list RunResult)
}.

Definition M (A : Type) : Type := World -> Result A * World.

Definition ret {A} (a : A) : M A := fun w => (Ok a, w).

Definition bind {A B} (m : M A) (k : A -> M B) : M B :=
  fun w => match m w with
           | (Ok a, w') => k a w'
           | (Raise e, w') => (Raise e, w')
           end.

Definition raise {A} (e : Exn) : M A := fun w => (Raise e, w).

(** [try: body  except C1: h1  except C2 as e: h2 ...]: the first clause
    whose class test accepts the exception handles it. *)
Fixpoint find_clause {A} (clauses : list ((Exn -> bool) * (Exn -> M A)))
    (e : Exn) : option (Exn -> M A) :=
  match clauses with
  | [] => None
  | (accepts, handler) :: rest =>
      if accepts e then Some handler else find_clause rest e
  end.

Definition try_except {A} (body : M A)
    (clauses : list ((Exn -> bool) * (Exn -> M A))) : M A :=
  fun w => match body w with
           | (Ok a, w') => (Ok a, w')
           | (Raise e, w') =>
               match find_clause clauses e with
               | Some handler => handler e w'
               | None => (Raise e, w')
               end
           end.

Declare Scope py_scope.
Delimit Scope py_scope with py.
Notation "x <- m ;; k" := (bind m (fun x => k))
  (at level 100, m at next level, right associativity) : py_scope.
Notation "m ;;; k" := (bind m (fun _ => k))
  (at level 100, right associativity) : py_scope.
Local Open Scope py_scope.

(** Updates of single fields of the world. *)
Definition add_event (e : Event) (w : World) : World :=
  {| clock := clock w; ticks := ticks w;
     send_fault := send_fault w; sends := sends w;
     ack_fault := ack_fault w; acks := acks w;
     admin_connect_fault := admin_connect_fault w;
     admin_fault := admin_fault w; admin_calls := admin_calls w;
     topics := topics w; files := files w;
     next_producer := next_producer w;
     trace := trace w ++ [e];
     test_results := test_results w |}.

Definition tick (w : World) : World :=
  {| clock := clock w; ticks := S (ticks w);
     send_fault := send_fault w; sends := sends w;
     ack_fault := ack_fault w; acks := acks w;
     admin_connect_fault := admin_connect_fault w;
     admin_fault := admin_fault w; admin_calls := admin_calls w;
     topics := topics w; files := files w;
     next_producer := next_producer w;
     trace := trace w;
     test_results := test_results w |}.

Definition count_send (w : World) : World :=
  {| clock := clock w; ticks := ticks w;
     send_fault := send_fault w; sends := S (sends w);
     ack_fault := ack_fault w; acks := acks w;
     admin_connect_fault := admin_connect_fault w;
     admin_fault := admin_fault w; admin_calls := admin_calls w;
     topics := topics w; files := files w;
     next_producer := next_producer w;
     trace := trace w;
     test_results := test_results w |}.

Definition count_ack (w : World) : World :=
  {| clock := clock w; ticks := ticks w;
     send_fault := send_fault w; sends := sends w;
     ack_fault := ack_fault w; acks := S (acks w);
     admin_connect_fault := admin_connect_fault w;
     admin_fault := admin_fault w; admin_calls := admin_calls w;
     topics := topics w; files := files w;
     next_producer := next_producer w;
     trace := trace w;
     test_results := test_results w |}.

Definition count_admin_call (w : World) : World :=
  {| clock := clock w; ticks := ticks w;
     send_fault := send_fault w; sends := sends w;
     ack_fault := ack_fault w; acks := acks w;
     admin_connect_fault := admin_connect_fault w;
     admin_fault := admin_fault w; admin_calls := S (admin_calls w);
     topics := topics w; files := files w;
     next_producer := next_producer w;
     trace := trace w;
     test_results := test_results w |}.

Definition add_topic (name : string) (w : World) : World :=
  {| clock := clock w; ticks := ticks w;
     send_fault := send_fault w; sends := sends w;
     ack_fault := ack_fault w; acks := acks w;
     admin_connect_fault := admin_connect_fault w;
     admin_fault := admin_fault w; admin_calls := admin_calls w;
     topics := {[ name ]} ∪ topics w; files := files w;
     next_producer := next_producer w;
     trace := trace w;
     test_results := test_results w |}.

Definition fresh_producer (w : World) : World :=
  {| clock := clock w; ticks := ticks w;
     send_fault := send_fault w; sends := sends w;
     ack_fault := ack_fault w; acks := acks w;
     admin_connect_fault := admin_connect_fault w;
     admin_fault := admin_fault w; admin_calls := admin_calls w;
     topics := topics w; files := files w;
     next_producer := S (next_producer w);
     trace := trace w;
     test_results := test_results w |}.

Definition store_results (key : string) (results : list RunResult) (w : World)
    : World :=
  {| clock := clock w; ticks := ticks w;
     send_fault := send_fault w; sends := sends w;
     ack_fault := ack_fault w; acks := acks w;
     admin_connect_fault := admin_connect_fault w;
     admin_fault := admin_fault w; admin_calls := admin_calls w;
     topics := topics w; files := files w;
     next_producer := next_producer w;
     trace := trace w;
     test_results := <[ key := results ]> (test_results w) |}.

Definition clear_results (w : World) : World :=
  {| clock := clock w; ticks := ticks w;
     send_fault := send_fault w; sends := sends w;
     ack_fault := ack_fault w; acks := acks w;
     admin_connect_fault := admin_connect_fault w;
     admin_fault := admin_fault w; admin_calls := admin_calls w;
     topics := topics w; files := files w;
     next_producer := next_producer w;
     trace := trace w;
     test_results := ∅ |}.

Definition emit (e : Event) : M unit := fun w => (Ok tt, add_event e w).

Definition print (m : Msg) : M unit := emit (EvPrint m).

(** [time.time()] *)
Definition time_time : M Q := fun w => (Ok (clock w (ticks w)), tick w).

(** [time.sleep(secs)] *)
Definition time_sleep (secs : Z) : M unit := emit (EvSleep secs).

(** [KafkaProducer(...)]: a fresh session. *)
Definition KafkaProducer (cfg : ProducerConfig) : M nat := fun w =>
  let p := next_producer w in
  (Ok p, add_event (EvOpen p cfg) (fresh_producer w)).

(** [producer.send(topic, key=key, value=record)]: hands the record to the
    session and returns a future, or raises. *)
Definition producer_send (p : nat) (topic : string) (key : option string)
    (r : JRecord) : M unit := fun w =>
  let w' := add_event (EvSend p topic key r) (count_send w) in
  match send_fault w (sends w) with
  | Some e => (Raise e, w')
  | None => (Ok tt, w')
  end.

(** [future.get(timeout=...)]: blocks until the broker acknowledges, or
    raises when the wait runs out. *)
Definition future_get (p : nat) (timeout : Z) : M unit := fun w =>
  let w' := add_event (EvAckWait p timeout) (count_ack w) in
  match ack_fault w (acks w) with
  | Some e => (Raise e, w')
  | None => (Ok tt, w')
  end.

Definition producer_flush (p : nat) : M unit := emit (EvFlush p).
Definition producer_close (p : nat) : M unit := emit (EvClose p).

(** [with open(data_file, 'r') as f: records = [json.loads(line) for line in f]] *)
Definition read_records (data_file : string) : M (list JRecord) := fun w =>
  match files w !! data_file with
  | None => (Raise FileNotFoundError, w)
  | Some records => (Ok records, add_event (EvReadFile data_file) w)
  end.

(** [KafkaAdminClient(bootstrap_servers=...)] *)
Definition KafkaAdminClient : M unit := fun w =>
  match admin_connect_fault w with
  | Some e => (Raise e, w)
  | None => (Ok tt, add_event EvAdminOpen w)
  end.

(** [admin.create_topics([topic])]: the broker refuses a name that exists
    with [TopicAlreadyExistsError]; any other failure comes from the
    oracle. *)
Definition admin_create_topics (t : TopicSpec) : M unit := fun w =>
  let w' := add_event (EvCreateTopic t) (count_admin_call w) in
  match admin_fault w (admin_calls w) with
  | Some e => (Raise e, w')
  | None =>
      if decide (topic_name t ∈ topics w)
      then (Raise TopicAlreadyExistsError, w')
      else (Ok tt, add_topic (topic_name t) w')
  end.

Definition admin_close : M unit := emit EvAdminClose.

(** [self.test_results[key] = results] *)
Definition set_test_results (key : string) (results : list RunResult) : M unit :=
  fun w => (Ok tt, store_results key results w).

Definition get_test_results : M (gmap string (list RunResult)) :=
  fun w => (Ok (test_results w), w).

(** [for x in l: body x] *)
Fixpoint for_each {A} (l : list A) (body : A -> M unit) : M unit :=
  match l with
  | [] => ret tt
  | x :: l' => body x ;;; for_each l' body
  end.

(** [for x in l: ...] where the body updates local variables [st]. *)
Fixpoint for_fold {A S} (l : list A) (body : A -> S -> M S) (st : S) : M S :=
  match l with
  | [] => ret st
  | x :: l' => st' <- body x st ;; for_fold l' body st'
  end.

(** [len(l)] *)
Definition len {A} (l : list A) : Z := Z.of_nat (length l).

(** [l[i]] *)
Definition py_index {A} (l : list A) (i : Z) : M A :=
  let j := if i <? 0 then i + len l else i in
  if j <? 0 then raise IndexError
  else match l !! Z.to_nat j with
       | Some x => ret x
       | None => raise IndexError
       end.

(** [sorted(l)] on floats: ascending and stable. *)
Fixpoint insert_sorted (x : Q) (l : list Q) : list Q :=
  match l with
  | [] => [x]
  | y :: l' => if Qle_bool x y then x :: y :: l' else y :: insert_sorted x l'
  end.

Definition sorted (l : list Q) : list Q := foldr insert_sorted [] l.

(** [statistics.mean(data)]: the exact mean, converted to a float; raises
    [StatisticsError] on an empty sequence. *)
Definition Qsum (l : list Q) : Q := foldr Qplus 0%Q l.

Definition statistics_mean (data : list Q) : M Q :=
  match data with
  | [] => raise StatisticsError
  | _ => ret (Binary64.round53 (Qsum data / inject_Z (len data)))
  end.

(** [x / y] on floats (an int operand is converted first). *)
Definition truediv (x y : Q) : M Q :=
  match Binary64.fdiv x y with
  | Some q => ret q
  | None => raise ZeroDivisionError
  end.

(** [a / b] on ints: the correctly rounded quotient. *)
Definition int_truediv (a b : Z) : M Q :=
  if b =? 0 then raise ZeroDivisionError
  else ret (Binary64.round53 (inject_Z a / inject_Z b)).

(** Whether a computation ended normally. *)
Definition succeeds {A} (r : Result A) : bool :=
  match r with Ok _ => true | Raise _ => false end.

(** The exit status of the interpreter after [main()]: an exception that
    leaves [main] ends the process with a traceback and a non-zero status. *)
Definition exit_status {A} (r : Result A) : Z :=
  match r with
  | Ok _ => 0
  | Raise KeyboardInterrupt => 130
  | Raise _ => 1
  end.

End Py.

(** ** [HydroKafkaTester] and [main] *)

Module Hydro.
Import Binary64 Py.
Local Open Scope py_scope.

(** [HydroKafkaTester.__init__]: [self.test_results = {}] *)
Definition HydroKafkaTester : M unit := fun w => (Ok tt, clear_results w).

Definition new_topics : list TopicSpec :=
  [ NewTopic "hydro-main" 4 1 [("retention.ms", "2592000000")];
    NewTopic "hydro-batch-test" 3 1 [];
    NewTopic "hydro-comp-none" 3 1 [];
    NewTopic "hydro-comp-snappy" 3 1 [];
    NewTopic "hydro-comp-lz4" 3 1 [];
    NewTopic "hydro-comp-zstd" 3 1 [];
    NewTopic "hydro-part-2" 2 1 [];
    NewTopic "hydro-part-4" 4 1 [];
    NewTopic "hydro-part-8" 8 1 [];
    NewTopic "hydro-analytics" 8 1
      [("retention.ms", "31536000000"); ("segment.ms", "86400000");
       ("cleanup.policy", "delete")] ].

Definition is_close (ev : Event) : bool :=
  match ev with EvClose _ => true | _ => false end.

Definition is_open (ev : Event) : bool :=
  match ev with EvOpen _ _ => true | _ => false end.

Definition is_TopicAlreadyExistsError (e : Exn) : bool :=
  bool_decide (e = TopicAlreadyExistsError).

Definition is_FileNotFoundError (e : Exn) : bool :=
  bool_decide (e = FileNotFoundError).

(** The body of the loop of [create_topics]. *)
Definition create_topic (topic : TopicSpec) : M unit :=
  try_except
    (admin_create_topics topic ;;;
     print (MsgTopicCreated (topic_name topic)))
    [ (is_TopicAlreadyExistsError,
       fun _ => print (MsgTopicExists (topic_name topic))) ].

(** The world after the attempt to create [t] has been sent. *)
Definition attempted (t : TopicSpec) (w : World) : World :=
  add_event (EvCreateTopic t) (count_admin_call w).

(** What a second provisioning of existing topics prints. *)
Definition already_exists_log (topics : list TopicSpec) : list Event :=
  flat_map (fun t => [EvCreateTopic t; EvPrint (MsgTopicExists (topic_name t))])
           topics.

(** The part of the world that provisioning leaves alone: files, stored
    results, producer sessions and the oracles; the trace only grows, and
    not by an [EvOpen]. *)
Definition opens_no_session (w w' : World) : Prop :=
  files w' = files w /\
  test_results w' = test_results w /\
  next_producer w' = next_producer w /\
  admin_fault w' = admin_fault w /\
  admin_connect_fault w' = admin_connect_fault w /\
  exists events, trace w' = trace w ++ events /\
                 Forall (fun ev => is_open ev = false) events.

Definition create_topics_of (topics : list TopicSpec) : M unit :=
  KafkaAdminClient ;;;
  for_each topics create_topic ;;;
  admin_close.

Definition create_topics : M unit := create_topics_of new_topics.

(** The timed loop of [test_batch_linger] and [test_compression]:
    send one record, wait for its acknowledgment, record the latency. *)
Fixpoint timed_sends (producer : nat) (topic : string)
    (records : list JRecord) (latencies : list Q) : M (list Q) :=
  match records with
  | [] => ret latencies
  | record :: rest =>
      send_start <- time_time ;;
      producer_send producer topic None record ;;;
      future_get producer 10 ;;;
      now <- time_time ;;
      timed_sends producer topic rest
        (latencies ++ [fmul (fsub now send_start) (of_int 1000)])
  end.

(** The events of one pass of the timed loop over [records]. *)
Definition send_and_wait (producer : nat) (topic : string)
    (records : list JRecord) : list Event :=
  flat_map (fun r => [EvSend producer topic None r; EvAckWait producer 10])
           records.

(** The latency that the timed loop records for its [i]-th record when it
    starts at clock reading number [t0]: the reading after the
    acknowledgment minus the reading before the send, in milliseconds. *)
Definition latency_at (clock : nat -> Q) (t0 i : nat) : Q :=
  fmul (fsub (clock (t0 + 2 * i + 1)%nat) (clock (t0 + 2 * i)%nat)) (of_int 1000).

(** The events of the send loop of [test_partitioning] over [records]. *)
Definition keyed_events (producer : nat) (topic : string)
    (records : list JRecord) : list Event :=
  map (fun r => EvSend producer topic (turbine_type r) r) records.

(** [sorted(latencies)[int(len(latencies) * q)]] *)
Definition percentile (latencies : list Q) (q : Q) : M Q :=
  py_index (sorted latencies) (to_int (fmul (of_int (len latencies)) q)).

Definition batch_linger_configs : list (Z * Z) :=
  [ (16384, 0); (65536, 10); (262144, 50); (524288, 100);
    (1048576, 200); (1048576, 500) ].

Definition batch_linger_result (batch_size linger_ms : Z)
    (throughput avg_latency p95_latency p99_latency duration : Q) : RunResult :=
  list_to_map
    [ ("batch_size", VInt batch_size);
      ("linger_ms", VInt linger_ms);
      ("throughput", VFloat throughput);
      ("avg_latency", VFloat avg_latency);
      ("p95_latency", VFloat p95_latency);
      ("p99_latency", VFloat p99_latency);
      ("duration", VFloat duration) ].

(** The body of the loop of [test_batch_linger]. *)
Definition batch_linger_run (data_file : string) (config : Z * Z)
    (results : list RunResult) : M (list RunResult) :=
  let '(batch_size, linger_ms) := config in
  print (MsgTesting ("batch.size=" +:+ pretty batch_size +:+ "B, linger.ms="
                     +:+ pretty linger_ms +:+ "ms")) ;;;
  producer <- KafkaProducer {| cfg_batch_size := batch_size;
                               cfg_linger_ms := linger_ms;
                               cfg_compression_type := Some "lz4" |} ;;
  records <- read_records data_file ;;
  start <- time_time ;;
  latencies <- timed_sends producer "hydro-batch-test" (take 1000 records) [] ;;
  producer_flush producer ;;;
  end_ <- time_time ;;
  let duration := fsub end_ start in
  throughput <- truediv (of_int (len (take 1000 records))) duration ;;
  avg_latency <- statistics_mean latencies ;;
  p95_latency <- percentile latencies lit_0_95 ;;
  p99_latency <- percentile latencies lit_0_99 ;;
  let result := batch_linger_result batch_size linger_ms throughput
                  avg_latency p95_latency p99_latency duration in
  let results := results ++ [result] in
  print (MsgMetrics result) ;;;
  producer_close producer ;;;
  time_sleep 2 ;;;
  ret results.

Definition test_batch_linger (data_file : string) : M (list RunResult) :=
  print (MsgStage "BATCH/LINGER") ;;;
  results <- for_fold batch_linger_configs (batch_linger_run data_file) [] ;;
  set_test_results "batch_linger" results ;;;
  ret results.

Definition algorithms : list string := ["none"; "snappy"; "lz4"; "zstd"].

Definition compression_factors : gmap string Q :=
  list_to_map [ ("snappy", lit_0_40); ("lz4", lit_0_35); ("zstd", lit_0_25) ].

(** The size model of [test_compression]: the estimated compressed size
    and the compression ratio in percent. *)
Definition estimate_compression (algo : string) (original_size : Z) : M (Z * Q) :=
  if String.eqb algo "none" then ret (original_size, 0%Q)
  else
    let factor := default 1%Q (compression_factors !! algo) in
    let compressed_size := to_int (fmul (of_int original_size) factor) in
    quotient <- int_truediv compressed_size original_size ;;
    ret (compressed_size, fmul (fsub (of_int 1) quotient) (of_int 100)).

(** The value of [(1 - compressed_size / original_size) * 100] when
    [original_size] is not zero. *)
Definition ratio_of (compressed_size original_size : Z) : Q :=
  fmul (fsub (of_int 1) (round53 (inject_Z compressed_size / inject_Z original_size)))
       (of_int 100).

(** [n / 1024 / 1024] for an int [n] *)
Definition megabytes (n : Z) : Q :=
  round53 (round53 (inject_Z n / 1024) / 1024).

Definition compression_result (algo : string) (throughput avg_latency : Q)
    (original_size compressed_size : Z) (ratio : Q) : RunResult :=
  list_to_map
    [ ("algorithm", VStr algo);
      ("throughput", VFloat throughput);
      ("avg_latency", VFloat avg_latency);
      ("original_size_mb", VFloat (megabytes original_size));
      ("compressed_size_mb", VFloat (megabytes compressed_size));
      ("compression_ratio", VFloat ratio);
      ("network_saved_mb", VFloat (megabytes (original_size - compressed_size))) ].

(** A result of the compression sweep that carries the estimate of
    [algo] for a sample of [original_size] bytes. *)
Definition estimated_for (original_size : Z) (algo : string) (r : RunResult)
    : Prop :=
  exists throughput avg_latency estimate,
    (forall w, estimate_compression algo original_size w = (Ok estimate, w)) /\
    r = compression_result algo throughput avg_latency original_size
          estimate.1 estimate.2.

(** The body of the loop of [test_compression]. *)
Definition compression_run (records : list JRecord) (original_size : Z)
    (algo : string) (results : list RunResult) : M (list RunResult) :=
  print (MsgTesting ("compression=" +:+ algo)) ;;;
  let topic := "hydro-comp-" +:+ algo in
  producer <- KafkaProducer
                {| cfg_batch_size := 262144; cfg_linger_ms := 50;
                   cfg_compression_type :=
                     if String.eqb algo "none" then None else Some algo |} ;;
  start <- time_time ;;
  latencies <- timed_sends producer topic records [] ;;
  producer_flush producer ;;;
  end_ <- time_time ;;
  let duration := fsub end_ start in
  throughput <- truediv (of_int (len records)) duration ;;
  avg_latency <- statistics_mean latencies ;;
  estimate <- estimate_compression algo original_size ;;
  let result := compression_result algo throughput avg_latency
                  original_size estimate.1 estimate.2 in
  let results := results ++ [result] in
  print (MsgMetrics result) ;;;
  producer_close producer ;;;
  time_sleep 2 ;;;
  ret results.

(** [sum(len(json.dumps(r).encode('utf-8')) for r in records)] *)
Definition serialized_size (records : list JRecord) : Z :=
  foldr (fun r acc => Z.of_nat (String.length (payload r)) + acc) 0 records.

Definition test_compression (data_file : string) : M (list RunResult) :=
  print (MsgStage "COMPRESSION") ;;;
  all_records <- read_records data_file ;;
  let records := take 3000 all_records in
  let original_size := serialized_size records in
  results <- for_fold algorithms (compression_run records original_size) [] ;;
  set_test_results "compression" results ;;;
  ret results.

Definition partition_counts : list Z := [2; 4; 8].

(** [record['turbine_type'].encode('utf-8')] *)
Definition record_key (record : JRecord) : M string :=
  match turbine_field record with
  | NotAnObject => raise TypeError
  | NoField => raise (KeyError "turbine_type")
  | NotAString => raise AttributeError
  | LoneSurrogate => raise UnicodeEncodeError
  | StringField k => ret k
  end.

(** The body of the send loop of [test_partitioning]: keyed by
    ['turbine_type'], no wait on the returned future. *)
Definition keyed_send (producer : nat) (topic : string) (record : JRecord)
    : M unit :=
  key <- record_key record ;;
  producer_send producer topic (Some key) record.


Definition partitioning_result (num_partitions : Z)
    (throughput duration scaling_factor : Q) : RunResult :=
  list_to_map
    [ ("partitions", VInt num_partitions);
      ("throughput", VFloat throughput);
      ("duration", VFloat duration);
      ("scaling_factor", VFloat scaling_factor) ].

(** The body of the loop of [test_partitioning]; the local variables it
    updates are [baseline_throughput] and [results]. *)
Definition partitioning_run (records : list JRecord) (num_partitions : Z)
    (locals : option Q * list RunResult) : M (option Q * list RunResult) :=
  let '(baseline_throughput, results) := locals in
  print (MsgTesting ("partitions=" +:+ pretty num_partitions)) ;;;
  let topic := "hydro-part-" +:+ pretty num_partitions in
  producer <- KafkaProducer {| cfg_batch_size := 262144; cfg_linger_ms := 50;
                               cfg_compression_type := Some "lz4" |} ;;
  start <- time_time ;;
  for_each records (keyed_send producer topic) ;;;
  producer_flush producer ;;;
  end_ <- time_time ;;
  let duration := fsub end_ start in
  throughput <- truediv (of_int (len records)) duration ;;
  scaled <- match baseline_throughput with
            | None => ret (throughput, 1%Q)
            | Some baseline =>
                scaling_factor <- truediv throughput baseline ;;
                ret (baseline, scaling_factor)
            end ;;
  let result := partitioning_result num_partitions throughput duration
                  scaled.2 in
  let results := results ++ [result] in
  print (MsgMetrics result) ;;;
  producer_close producer ;;;
  time_sleep 2 ;;;
  ret (Some scaled.1, results).

Definition test_partitioning (data_file : string) : M (list RunResult) :=
  print (MsgStage "PARTITIONING") ;;;
  all_records <- read_records data_file ;;
  let records := take 4000 all_records in
  locals <- for_fold partition_counts (partitioning_run records) (None, []) ;;
  set_test_results "partitioning" locals.2 ;;;
  ret locals.2.

(** The format specifications of the report's f-strings: none, a
    fixed-point one ([.1f], [.2f], [5.1f]) and a string one ([8s]). *)
Inductive FormatSpec :=
  | FmtPlain
  | FmtFixed
  | FmtString.

(** The largest magnitude of an int that [float] converts: from
    [2^1024 - 2^970] on the conversion raises [OverflowError]. *)
Definition float_limit : Z := 2 ^ 1024 - 2 ^ 970.

(** [format(v, spec)] inside an f-string.  A fixed-point specification
    formats a float, and an int after converting it to a float; a string
    specification formats a string; any other pairing raises
    [ValueError].  (The interpreter's limit on the number of digits of an
    int converted to text is outside the model.) *)
Definition format_value (spec : FormatSpec) (v : PyVal) : M unit :=
  match spec, v with
  | FmtPlain, _ => ret tt
  | FmtFixed, VFloat _ => ret tt
  | FmtFixed, VInt n =>
      if Z.abs n <? float_limit then ret tt else raise OverflowError
  | FmtFixed, VStr _ => raise ValueError
  | FmtString, VStr _ => ret tt
  | FmtString, _ => raise ValueError
  end.

(** The fields that [generate_report] reads from a row of each sweep, in
    the order of the f-string, with the specification applied to each. *)
Definition report_fields (sweep : string) : list (string * FormatSpec) :=
  if String.eqb sweep "batch_linger"
  then [("batch_size", FmtPlain); ("linger_ms", FmtPlain);
        ("throughput", FmtFixed); ("avg_latency", FmtFixed)]
  else if String.eqb sweep "compression"
  then [("algorithm", FmtString); ("compression_ratio", FmtFixed);
        ("throughput", FmtFixed)]
  else if String.eqb sweep "partitioning"
  then [("partitions", FmtPlain); ("throughput", FmtFixed);
        ("scaling_factor", FmtFixed)]
  else [].

(** [r[key]] on a result dictionary. *)
Definition row_lookup (key : string) (r : RunResult) : M PyVal :=
  match r !! key with
  | Some v => ret v
  | None => raise (KeyError key)
  end.

(** Evaluating the f-string of one row: every field is looked up and
    formatted in turn, and the first failure leaves the f-string. *)
Definition format_row (sweep : string) (r : RunResult) : M unit :=
  for_each (report_fields sweep)
           (fun field => v <- row_lookup field.1 r ;; format_value field.2 v).

Definition report_section (key : string) : M unit :=
  results <- get_test_results ;;
  match results !! key with
  | Some rows =>
      print (MsgReportSection key) ;;;
      for_each rows (fun r => format_row key r ;;; print (MsgReportRow r))
  | None => ret tt
  end.

Definition generate_report : M unit :=
  print (MsgStage "REPORT") ;;;
  report_section "batch_linger" ;;;
  report_section "compression" ;;;
  report_section "partitioning" ;;;
  print MsgRecommendations.

Definition data_file : string := "hydro_test_1000.json".

(** The [try] block of [main]. *)
Definition run_tests : M unit :=
  test_batch_linger data_file ;;;
  test_compression data_file ;;;
  test_partitioning data_file ;;;
  generate_report ;;;
  print MsgSuccess.

(** [main] up to the [try] block: banner, tester, provisioning, pause. *)
Definition startup : M unit :=
  print MsgBanner ;;;
  HydroKafkaTester ;;;
  print (MsgStage "TOPICS") ;;;
  create_topics ;;;
  time_sleep 3.

(** The world in which [main] calls [create_topics]. *)
Definition before_provisioning (w : World) : World :=
  add_event (EvPrint (MsgStage "TOPICS"))
    (clear_results (add_event (EvPrint MsgBanner) w)).

(** The clauses of the [try] block of [main]. *)
Definition main_handlers : list ((Exn -> bool) * (Exn -> M unit)) :=
  [ (is_FileNotFoundError, fun _ => print MsgRunGenerator);
    (is_Exception, fun e => print (MsgError e)) ].

Definition main : M unit :=
  startup ;;;
  try_except run_tests main_handlers.

Definition same_results (w w' : World) : Prop :=
  test_results w' = test_results w.

Definition is_send (ev : Event) : bool :=
  match ev with EvSend _ _ _ _ => true | _ => false end.

Definition is_ack_wait (ev : Event) : bool :=
  match ev with EvAckWait _ _ => true | _ => false end.

(** The keys of a result of the batch/linger sweep. *)
Definition batch_linger_keys : list string :=
  [ "batch_size"; "linger_ms"; "throughput"; "avg_latency"; "p95_latency";
    "p99_latency"; "duration" ].

(** The latencies that one run of the timed loop measures over [n]
    records when its [start] is clock reading number [t0]: record [i] is
    timed by the readings [t0 + 1 + 2i] and [t0 + 2 + 2i]. *)
Definition run_latencies (clock : nat -> Q) (t0 n : nat) : list Q :=
  map (latency_at clock (S t0)) (seq 0 n).

(** The clock readings that one run over [n] records takes: [start], two
    per record, and [end]. *)
Definition readings_per_run (n : nat) : nat := 2 * n + 2.

(** What the result of a run that measured [latencies] holds: the seven
    keys; under ['avg_latency'] the value of [statistics.mean(latencies)];
    under ['p95_latency'] and ['p99_latency'] the values of
    [sorted(latencies)[int(len(latencies) * 0.95)]] and
    [sorted(latencies)[int(len(latencies) * 0.99)]], in this order. *)
Definition reports_mean_p95_p99 (latencies : list Q) (r : RunResult) : Prop :=
  dom r = list_to_set batch_linger_keys /\
  exists avg p95 p99,
    r !! "avg_latency" = Some (VFloat avg) /\
    r !! "p95_latency" = Some (VFloat p95) /\
    r !! "p99_latency" = Some (VFloat p99) /\
    (forall w, statistics_mean latencies w = (Ok avg, w)) /\
    (forall w, percentile latencies lit_0_95 w = (Ok p95, w)) /\
    (forall w, percentile latencies lit_0_99 w = (Ok p99, w)) /\
    (p95 <= p99)%Q.

(** A result whose scaling factor is its throughput divided by [baseline]. *)
Definition scaled_against (baseline : Q) (r : RunResult) : Prop :=
  exists throughput scaling_factor,
    r !! "throughput" = Some (VFloat throughput) /\
    fdiv throughput baseline = Some scaling_factor /\
    r !! "scaling_factor" = Some (VFloat scaling_factor).

(** What holds of the local variables of [test_partitioning] between two
    iterations: the baseline is unset exactly as long as there is no
    result; it is the throughput of the first result, whose scaling factor
    is 1.0; every later result is scaled against it. *)
Definition partitioning_invariant (locals : option Q * list RunResult) : Prop :=
  match locals.2 with
  | [] => locals.1 = None
  | first :: later =>
      exists baseline,
        locals.1 = Some baseline /\
        first !! "throughput" = Some (VFloat baseline) /\
        first !! "scaling_factor" = Some (VFloat 1) /\
        Forall (scaled_against baseline) later
  end.

(** What one run of a sweep adds to the trace, by outcome: it opens the
    session [p]; when it ends normally the last two events close [p] and
    pause for two seconds; when it raises, no session is closed. *)
Definition quiet (ev : Event) : Prop :=
  is_close ev = false /\ is_open ev = false.


(** The events of a trace that open or close a producer session. *)
Definition session_events (events : list Event) : list Event :=
  List.filter (fun ev => is_open ev || is_close ev) events.

Definition count_sends (events : list Event) : nat :=
  length (List.filter is_send events).

Definition count_ack_waits (events : list Event) : nat :=
  length (List.filter is_ack_wait events).

(** The keyword arguments of [KafkaProducer] in each sweep. *)
Definition batch_linger_config (config : Z * Z) : ProducerConfig :=
  {| cfg_batch_size := config.1; cfg_linger_ms := config.2;
     cfg_compression_type := Some "lz4" |}.

Definition compression_config (algo : string) : ProducerConfig :=
  {| cfg_batch_size := 262144; cfg_linger_ms := 50;
     cfg_compression_type := if String.eqb algo "none" then None else Some algo |}.

Definition partitioning_config (num_partitions : Z) : ProducerConfig :=
  {| cfg_batch_size := 262144; cfg_linger_ms := 50;
     cfg_compression_type := Some "lz4" |}.

(** Sessions with the given settings, numbered from [p], each closed
    before the next is opened. *)
Fixpoint sessions_in_turn (p : nat) (configs : list ProducerConfig) : list Event :=
  match configs with
  | [] => []
  | cfg :: rest => EvOpen p cfg :: EvClose p :: sessions_in_turn (S p) rest
  end.

(** What one completed run adds to the trace: one session, opened and
    closed, and a number of sends and acknowledgment waits. *)
Definition run_profile (p : nat) (cfg : ProducerConfig) (sent acked : nat)
    (events : list Event) : Prop :=
  session_events events = [EvOpen p cfg; EvClose p] /\
  count_sends events = sent /\
  count_ack_waits events = acked.

(** Whether [format(v, spec)] returns. *)
Definition accepts (spec : FormatSpec) (v : PyVal) : bool :=
  match spec, v with
  | FmtPlain, _ => true
  | FmtFixed, VFloat _ => true
  | FmtFixed, VInt n => Z.abs n <? float_limit
  | FmtString, VStr _ => true
  | _, _ => false
  end.

(** Whether the row of the report for [r] can be formatted: every field
    is present and its value fits the specification. *)
Definition formats_row (sweep : string) (r : RunResult) : bool :=
  forallb (fun field : string * FormatSpec =>
             match r !! field.1 with
             | Some v => accepts field.2 v
             | None => false
             end)
          (report_fields sweep).

(** The three keys under which the sweeps store their results, in the
    order in which [main] runs them. *)
Definition sweep_keys : list string :=
  ["batch_linger"; "compression"; "partitioning"].

(** The calls on the administrative client in a trace. *)
Definition is_admin_event (ev : Event) : bool :=
  match ev with
  | EvAdminOpen | EvCreateTopic _ | EvAdminClose => true
  | _ => false
  end.

Definition admin_events (events : list Event) : list Event :=
  List.filter is_admin_event events.

Definition topic_names (l : list TopicSpec) : gset string :=
  list_to_set (map topic_name l).




End Hydro.

(** ** Concrete scenarios *)

Module Scenario.
Import Py Hydro.

(** A one-field record, as [json.dumps] writes it. *)
Definition dquote : string := String (Ascii.ascii_of_nat 34) EmptyString.

Definition kaplan_record : JRecord :=
  {| payload := "{" +:+ dquote +:+ "turbine_type" +:+ dquote +:+ ": "
                +:+ dquote +:+ "kaplan" +:+ dquote +:+ "}";
     turbine_field := StringField "kaplan" |}.

(** The smallest JSON object, [{}]: two bytes, no ['turbine_type']. *)
Definition empty_object : JRecord :=
  {| payload := "{}"; turbine_field := NoField |}.

(** A broker that works, a clock that advances an eighth of a second per
    reading, and a workload file with the given records (or no file). *)
Definition world (workload : option (list JRecord))
    (ack : nat -> option Exn) : World :=
  {| clock := fun n => (Z.of_nat n # 8)%Q; ticks := 0;
     send_fault := fun _ => None; sends := 0;
     ack_fault := ack; acks := 0;
     admin_connect_fault := None;
     admin_fault := fun _ => None; admin_calls := 0;
     topics := ∅;
     files := match workload with
              | Some records => {[ data_file := records ]}
              | None => ∅
              end;
     next_producer := 0; trace := []; test_results := ∅ |}.

Definition healthy : World :=
  world (Some [kaplan_record; kaplan_record]) (fun _ => None).

(** The first acknowledgment wait runs into the ten-second timeout. *)
Definition first_ack_times_out : World :=
  world (Some [kaplan_record; kaplan_record])
        (fun n => if Nat.eqb n 0 then Some KafkaTimeoutError else None).

Definition no_workload_file : World := world None (fun _ => None).

(** The broker answers the fourth administrative call with an error that
    is not [TopicAlreadyExistsError]. *)
Definition broker_breaks_down : World :=
  {| clock := fun n => (Z.of_nat n # 8)%Q; ticks := 0;
     send_fault := fun _ => None; sends := 0;
     ack_fault := fun _ => None; acks := 0;
     admin_connect_fault := None;
     admin_fault := fun n => if Nat.eqb n 3 then Some NoBrokersAvailable else None;
     admin_calls := 0;
     topics := ∅;
     files := {[ data_file := [kaplan_record] ]};
     next_producer := 0; trace := []; test_results := ∅ |}.

Definition tiny_workload : World := world (Some [empty_object]) (fun _ => None).

(** The workload file exists and has no line. *)
Definition empty_workload : World := world (Some []) (fun _ => None).

(** Three records; the acknowledgment of the second one times out. *)
Definition second_ack_times_out : World :=
  world (Some [kaplan_record; kaplan_record; kaplan_record])
        (fun n => if Nat.eqb n 1 then Some KafkaTimeoutError else None).



End Scenario.

(** * Properties *)

(** ** Facts about binary64 rounding *)

Import Binary64.

Section Pow2.

Lemma Q_of_Z_lt a b : a < b -> (inject_Z a < inject_Z b)%Q.
Proof. intros H. rewrite <- Zlt_Qlt. exact H. Qed.

Lemma Q_of_Z_le a b : a <= b -> (inject_Z a <= inject_Z b)%Q.
Proof. intros H. rewrite <- Zle_Qle. exact H. Qed.

Lemma pow2_pos k : (0 < pow2 k)%Q.
Proof. apply Qpower_0_lt. reflexivity. Qed.

Lemma pow2_add a b : (pow2 (a + b) == pow2 a * pow2 b)%Q.
Proof. apply Qpower_plus. discriminate. Qed.

Lemma pow2_le a b : a <= b -> (pow2 a <= pow2 b)%Q.
Proof. intros H. apply Qpower_le_compat_l; [exact H | discriminate]. Qed.

Lemma pow2_lt a b : a < b -> (pow2 a < pow2 b)%Q.
Proof. intros H. apply Qpower_lt_compat_l; [exact H | reflexivity]. Qed.

Lemma pow2_lt_inv a b : (pow2 a < pow2 b)%Q -> a < b.
Proof. intros H. apply (Qpower_lt_compat_l_inv 2); [exact H | reflexivity]. Qed.

Lemma pow2_Z k : 0 <= k -> (pow2 k == inject_Z (2 ^ k))%Q.
Proof. intros H. unfold pow2. rewrite Zpower_Qpower by exact H. reflexivity. Qed.

Lemma pow2_cancel k : (pow2 k * pow2 (- k) == 1)%Q.
Proof. rewrite <- pow2_add. replace (k + - k) with 0 by lia. reflexivity. Qed.

End Pow2.

Section Rne.

Lemma rne_comp x y : (x == y)%Q -> rne x = rne y.
Proof.
  intros H. unfold rne. rewrite (Qfloor_comp x y H).
  assert (E : (x - inject_Z (Qfloor y) ?= 1 # 2)%Q = (y - inject_Z (Qfloor y) ?= 1 # 2)%Q)
    by (rewrite H; reflexivity).
  rewrite E. reflexivity.
Qed.

Lemma rne_floor_bounds x : Qfloor x <= rne x <= Qfloor x + 1.
Proof.
  unfold rne. destruct (_ ?= _)%Q; [destruct (Z.even _) | |]; lia.
Qed.

Lemma rne_Z n : rne (inject_Z n) = n.
Proof.
  unfold rne. rewrite Qfloor_Z.
  assert (H : (inject_Z n - inject_Z n < 1 # 2)%Q) by lra.
  rewrite (proj1 (Qlt_alt _ _) H). reflexivity.
Qed.

Lemma rne_mono x y : (x <= y)%Q -> rne x <= rne y.
Proof.
  intros H.
  pose proof (Qfloor_resp_le x y H) as Hf.
  destruct (Z.eq_dec (Qfloor x) (Qfloor y)) as [E | NE].
  - unfold rne. rewrite E.
    destruct (Qcompare_spec (x - inject_Z (Qfloor y)) (1 # 2)) as [Hx | Hx | Hx];
      destruct (Qcompare_spec (y - inject_Z (Qfloor y)) (1 # 2)) as [Hy | Hy | Hy];
      try destruct (Z.even (Qfloor y)); try lia; exfalso; lra.
  - pose proof (rne_floor_bounds x). pose proof (rne_floor_bounds y). lia.
Qed.

Lemma rne_between a b x :
  (inject_Z a <= x)%Q -> (x <= inject_Z b)%Q -> a <= rne x <= b.
Proof.
  intros Ha Hb. apply rne_mono in Ha, Hb. rewrite rne_Z in Ha, Hb. lia.
Qed.

(** A rational strictly within one half of an integer rounds to it. *)
Lemma rne_near K x :
  (inject_Z K - (1 # 2) < x)%Q -> (x < inject_Z K + (1 # 2))%Q -> rne x = K.
Proof.
  intros Hlo Hhi.
  pose proof (Qfloor_le x) as F1. pose proof (Qlt_floor x) as F2.
  rewrite inject_Z_plus in F2. change (inject_Z 1) with 1%Q in F2.
  assert (Hf : Qfloor x = K - 1 \/ Qfloor x = K).
  { assert (A : (inject_Z (Qfloor x) < inject_Z (K + 1))%Q)
      by (rewrite inject_Z_plus; change (inject_Z 1) with 1%Q; lra).
    assert (B : (inject_Z (K - 2) < inject_Z (Qfloor x))%Q).
    { unfold Z.sub. rewrite inject_Z_plus, inject_Z_opp. change (inject_Z 2) with 2%Q. lra. }
    rewrite <- Zlt_Qlt in A, B. lia. }
  unfold rne. destruct Hf as [E | E]; rewrite E.
  - assert (G : (x - inject_Z (K - 1) > 1 # 2)%Q).
    { unfold Z.sub. rewrite inject_Z_plus, inject_Z_opp. change (inject_Z 1) with 1%Q. lra. }
    rewrite (proj1 (Qgt_alt _ _) G). lia.
  - assert (G : (x - inject_Z K < 1 # 2)%Q) by lra.
    rewrite (proj1 (Qlt_alt _ _) G). reflexivity.
Qed.

End Rne.

Section Ilog2.

Lemma ilog2_spec x :
  (0 < x)%Q -> (pow2 (ilog2 x) <= x)%Q /\ (x < pow2 (ilog2 x + 1))%Q.
Proof.
  intros Hx. destruct x as [a b].
  assert (Ha : 0 < a) by (unfold Qlt in Hx; simpl in Hx; lia).
  pose proof (Z.log2_spec a Ha) as [La Ua].
  pose proof (Z.log2_spec (Zpos b) (Pos2Z.is_pos b)) as [Lb Ub].
  pose proof (Z.log2_nonneg a) as Na.
  pose proof (Z.log2_nonneg (Zpos b)) as Nb.
  set (la := Z.log2 a) in *. set (lb := Z.log2 (Zpos b)) in *.
  assert (Pa : 0 < 2 ^ la) by (apply Z.pow_pos_nonneg; lia).
  assert (Pb : 0 < 2 ^ lb) by (apply Z.pow_pos_nonneg; lia).
  rewrite Z.pow_succ_r in Ua, Ub by lia.
  assert (Hi : (a # b < pow2 (la - lb + 1))%Q).
  { apply (Qmult_lt_r _ _ (pow2 lb)); [apply pow2_pos |].
    rewrite <- pow2_add. replace (la - lb + 1 + lb) with (la + 1) by lia.
    rewrite !pow2_Z by lia.
    unfold Qlt, Qmult, inject_Z; simpl. rewrite Pos.mul_1_r, Z.pow_add_r by lia.
    change (2 ^ 1) with 2. nia. }
  assert (Lo : (pow2 (la - lb - 1) <= a # b)%Q).
  { apply (Qmult_le_r _ _ (pow2 (lb + 1))); [apply pow2_pos |].
    rewrite <- pow2_add. replace (la - lb - 1 + (lb + 1)) with la by lia.
    rewrite !pow2_Z by lia.
    unfold Qle, Qmult, inject_Z; simpl. rewrite Pos.mul_1_r, Z.pow_add_r by lia.
    change (2 ^ 1) with 2. nia. }
  unfold ilog2. cbn [Qnum Qden]. fold la lb.
  destruct (Qle_bool (pow2 (la - lb)) (a # b)) eqn:E.
  - apply Qle_bool_iff in E. split; assumption.
  - split; [exact Lo |].
    replace (la - lb - 1 + 1) with (la - lb) by lia.
    apply Qnot_le_lt. intros C. apply Qle_bool_iff in C. congruence.
Qed.

Lemma ilog2_unique x e :
  (pow2 e <= x)%Q -> (x < pow2 (e + 1))%Q -> ilog2 x = e.
Proof.
  intros Lo Hi.
  assert (Hx : (0 < x)%Q) by (pose proof (pow2_pos e); lra).
  destruct (ilog2_spec x Hx) as [Lo' Hi'].
  assert (A : (pow2 e < pow2 (ilog2 x + 1))%Q) by lra.
  assert (B : (pow2 (ilog2 x) < pow2 (e + 1))%Q) by lra.
  apply pow2_lt_inv in A, B. lia.
Qed.

Lemma ilog2_comp x y : (0 < x)%Q -> (x == y)%Q -> ilog2 x = ilog2 y.
Proof.
  intros Hx E. symmetry. destruct (ilog2_spec x Hx) as [Lo Hi].
  apply ilog2_unique; rewrite <- E; assumption.
Qed.

Lemma ilog2_mono x y : (0 < x)%Q -> (x <= y)%Q -> ilog2 x <= ilog2 y.
Proof.
  intros Hx Hxy.
  destruct (ilog2_spec x Hx) as [Lo _].
  destruct (ilog2_spec y ltac:(lra)) as [_ Hi].
  assert (A : (pow2 (ilog2 x) < pow2 (ilog2 y + 1))%Q) by lra.
  apply pow2_lt_inv in A. lia.
Qed.

End Ilog2.

Section Round53.

Lemma scaled_range x :
  (0 < x)%Q ->
  (inject_Z (2 ^ 52) <= x * pow2 (52 - ilog2 x))%Q /\
  (x * pow2 (52 - ilog2 x) < inject_Z (2 ^ 53))%Q.
Proof.
  intros Hx. destruct (ilog2_spec x Hx) as [Lo Hi].
  pose proof (pow2_pos (52 - ilog2 x)) as Hp.
  set (e := ilog2 x) in *.
  assert (E52 : (inject_Z (2 ^ 52) == pow2 e * pow2 (52 - e))%Q).
  { rewrite <- pow2_add, <- pow2_Z by lia. replace (e + (52 - e)) with 52 by lia.
    reflexivity. }
  assert (E53 : (inject_Z (2 ^ 53) == pow2 (e + 1) * pow2 (52 - e))%Q).
  { rewrite <- pow2_add, <- pow2_Z by lia. replace (e + 1 + (52 - e)) with 53 by lia.
    reflexivity. }
  rewrite E52, E53. split.
  - apply Qmult_le_r; assumption.
  - apply Qmult_lt_r; assumption.
Qed.

Lemma round_pos_bounds x :
  (0 < x)%Q ->
  (pow2 (ilog2 x) <= round_pos x)%Q /\ (round_pos x <= pow2 (ilog2 x + 1))%Q.
Proof.
  intros Hx. destruct (scaled_range x Hx) as [Lo Hi].
  destruct (rne_between (2 ^ 52) (2 ^ 53) (x * pow2 (52 - ilog2 x)) Lo ltac:(lra))
    as [A B].
  unfold round_pos. cbv zeta.
  set (r := rne _) in *.
  pose proof (pow2_pos (ilog2 x - 52)) as Hp.
  rewrite Zle_Qle in A, B. set (e := ilog2 x) in *.
  assert (E52 : (pow2 e == inject_Z (2 ^ 52) * pow2 (e - 52))%Q).
  { rewrite <- pow2_Z, <- pow2_add by lia. replace (52 + (e - 52)) with e by lia.
    reflexivity. }
  assert (E53 : (pow2 (e + 1) == inject_Z (2 ^ 53) * pow2 (e - 52))%Q).
  { rewrite <- pow2_Z, <- pow2_add by lia. replace (53 + (e - 52)) with (e + 1) by lia.
    reflexivity. }
  rewrite E52, E53. split; apply Qmult_le_r; assumption.
Qed.

Lemma round_pos_pos x : (0 < x)%Q -> (0 < round_pos x)%Q.
Proof.
  intros Hx. destruct (round_pos_bounds x Hx) as [Lo _].
  pose proof (pow2_pos (ilog2 x)). lra.
Qed.

Lemma round_pos_comp x y : (0 < x)%Q -> (x == y)%Q -> (round_pos x == round_pos y)%Q.
Proof.
  intros Hx E. unfold round_pos. cbv zeta.
  rewrite <- (ilog2_comp x y Hx E).
  rewrite (rne_comp (x * pow2 (52 - ilog2 x)) (y * pow2 (52 - ilog2 x)))
    by (apply Qmult_comp; [exact E | reflexivity]).
  reflexivity.
Qed.

Lemma round_pos_mono x y :
  (0 < x)%Q -> (x <= y)%Q -> (round_pos x <= round_pos y)%Q.
Proof.
  intros Hx Hxy.
  assert (Hy : (0 < y)%Q) by lra.
  pose proof (ilog2_mono x y Hx Hxy) as He.
  destruct (Z.eq_dec (ilog2 x) (ilog2 y)) as [E | NE].
  - unfold round_pos. cbv zeta. rewrite E.
    apply Qmult_le_r; [apply pow2_pos |].
    rewrite <- Zle_Qle. apply rne_mono.
    apply Qmult_le_r; [apply pow2_pos | exact Hxy].
  - destruct (round_pos_bounds x Hx) as [_ Ux].
    destruct (round_pos_bounds y Hy) as [Ly _].
    pose proof (pow2_le (ilog2 x + 1) (ilog2 y) ltac:(lia)). lra.
Qed.

(** Values with at most 53 significant bits are fixed by the rounding. *)
Lemma round_pos_exact m k :
  0 < m < 2 ^ 53 ->
  (round_pos (inject_Z m * pow2 k) == inject_Z m * pow2 k)%Q.
Proof.
  intros [Hm1 Hm2].
  pose proof (pow2_pos k) as Hk.
  assert (Hm : (0 < inject_Z m)%Q) by exact (Q_of_Z_lt 0 m Hm1).
  assert (Hx : (0 < inject_Z m * pow2 k)%Q) by (apply Qmult_lt_0_compat; assumption).
  destruct (scaled_range _ Hx) as [Lo Hi].
  unfold round_pos. cbv zeta.
  set (e := ilog2 (inject_Z m * pow2 k)) in *.
  set (j := k + (52 - e)).
  assert (Ej : (inject_Z m * pow2 k * pow2 (52 - e) == inject_Z m * pow2 j)%Q).
  { unfold j. rewrite pow2_add. ring. }
  assert (Hj : 0 <= j).
  { destruct (Z_lt_le_dec j 0) as [Neg | ?]; [exfalso | assumption].
    pose proof (pow2_le j (-1) ltac:(lia)) as P.
    change (pow2 (-1)) with (1 # 2)%Q in P.
    rewrite Ej in Lo.
    assert (M : (inject_Z m < inject_Z (2 ^ 53))%Q) by (rewrite <- Zlt_Qlt; exact Hm2).
    change (inject_Z (2 ^ 53)) with (2 * inject_Z (2 ^ 52))%Q in M.
    pose proof (pow2_pos j).
    assert (T : (inject_Z m * pow2 j <= inject_Z m * (1 # 2))%Q)
      by (apply Qmult_le_l; assumption).
    lra. }
  rewrite (rne_comp _ (inject_Z (m * 2 ^ j))).
  2:{ rewrite Ej, inject_Z_mult, pow2_Z by exact Hj. reflexivity. }
  rewrite rne_Z, inject_Z_mult, <- pow2_Z by exact Hj.
  rewrite <- Qmult_assoc, <- pow2_add.
  replace (j + (e - 52)) with k by (unfold j; lia). reflexivity.
Qed.

Lemma round53_pos x : (0 < x)%Q -> round53 x = round_pos x.
Proof. intros H. unfold round53. rewrite (proj1 (Qgt_alt _ _) H). reflexivity. Qed.

Lemma round53_neg x : (x < 0)%Q -> round53 x = (- round_pos (- x))%Q.
Proof. intros H. unfold round53. rewrite (proj1 (Qlt_alt _ _) H). reflexivity. Qed.

Lemma round53_zero x : (x == 0)%Q -> round53 x = 0%Q.
Proof. intros H. unfold round53. rewrite (proj1 (Qeq_alt _ _) H). reflexivity. Qed.

#[global] Instance round53_comp : Proper (Qeq ==> Qeq) round53.
Proof.
  intros x y E.
  destruct (Qcompare_spec x 0) as [H | H | H].
  - rewrite (round53_zero x H), (round53_zero y) by (rewrite <- E; exact H).
    reflexivity.
  - rewrite (round53_neg x H), (round53_neg y) by (rewrite <- E; exact H).
    apply Qopp_comp. apply round_pos_comp; [lra | rewrite E; reflexivity].
  - rewrite (round53_pos x H), (round53_pos y) by (rewrite <- E; exact H).
    apply round_pos_comp; assumption.
Qed.

Lemma round53_mono x y : (x <= y)%Q -> (round53 x <= round53 y)%Q.
Proof.
  intros Hxy.
  destruct (Qcompare_spec x 0) as [Hx | Hx | Hx];
    destruct (Qcompare_spec y 0) as [Hy | Hy | Hy]; try (exfalso; lra).
  - rewrite (round53_zero x Hx), (round53_zero y Hy). lra.
  - rewrite (round53_zero x Hx), (round53_pos y Hy).
    pose proof (round_pos_pos y Hy). lra.
  - rewrite (round53_neg x Hx), (round53_zero y Hy).
    pose proof (round_pos_pos (- x) ltac:(lra)). lra.
  - rewrite (round53_neg x Hx), (round53_neg y Hy).
    pose proof (round_pos_mono (- y) (- x) ltac:(lra) ltac:(lra)). lra.
  - rewrite (round53_neg x Hx), (round53_pos y Hy).
    pose proof (round_pos_pos (- x) ltac:(lra)).
    pose proof (round_pos_pos y Hy). lra.
  - rewrite (round53_pos x Hx), (round53_pos y Hy).
    apply round_pos_mono; assumption.
Qed.

Lemma round53_exact m k :
  - 2 ^ 53 < m < 2 ^ 53 ->
  (round53 (inject_Z m * pow2 k) == inject_Z m * pow2 k)%Q.
Proof.
  intros Hm. pose proof (pow2_pos k) as Hk.
  destruct (Z.lt_trichotomy m 0) as [N | [Z0 | P]].
  - assert (Hn : (inject_Z m < 0)%Q) by exact (Q_of_Z_lt m 0 N).
    assert (Hx : (inject_Z m * pow2 k < 0)%Q).
    { assert (0 < - inject_Z m * pow2 k)%Q by (apply Qmult_lt_0_compat; lra). lra. }
    rewrite (round53_neg _ Hx).
    rewrite (round_pos_comp _ (inject_Z (- m) * pow2 k)).
    + rewrite round_pos_exact by lia. rewrite inject_Z_opp. ring.
    + lra.
    + rewrite inject_Z_opp. ring.
  - subst m. rewrite round53_zero; ring.
  - assert (Hp : (0 < inject_Z m)%Q) by exact (Q_of_Z_lt 0 m P).
    rewrite round53_pos by (apply Qmult_lt_0_compat; assumption).
    apply round_pos_exact. lia.
Qed.

Lemma round53_Z n : - 2 ^ 53 < n < 2 ^ 53 -> (round53 (inject_Z n) == inject_Z n)%Q.
Proof.
  intros H. pose proof (round53_exact n 0 H) as E.
  change (pow2 0) with 1%Q in E. rewrite Qmult_1_r in E. exact E.
Qed.

(** Rounding never crosses a representable value. *)
Lemma round53_le_repr x m k :
  - 2 ^ 53 < m < 2 ^ 53 -> (x <= inject_Z m * pow2 k)%Q ->
  (round53 x <= inject_Z m * pow2 k)%Q.
Proof. intros Hm H. rewrite <- (round53_exact m k Hm). apply round53_mono, H. Qed.

Lemma round53_ge_repr x m k :
  - 2 ^ 53 < m < 2 ^ 53 -> (inject_Z m * pow2 k <= x)%Q ->
  (inject_Z m * pow2 k <= round53 x)%Q.
Proof. intros Hm H. rewrite <- (round53_exact m k Hm). apply round53_mono, H. Qed.

End Round53.

Section IntOfProduct.

Lemma Qfloor_unique k x :
  (inject_Z k <= x)%Q -> (x < inject_Z k + 1)%Q -> Qfloor x = k.
Proof.
  intros Lo Hi.
  pose proof (Qfloor_le x) as F1. pose proof (Qlt_floor x) as F2.
  rewrite inject_Z_plus in F2. change (inject_Z 1) with 1%Q in F2.
  assert (A : (inject_Z (Qfloor x) < inject_Z (k + 1))%Q)
    by (rewrite inject_Z_plus; change (inject_Z 1) with 1%Q; lra).
  assert (B : (inject_Z k < inject_Z (Qfloor x + 1))%Q)
    by (rewrite inject_Z_plus; change (inject_Z 1) with 1%Q; lra).
  rewrite <- Zlt_Qlt in A, B. lia.
Qed.

Lemma to_int_floor x : (0 <= x)%Q -> to_int x = Qfloor x.
Proof.
  destruct x as [a b]. intros H. unfold to_int, Qfloor. cbn [Qnum Qden].
  apply Z.quot_div_nonneg; [| lia].
  unfold Qle in H. simpl in H. lia.
Qed.

(** [int] of a rounded value that lies between an integer [k] and
    [k + 127/128] is [k]: both bounds are binary64 values. *)
Lemma to_int_round_between k x :
  0 <= k < 2 ^ 45 ->
  (inject_Z k <= x)%Q -> (x <= inject_Z k + (127 # 128))%Q ->
  to_int (round53 x) = k.
Proof.
  intros Hk Lo Hi.
  assert (L : (inject_Z k <= round53 x)%Q).
  { pose proof (round53_ge_repr x k 0 ltac:(lia)) as G.
    change (pow2 0) with 1%Q in G. rewrite Qmult_1_r in G. exact (G Lo). }
  assert (U : (round53 x <= inject_Z k + (127 # 128))%Q).
  { pose proof (round53_le_repr x (128 * k + 127) (-7) ltac:(lia)) as G.
    change (pow2 (-7)) with (1 # 128)%Q in G.
    rewrite inject_Z_plus, inject_Z_mult in G.
    change (inject_Z 128) with 128%Q in G. change (inject_Z 127) with 127%Q in G.
    assert (E : ((128 * inject_Z k + 127) * (1 # 128) == inject_Z k + (127 # 128))%Q)
      by ring.
    rewrite E in G. exact (G Hi). }
  assert (N : (0 <= inject_Z k)%Q) by exact (Q_of_Z_le 0 k ltac:(lia)).
  rewrite to_int_floor by lra.
  apply Qfloor_unique; lra.
Qed.

Lemma odd_multiple_not_pow2 d :
  d mod 2 = 1 -> 1 < d -> forall e, 0 <= e -> forall j, d * j <> 2 ^ e.
Proof.
  intros Hodd Hd e He. pattern e. apply natlike_ind; [| | exact He].
  - intros j E. change (2 ^ 0) with 1 in E. apply Z.eq_mul_1 in E. lia.
  - intros e' He' IH j E. rewrite Z.pow_succ_r in E by exact He'.
    assert (J : j mod 2 = 0).
    { assert (M : (d * j) mod 2 = 0) by (rewrite E; rewrite Z.mul_comm; apply Z.mod_mul; lia).
      rewrite <- Z.mul_mod_idemp_l, Hodd, Z.mul_1_l in M by lia. exact M. }
    apply (IH (j / 2)). pose proof (Z.div_mod j 2 ltac:(lia)). nia.
Qed.

(** A value just below an integer [k] that is not a power of two rounds up
    to [k]: the gap is under half a unit in the last place. *)
Lemma round53_up_to_int k x :
  0 < k < 2 ^ 53 -> (forall e, 0 <= e -> k <> 2 ^ e) ->
  (inject_Z k * (1 - pow2 (-54)) < x)%Q -> (x <= inject_Z k)%Q ->
  (round53 x == inject_Z k)%Q.
Proof.
  intros [Hk1 Hk2] Hnp Lo Hi.
  pose proof (Z.log2_spec k Hk1) as [Le Ue].
  pose proof (Z.log2_nonneg k) as Ne.
  set (e := Z.log2 k) in *.
  assert (He : e <= 52).
  { destruct (Z_le_gt_dec e 52) as [? | G]; [assumption | exfalso].
    pose proof (Z.pow_le_mono_r 2 53 e ltac:(lia) ltac:(lia)). lia. }
  assert (Le' : 2 ^ e + 1 <= k) by (pose proof (Hnp e Ne); lia).
  rewrite Z.pow_succ_r in Ue by exact Ne.
  assert (Qk : (inject_Z (2 ^ e) + 1 <= inject_Z k)%Q).
  { change 1%Q with (inject_Z 1). rewrite <- inject_Z_plus. apply Q_of_Z_le, Le'. }
  assert (Qk2 : (inject_Z k < inject_Z (2 ^ 53))%Q) by apply Q_of_Z_lt, Hk2.
  assert (Qk3 : (inject_Z k < 2 * inject_Z (2 ^ e))%Q).
  { change 2%Q with (inject_Z 2). rewrite <- inject_Z_mult. apply Q_of_Z_lt, Ue. }
  assert (Qe : (0 < inject_Z (2 ^ e))%Q)
    by (apply (Q_of_Z_lt 0); apply Z.pow_pos_nonneg; lia).
  change (pow2 (-54)) with (1 # 18014398509481984)%Q in Lo.
  change (inject_Z (2 ^ 53)) with (9007199254740992 # 1)%Q in Qk2.
  assert (Hx : (0 < x)%Q) by lra.
  assert (Ix : ilog2 x = e).
  { apply ilog2_unique.
    - rewrite pow2_Z by exact Ne. lra.
    - rewrite pow2_Z, Z.pow_add_r by lia. change (2 ^ 1) with 2.
      rewrite inject_Z_mult. change (inject_Z 2) with 2%Q. lra. }
  rewrite (round53_pos x Hx). unfold round_pos. cbv zeta. rewrite Ix.
  set (p := pow2 (52 - e)).
  assert (Hp : (0 < p)%Q) by apply pow2_pos.
  assert (Ep : (inject_Z (2 ^ e) * p == inject_Z (2 ^ 52))%Q).
  { unfold p. rewrite <- !pow2_Z, <- pow2_add by lia.
    replace (e + (52 - e)) with 52 by lia. reflexivity. }
  change (inject_Z (2 ^ 52)) with (4503599627370496 # 1)%Q in Ep.
  assert (EK : (inject_Z (k * 2 ^ (52 - e)) == inject_Z k * p)%Q).
  { rewrite inject_Z_mult. unfold p. rewrite pow2_Z by lia. reflexivity. }
  assert (R : rne (x * p) = k * 2 ^ (52 - e)).
  { apply rne_near; rewrite EK.
    - assert ((inject_Z k - x) * p < 1 # 2)%Q; [| lra].
      assert (T1 : ((inject_Z k - x) * p <= inject_Z k * (1 # 18014398509481984) * p)%Q).
      { apply Qmult_le_r; [exact Hp | lra]. }
      assert (T2 : (inject_Z k * p < 2 * (inject_Z (2 ^ e) * p))%Q).
      { rewrite Qmult_assoc. apply Qmult_lt_r; [exact Hp | exact Qk3]. }
      rewrite Ep in T2. lra.
    - assert (x * p <= inject_Z k * p)%Q by (apply Qmult_le_r; assumption). lra. }
  rewrite R, EK. unfold p. rewrite <- Qmult_assoc, <- pow2_add.
  replace (52 - e + (e - 52)) with 0 by lia. change (pow2 0) with 1%Q. ring.
Qed.

End IntOfProduct.

Section Literals.

Ltac zdiv := Z.div_mod_to_equations; lia.

Lemma to_int_comp x y : (x == y)%Q -> to_int x = to_int y.
Proof.
  intros E. destruct (Qlt_le_dec x 0) as [N | P].
  - assert (Hx : to_int x = - Qfloor (- x)).
    { rewrite <- to_int_floor by lra. destruct x as [a b]. unfold to_int. cbn.
      rewrite Z.quot_opp_l by lia. lia. }
    assert (Hy : to_int y = - Qfloor (- y)).
    { rewrite <- to_int_floor by lra. destruct y as [a b]. unfold to_int. cbn.
      rewrite Z.quot_opp_l by lia. lia. }
    rewrite Hx, Hy. f_equal. apply Qfloor_comp. rewrite E. reflexivity.
  - rewrite !to_int_floor by lra. apply Qfloor_comp, E.
Qed.

Lemma to_int_Z k : to_int (inject_Z k) = k.
Proof. unfold to_int. cbn. apply Z.quot_1_r. Qed.

Lemma lit_0_95_val : (lit_0_95 == 8556839292003942 # 9007199254740992)%Q.
Proof. vm_compute. reflexivity. Qed.

Lemma lit_0_99_val : (lit_0_99 == 8917127262193582 # 9007199254740992)%Q.
Proof. vm_compute. reflexivity. Qed.

Lemma lit_0_40_val : (lit_0_40 == 3602879701896397 # 9007199254740992)%Q.
Proof. vm_compute. reflexivity. Qed.

Lemma lit_0_35_val : (lit_0_35 == 3152519739159347 # 9007199254740992)%Q.
Proof. vm_compute. reflexivity. Qed.

Lemma lit_0_25_val : (lit_0_25 == 1 # 4)%Q.
Proof. vm_compute. reflexivity. Qed.

(** The product of an int and a float literal, before [int] is applied. *)
Lemma fmul_of_int n c c' :
  - 2 ^ 53 < n < 2 ^ 53 -> (c == c')%Q ->
  (fmul (of_int n) c == round53 (inject_Z n * c'))%Q.
Proof.
  intros Hn Hc. unfold fmul, of_int. apply round53_comp.
  rewrite (round53_Z n Hn), Hc. reflexivity.
Qed.

Lemma int_mul_0_95 n :
  0 <= n < 2 ^ 45 -> to_int (fmul (of_int n) lit_0_95) = 95 * n / 100.
Proof.
  intros Hn.
  rewrite (to_int_comp _ _ (fmul_of_int n _ _ ltac:(lia) lit_0_95_val)).
  set (k := 95 * n / 100).
  destruct (Z.eq_dec (95 * n mod 100) 0) as [E | NE].
  - destruct (Z.eq_dec n 0) as [-> | N0]; [reflexivity |].
    assert (D : (20 | n)).
    { apply (Z.gauss 20 19); [| reflexivity].
      apply Z.mod_divide in E; [| lia]. destruct E as [z Ez]. exists z. lia. }
    destruct D as [j Ej].
    assert (Hk : k = 19 * j).
    { unfold k. subst n. replace (95 * (j * 20)) with (19 * j * 100) by lia.
      apply Z.div_mul. lia. }
    rewrite (to_int_comp _ (inject_Z k)); [apply to_int_Z |].
    apply round53_up_to_int.
    + lia.
    + intros e He. rewrite Hk. apply odd_multiple_not_pow2; [reflexivity | lia | exact He].
    + change (pow2 (-54)) with (1 # 18014398509481984)%Q.
      unfold Qlt, Qmult, Qminus, Qplus, Qopp, inject_Z. cbn. lia.
    + unfold Qle, Qmult, inject_Z. cbn. lia.
  - apply to_int_round_between.
    + unfold k. zdiv.
    + unfold Qle, Qmult, inject_Z. cbn. unfold k. zdiv.
    + unfold Qle, Qmult, Qplus, inject_Z. cbn. unfold k. zdiv.
Qed.

Lemma int_mul_0_99 n :
  0 <= n < 2 ^ 45 -> to_int (fmul (of_int n) lit_0_99) = 99 * n / 100.
Proof.
  intros Hn.
  rewrite (to_int_comp _ _ (fmul_of_int n _ _ ltac:(lia) lit_0_99_val)).
  set (k := 99 * n / 100).
  destruct (Z.eq_dec (99 * n mod 100) 0) as [E | NE].
  - destruct (Z.eq_dec n 0) as [-> | N0]; [reflexivity |].
    assert (D : (100 | n)).
    { apply (Z.gauss 100 99); [| reflexivity].
      apply Z.mod_divide in E; [| lia]. destruct E as [z Ez]. exists z. lia. }
    destruct D as [j Ej].
    assert (Hk : k = 99 * j).
    { unfold k. subst n. replace (99 * (j * 100)) with (99 * j * 100) by lia.
      apply Z.div_mul. lia. }
    rewrite (to_int_comp _ (inject_Z k)); [apply to_int_Z |].
    apply round53_up_to_int.
    + lia.
    + intros e He. rewrite Hk. apply odd_multiple_not_pow2; [reflexivity | lia | exact He].
    + change (pow2 (-54)) with (1 # 18014398509481984)%Q.
      unfold Qlt, Qmult, Qminus, Qplus, Qopp, inject_Z. cbn. lia.
    + unfold Qle, Qmult, inject_Z. cbn. lia.
  - apply to_int_round_between.
    + unfold k. zdiv.
    + unfold Qle, Qmult, inject_Z. cbn. unfold k. zdiv.
    + unfold Qle, Qmult, Qplus, inject_Z. cbn. unfold k. zdiv.
Qed.

(** The literal [0.40] is rounded upwards, so no multiple is at risk. *)
Lemma int_mul_0_40 s :
  0 <= s < 2 ^ 45 -> to_int (fmul (of_int s) lit_0_40) = 2 * s / 5.
Proof.
  intros Hs.
  rewrite (to_int_comp _ _ (fmul_of_int s _ _ ltac:(lia) lit_0_40_val)).
  apply to_int_round_between.
  - zdiv.
  - unfold Qle, Qmult, inject_Z. cbn. zdiv.
  - unfold Qle, Qmult, Qplus, inject_Z. cbn. zdiv.
Qed.

Lemma int_mul_0_25 s :
  0 <= s < 2 ^ 45 -> to_int (fmul (of_int s) lit_0_25) = s / 4.
Proof.
  intros Hs.
  rewrite (to_int_comp _ _ (fmul_of_int s _ _ ltac:(lia) lit_0_25_val)).
  apply to_int_round_between.
  - zdiv.
  - unfold Qle, Qmult, inject_Z. cbn. zdiv.
  - unfold Qle, Qmult, Qplus, inject_Z. cbn. zdiv.
Qed.

End Literals.

(** ** Facts about [sorted] and list indexing *)

Import Py Hydro.

Section SortedFacts.

Lemma insert_sorted_perm x l : insert_sorted x l ≡ₚ x :: l.
Proof.
  induction l as [| y l IH]; simpl; [reflexivity |].
  destruct (Qle_bool x y); [reflexivity |].
  rewrite IH. apply Permutation_swap.
Qed.

Lemma sorted_perm l : sorted l ≡ₚ l.
Proof.
  induction l as [| x l IH]; simpl; [reflexivity |].
  rewrite insert_sorted_perm, IH. reflexivity.
Qed.

Lemma sorted_length l : length (sorted l) = length l.
Proof. apply Permutation_length, sorted_perm. Qed.

Lemma insert_sorted_Forall (P : Q -> Prop) x l :
  P x -> Forall P l -> Forall P (insert_sorted x l).
Proof.
  intros Hx Hl. rewrite insert_sorted_perm. constructor; assumption.
Qed.

Lemma insert_sorted_sorted x l :
  StronglySorted Qle l -> StronglySorted Qle (insert_sorted x l).
Proof.
  induction 1 as [| y l Hs IH Hy]; simpl.
  - repeat constructor.
  - destruct (Qle_bool x y) eqn:E.
    + apply Qle_bool_iff in E. constructor.
      * constructor; assumption.
      * constructor; [exact E |].
        eapply Forall_impl; [exact Hy |]. intros z Hz. simpl in Hz.
        apply (Qle_trans _ y); assumption.
    + assert (Hyx : (y <= x)%Q).
      { apply Qlt_le_weak, Qnot_le_lt. intros C. apply Qle_bool_iff in C. congruence. }
      constructor; [exact IH |].
      apply insert_sorted_Forall; assumption.
Qed.

Lemma sorted_sorted l : StronglySorted Qle (sorted l).
Proof.
  induction l as [| x l IH]; simpl; [constructor |].
  apply insert_sorted_sorted, IH.
Qed.

(** In an ascending list, a later position holds a value at least as
    large. *)
Lemma StronglySorted_lookup_le (s : list Q) (i j : nat) a b :
  StronglySorted Qle s -> (i <= j)%nat ->
  s !! i = Some a -> s !! j = Some b -> (a <= b)%Q.
Proof.
  intros Hs. revert i j. induction Hs as [| x s Hs IH Hx]; intros i j Hij Ha Hb.
  - discriminate.
  - destruct i as [| i], j as [| j]; simpl in *.
    + injection Ha as <-. injection Hb as <-. apply Qle_refl.
    + injection Ha as <-. rewrite Forall_forall in Hx.
      apply Hx. eapply list_elem_of_lookup_2, Hb.
    + lia.
    + apply (IH i j); [lia | assumption | assumption].
Qed.

End SortedFacts.

(** ** The metric reduction: percentiles *)

Section Percentiles.

Lemma py_index_ok {A} (l : list A) (i : Z) (x : A) (w : World) :
  0 <= i -> l !! Z.to_nat i = Some x -> py_index l i w = (Ok x, w).
Proof.
  intros Hi Hx. unfold py_index.
  destruct (i <? 0) eqn:E; [apply Z.ltb_lt in E; lia |].
  rewrite E, Hx. reflexivity.
Qed.

Lemma len_pos {A} (l : list A) : l <> [] -> 0 < len l.
Proof. destruct l; [congruence | intros _; unfold len; simpl; lia]. Qed.

Lemma percentile_index_95 n :
  0 < n < 2 ^ 45 ->
  to_int (fmul (of_int n) lit_0_95) = 95 * n / 100 /\ 0 <= 95 * n / 100 < n.
Proof.
  intros Hn. rewrite int_mul_0_95 by lia. split; [reflexivity |].
  Z.div_mod_to_equations. lia.
Qed.

Lemma percentile_index_99 n :
  0 < n < 2 ^ 45 ->
  to_int (fmul (of_int n) lit_0_99) = 99 * n / 100 /\ 0 <= 99 * n / 100 < n.
Proof.
  intros Hn. rewrite int_mul_0_99 by lia. split; [reflexivity |].
  Z.div_mod_to_equations. lia.
Qed.

Lemma percentile_95 l :
  l <> [] -> len l < 2 ^ 45 ->
  exists x, sorted l !! Z.to_nat (95 * len l / 100) = Some x /\
            forall w, percentile l lit_0_95 w = (Ok x, w).
Proof.
  intros Hne Hlen. pose proof (len_pos l Hne) as Hpos.
  destruct (percentile_index_95 (len l) ltac:(lia)) as [E B].
  destruct (lookup_lt_is_Some_2 (sorted l) (Z.to_nat (95 * len l / 100))) as [x Hx].
  { rewrite sorted_length. unfold len in *. lia. }
  exists x. split; [exact Hx |]. intros w. unfold percentile. rewrite E.
  apply py_index_ok; [lia | exact Hx].
Qed.

Lemma percentile_99 l :
  l <> [] -> len l < 2 ^ 45 ->
  exists x, sorted l !! Z.to_nat (99 * len l / 100) = Some x /\
            forall w, percentile l lit_0_99 w = (Ok x, w).
Proof.
  intros Hne Hlen. pose proof (len_pos l Hne) as Hpos.
  destruct (percentile_index_99 (len l) ltac:(lia)) as [E B].
  destruct (lookup_lt_is_Some_2 (sorted l) (Z.to_nat (99 * len l / 100))) as [x Hx].
  { rewrite sorted_length. unfold len in *. lia. }
  exists x. split; [exact Hx |]. intros w. unfold percentile. rewrite E.
  apply py_index_ok; [lia | exact Hx].
Qed.

(** The two percentiles of one latency sequence are ordered. *)
Lemma percentile_95_le_99 l p95 p99 w1 w1' w2 w2' :
  len l < 2 ^ 45 ->
  percentile l lit_0_95 w1 = (Ok p95, w1') ->
  percentile l lit_0_99 w2 = (Ok p99, w2') ->
  (p95 <= p99)%Q.
Proof.
  intros Hlen H95 H99.
  destruct l as [| a l'] eqn:El.
  { vm_compute in H95. discriminate. }
  rewrite <- El in *. assert (Hne : l <> []) by (rewrite El; discriminate).
  destruct (percentile_95 l Hne Hlen) as (x & Hx & Ex).
  destruct (percentile_99 l Hne Hlen) as (y & Hy & Ey).
  rewrite Ex in H95. rewrite Ey in H99.
  injection H95 as <- _. injection H99 as <- _.
  refine (StronglySorted_lookup_le (sorted l) _ _ x y (sorted_sorted l) _ Hx Hy).
  pose proof (len_pos l Hne). apply Z2Nat.inj_le; Z.div_mod_to_equations; lia.
Qed.

End Percentiles.

(** C10: for a non-empty latency sequence of length [n], the indices
    [int(n * 0.95)] and [int(n * 0.99)] are below [n], so both lookups into
    the sorted sequence succeed without clamping; on the empty sequence the
    mean is undefined ([StatisticsError]) and the index 0 is out of range. *)
Theorem C10_percentile_indices_in_bounds :
  (forall latencies : list Q,
     latencies <> [] -> len latencies < 2 ^ 45 ->
     0 <= to_int (fmul (of_int (len latencies)) lit_0_95) < len latencies /\
     0 <= to_int (fmul (of_int (len latencies)) lit_0_99) < len latencies /\
     forall w, exists p95 p99,
       percentile latencies lit_0_95 w = (Ok p95, w) /\
       percentile latencies lit_0_99 w = (Ok p99, w)) /\
  (forall w, statistics_mean [] w = (Raise StatisticsError, w)) /\
  (forall w, percentile [] lit_0_95 w = (Raise IndexError, w)) /\
  (forall w, percentile [] lit_0_99 w = (Raise IndexError, w)).
Proof.
  split; [| repeat split; reflexivity].
  intros l Hne Hlen. pose proof (len_pos l Hne) as Hpos.
  destruct (percentile_index_95 (len l) ltac:(lia)) as [E95 B95].
  destruct (percentile_index_99 (len l) ltac:(lia)) as [E99 B99].
  rewrite E95, E99. repeat split; try lia.
  intros w.
  destruct (percentile_95 l Hne Hlen) as (x & _ & Ex).
  destruct (percentile_99 l Hne Hlen) as (y & _ & Ey).
  exists x, y. split; [apply Ex | apply Ey].
Qed.

Lemma C10_witness :
  [3; 1; 2]%Q <> [] /\ len [3; 1; 2]%Q < 2 ^ 45 /\
  0 <= to_int (fmul (of_int (len [3; 1; 2]%Q)) lit_0_95) < len [3; 1; 2]%Q /\
  0 <= to_int (fmul (of_int (len [3; 1; 2]%Q)) lit_0_99) < len [3; 1; 2]%Q.
Proof.
  split; [discriminate |]. split; [reflexivity |].
  destruct (proj1 C10_percentile_indices_in_bounds [3; 1; 2]%Q
              ltac:(discriminate) ltac:(reflexivity)) as (H1 & H2 & _).
  split; assumption.
Defined.

(** ** The compression size model *)

Section CompressionModel.

Lemma round53_le_const x c m k :
  (c == inject_Z m * pow2 k)%Q -> - 2 ^ 53 < m < 2 ^ 53 ->
  (x <= c)%Q -> (round53 x <= c)%Q.
Proof. intros E Hm H. rewrite E in *. apply round53_le_repr; assumption. Qed.

Lemma round53_ge_const x c m k :
  (c == inject_Z m * pow2 k)%Q -> - 2 ^ 53 < m < 2 ^ 53 ->
  (c <= x)%Q -> (c <= round53 x)%Q.
Proof. intros E Hm H. rewrite E in *. apply round53_ge_repr; assumption. Qed.

Lemma of_int_1 : (of_int 1 == 1)%Q.
Proof. vm_compute. reflexivity. Qed.

Lemma of_int_100 : (of_int 100 == 100)%Q.
Proof. vm_compute. reflexivity. Qed.

Lemma ratio_of_antitone c1 c2 s :
  0 < s -> c1 <= c2 -> (ratio_of c2 s <= ratio_of c1 s)%Q.
Proof.
  intros Hs Hc. unfold ratio_of, fmul, fsub.
  assert (Qs : (0 < inject_Z s)%Q) by exact (Q_of_Z_lt 0 s Hs).
  apply round53_mono. rewrite of_int_100.
  apply Qmult_le_r; [reflexivity |].
  apply round53_mono.
  assert (D : (round53 (inject_Z c1 / inject_Z s) <= round53 (inject_Z c2 / inject_Z s))%Q).
  { apply round53_mono. apply Qmult_le_r; [apply Qinv_lt_0_compat; exact Qs |].
    apply Q_of_Z_le, Hc. }
  lra.
Qed.

Lemma ratio_of_lower c s :
  0 < s -> (inject_Z c <= (1 # 4) * inject_Z s)%Q -> (75 <= ratio_of c s)%Q.
Proof.
  intros Hs Hc. unfold ratio_of, fmul, fsub.
  assert (Qs : (0 < inject_Z s)%Q) by exact (Q_of_Z_lt 0 s Hs).
  assert (A : (round53 (inject_Z c / inject_Z s) <= 1 # 4)%Q).
  { apply (round53_le_const _ _ 1 (-2)); [reflexivity | lia |].
    apply Qle_shift_div_r; assumption. }
  assert (B : (3 # 4 <= round53 (of_int 1 - round53 (inject_Z c / inject_Z s)))%Q).
  { apply (round53_ge_const _ _ 3 (-2)); [reflexivity | lia |]. rewrite of_int_1. lra. }
  apply (round53_ge_const _ _ 75 0); [reflexivity | lia |]. rewrite of_int_100. lra.
Qed.

Lemma ratio_of_upper c s :
  0 < s -> ((9 # 32) * inject_Z s <= inject_Z c)%Q -> (ratio_of c s <= 575 # 8)%Q.
Proof.
  intros Hs Hc. unfold ratio_of, fmul, fsub.
  assert (Qs : (0 < inject_Z s)%Q) by exact (Q_of_Z_lt 0 s Hs).
  assert (A : (9 # 32 <= round53 (inject_Z c / inject_Z s))%Q).
  { apply (round53_ge_const _ _ 9 (-5)); [reflexivity | lia |].
    apply Qle_shift_div_l; assumption. }
  assert (B : (round53 (of_int 1 - round53 (inject_Z c / inject_Z s)) <= 23 # 32)%Q).
  { apply (round53_le_const _ _ 23 (-5)); [reflexivity | lia |]. rewrite of_int_1. lra. }
  apply (round53_le_const _ _ 575 (-3)); [reflexivity | lia |]. rewrite of_int_100. lra.
Qed.

(** From 7 bytes on, the snappy estimate stays at or below 71.875 percent
    and the zstd estimate at or above 75 percent. *)
Lemma ratio_gap s :
  7 <= s -> (ratio_of (2 * s / 5) s < ratio_of (s / 4) s)%Q.
Proof.
  intros Hs.
  assert (U : (ratio_of (2 * s / 5) s <= 575 # 8)%Q).
  { apply ratio_of_upper; [lia |].
    assert (H : 9 * s <= 32 * (2 * s / 5)) by (Z.div_mod_to_equations; lia).
    apply Q_of_Z_le in H. rewrite !inject_Z_mult in H.
    change (inject_Z 9) with 9%Q in H. change (inject_Z 32) with 32%Q in H. lra. }
  assert (L : (75 <= ratio_of (s / 4) s)%Q).
  { apply ratio_of_lower; [lia |].
    assert (H : 4 * (s / 4) <= s) by (Z.div_mod_to_equations; lia).
    apply Q_of_Z_le in H. rewrite !inject_Z_mult in H.
    change (inject_Z 4) with 4%Q in H. lra. }
  lra.
Qed.

Lemma estimate_none s w :
  estimate_compression "none" s w = (Ok (s, 0%Q), w).
Proof. reflexivity. Qed.

Lemma estimate_snappy s w :
  0 < s < 2 ^ 45 ->
  estimate_compression "snappy" s w = (Ok (2 * s / 5, ratio_of (2 * s / 5) s), w).
Proof.
  intros Hs. unfold estimate_compression. cbn [String.eqb Ascii.eqb Bool.eqb].
  change (default 1%Q (compression_factors !! "snappy")) with lit_0_40.
  cbv zeta. rewrite int_mul_0_40 by lia.
  unfold bind, int_truediv, ret.
  destruct (s =? 0) eqn:E; [apply Z.eqb_eq in E; lia |]. reflexivity.
Qed.

Lemma estimate_zstd s w :
  0 < s < 2 ^ 45 ->
  estimate_compression "zstd" s w = (Ok (s / 4, ratio_of (s / 4) s), w).
Proof.
  intros Hs. unfold estimate_compression. cbn [String.eqb Ascii.eqb Bool.eqb].
  change (default 1%Q (compression_factors !! "zstd")) with lit_0_25.
  cbv zeta. rewrite int_mul_0_25 by lia.
  unfold bind, int_truediv, ret.
  destruct (s =? 0) eqn:E; [apply Z.eqb_eq in E; lia |]. reflexivity.
Qed.

Lemma estimate_lz4 s w :
  0 < s ->
  estimate_compression "lz4" s w =
  (Ok (to_int (fmul (of_int s) lit_0_35),
       ratio_of (to_int (fmul (of_int s) lit_0_35)) s), w).
Proof.
  intros Hs. unfold estimate_compression. cbn [String.eqb Ascii.eqb Bool.eqb].
  change (default 1%Q (compression_factors !! "lz4")) with lit_0_35.
  cbv zeta. unfold bind, int_truediv, ret.
  destruct (s =? 0) eqn:E; [apply Z.eqb_eq in E; lia |]. reflexivity.
Qed.

(** The lz4 estimate is the binary64 product truncated, which is not always
    the floor of the real product: 180 * 0.35 rounds to just under 63. *)
Lemma lz4_estimate_180 :
  to_int (fmul (of_int 180) lit_0_35) = 62 /\ 35 * 180 / 100 = 63.
Proof. split; vm_compute; reflexivity. Qed.

End CompressionModel.

(** ** Reasoning about the state-and-exception monad *)

Section MonadFacts.

Lemma bind_inv {A B} (m : M A) (k : A -> M B) w r w' :
  bind m k w = (r, w') ->
  (exists e, m w = (Raise e, w') /\ r = Raise e) \/
  (exists a w1, m w = (Ok a, w1) /\ k a w1 = (r, w')).
Proof.
  unfold bind. destruct (m w) as [[a | e] w1]; intros H.
  - right. exists a, w1. split; [reflexivity | exact H].
  - left. exists e. injection H as <- <-. split; reflexivity.
Qed.

Lemma bind_Ok_inv {A B} (m : M A) (k : A -> M B) w b w' :
  bind m k w = (Ok b, w') ->
  exists a w1, m w = (Ok a, w1) /\ k a w1 = (Ok b, w').
Proof.
  intros H. apply bind_inv in H as [(e & _ & E) | H]; [discriminate | exact H].
Qed.

Lemma bind_Ok_intro {A B} (m : M A) (k : A -> M B) w a w1 :
  m w = (Ok a, w1) -> bind m k w = k a w1.
Proof. intros H. unfold bind. rewrite H. reflexivity. Qed.

Lemma bind_Raise_intro {A B} (m : M A) (k : A -> M B) w e w1 :
  m w = (Raise e, w1) -> bind m k w = (Raise e, w1).
Proof. intros H. unfold bind. rewrite H. reflexivity. Qed.

(** A property of the loop variables that every iteration keeps holds
    when the loop ends normally. *)
Lemma for_fold_invariant {A S} (P : S -> Prop) (body : A -> S -> M S) l :
  (forall x st w st' w', P st -> body x st w = (Ok st', w') -> P st') ->
  forall st w st' w',
    P st -> for_fold l body st w = (Ok st', w') -> P st'.
Proof.
  intros Hbody. induction l as [| x l IH]; intros st w st' w' Hst H; simpl in H.
  - unfold ret in H. injection H as <- _. exact Hst.
  - apply bind_Ok_inv in H as (st1 & w1 & H1 & H2).
    apply (IH st1 w1 st' w'); [| exact H2]. eapply Hbody; eassumption.
Qed.

End MonadFacts.

Ltac prim_unfold H :=
  unfold print, time_sleep, producer_flush, producer_close, admin_close, emit,
    time_time, KafkaProducer, ret, raise, set_test_results, get_test_results,
    HydroKafkaTester in H.

(** Split a hypothesis [H : (m1 ;; ... ;; mk) w = (Ok r, w')] into the
    successful steps. *)
Ltac exec_ok H :=
  lazymatch type of H with
  | bind _ _ _ = (Ok _, _) =>
      let a := fresh "a" in
      let w1 := fresh "w" in
      let H1 := fresh "Hstep" in
      apply bind_Ok_inv in H as (a & w1 & H1 & H);
      cbv beta in H;
      try (progress prim_unfold H1; simplify_eq);
      exec_ok H
  | _ => try (progress prim_unfold H; simplify_eq)
  end.

Section PrimitiveFacts.

Lemma read_records_inv f w r w' :
  read_records f w = (r, w') ->
  (files w !! f = None /\ r = Raise FileNotFoundError /\ w' = w) \/
  (exists records, files w !! f = Some records /\ r = Ok records /\
                   w' = add_event (EvReadFile f) w).
Proof.
  unfold read_records. destruct (files w !! f) as [records |]; intros H.
  - right. exists records. injection H as <- <-. repeat split.
  - left. injection H as <- <-. repeat split.
Qed.

Lemma truediv_pure x y w r w' : truediv x y w = (r, w') -> w' = w.
Proof. unfold truediv. destruct (fdiv x y); intros H; injection H as _ <-; reflexivity. Qed.

Lemma int_truediv_pure a b w r w' : int_truediv a b w = (r, w') -> w' = w.
Proof.
  unfold int_truediv. destruct (b =? 0); intros H; injection H as _ <-; reflexivity.
Qed.

Lemma statistics_mean_pure l w r w' : statistics_mean l w = (r, w') -> w' = w.
Proof. destruct l; intros H; injection H as _ <-; reflexivity. Qed.

Lemma py_index_pure {A} (l : list A) i w r w' : py_index l i w = (r, w') -> w' = w.
Proof.
  unfold py_index. destruct (_ <? 0); [intros H; injection H as _ <-; reflexivity |].
  destruct (l !! _); intros H; injection H as _ <-; reflexivity.
Qed.

Lemma percentile_pure l q w r w' : percentile l q w = (r, w') -> w' = w.
Proof. apply py_index_pure. Qed.

Lemma estimate_compression_pure algo s w r w' :
  estimate_compression algo s w = (r, w') -> w' = w.
Proof.
  unfold estimate_compression. destruct (String.eqb algo "none").
  - intros H; injection H as _ <-; reflexivity.
  - intros H. apply bind_inv in H as [(e & H & _) | (a & w1 & H1 & H)].
    + eapply int_truediv_pure, H.
    + apply int_truediv_pure in H1. subst w1. injection H as _ <-. reflexivity.
Qed.

End PrimitiveFacts.

(** ** The timed send loop *)

Section TimedSends.

Lemma timed_sends_ok p topic records :
  forall latencies w lats w',
    timed_sends p topic records latencies w = (Ok lats, w') ->
    lats = latencies ++ map (latency_at (clock w) (ticks w)) (seq 0 (length records)) /\
    trace w' = trace w ++ send_and_wait p topic records /\
    clock w' = clock w /\
    ticks w' = (ticks w + 2 * length records)%nat /\
    next_producer w' = next_producer w /\
    test_results w' = test_results w.
Proof.
  induction records as [| r records IH]; intros latencies w lats w' H.
  - simpl in H. unfold ret in H. injection H as <- <-.
    simpl. rewrite !app_nil_r. repeat split; try reflexivity; lia.
  - simpl in H.
    apply bind_Ok_inv in H as (t0 & w1 & H1 & H). unfold time_time in H1. simplify_eq H1; intros <- <-.
    apply bind_Ok_inv in H as ([] & w2 & H2 & H).
    unfold producer_send in H2. destruct (send_fault _ _); [discriminate |].
    simplify_eq H2; intros <-.
    apply bind_Ok_inv in H as ([] & w3 & H3 & H).
    unfold future_get in H3. destruct (ack_fault _ _); [discriminate |].
    simplify_eq H3; intros <-.
    apply bind_Ok_inv in H as (t1 & w4 & H4 & H). unfold time_time in H4. simplify_eq H4; intros <- <-.
    apply IH in H as (E1 & E2 & E3 & E4 & E5 & E6).
    cbn [trace clock ticks next_producer test_results add_event tick count_send count_ack] in *.
    repeat split.
    + rewrite E1, <- app_assoc. f_equal. cbn [length seq map app]. f_equal.
      * unfold latency_at. do 3 f_equal; lia.
      * rewrite <- seq_shift, map_map. apply map_ext. intros i.
        unfold latency_at. do 3 f_equal; lia.
    + rewrite E2. unfold send_and_wait. cbn [flat_map]. rewrite <- !app_assoc. reflexivity.
    + exact E3.
    + rewrite E4. cbn [length]. lia.
    + exact E5.
    + exact E6.
Qed.

(** Whatever the outcome, the loop emits sends and acknowledgment waits
    only, and leaves the stored results and the session counter alone. *)
Lemma timed_sends_frame p topic records :
  forall latencies w r w',
    timed_sends p topic records latencies w = (r, w') ->
    exists events,
      trace w' = trace w ++ events /\
      Forall quiet events /\
      next_producer w' = next_producer w /\
      test_results w' = test_results w /\
      files w' = files w.
Proof.
  induction records as [| rec records IH]; intros latencies w r w' H.
  - simpl in H. unfold ret in H. injection H as <- <-.
    exists []. rewrite app_nil_r. repeat split. constructor.
  - simpl in H.
    apply bind_inv in H as [(e & H1 & _) | (t0 & w1 & H1 & H)];
      [unfold time_time in H1; discriminate |].
    unfold time_time in H1. simplify_eq H1; intros <- <-.
    apply bind_inv in H as [(e & H2 & _) | ([] & w2 & H2 & H)].
    { unfold producer_send in H2. destruct (send_fault _ _); [| discriminate].
      simplify_eq H2; intros <- <-.
      eexists [_]. cbn. repeat split. repeat constructor. }
    unfold producer_send in H2. destruct (send_fault _ _); [discriminate |].
    simplify_eq H2; intros <-.
    apply bind_inv in H as [(e & H3 & _) | ([] & w3 & H3 & H)].
    { unfold future_get in H3. destruct (ack_fault _ _); [| discriminate].
      simplify_eq H3; intros <- <-.
      eexists [_; _]. cbn. rewrite <- app_assoc. repeat split. repeat constructor. }
    unfold future_get in H3. destruct (ack_fault _ _); [discriminate |].
    simplify_eq H3; intros <-.
    apply bind_inv in H as [(e & H4 & _) | (t1 & w4 & H4 & H)];
      [unfold time_time in H4; discriminate |].
    unfold time_time in H4. simplify_eq H4; intros <- <-.
    apply IH in H as (events & E1 & E2 & E3 & E4 & E5).
    cbn [trace clock ticks next_producer test_results files add_event tick count_send count_ack] in *.
    eexists (_ :: _ :: events). rewrite E1, <- !app_assoc. cbn [app].
    repeat split; try assumption. repeat constructor. exact E2.
Qed.

End TimedSends.

(** ** The keyed send loop of the partitioning sweep *)

Section KeyedSends.

Lemma keyed_send_inv p topic r w res w' :
  keyed_send p topic r w = (res, w') ->
  (turbine_type r = None /\ (exists e, res = Raise e) /\ w' = w) \/
  (w' = add_event (EvSend p topic (turbine_type r) r) (count_send w) /\
   match send_fault w (sends w) with
   | Some e => res = Raise e
   | None => res = Ok tt
   end).
Proof.
  unfold keyed_send, record_key, turbine_type, bind, ret, raise, producer_send.
  destruct (turbine_field r) as [| | | | k];
    try (intros H; injection H as <- <-; left; repeat split; eexists; reflexivity).
  destruct (send_fault w (sends w)); intros H; injection H as <- <-;
    right; split; reflexivity.
Qed.

Lemma keyed_sends_ok p topic records :
  forall w w',
    for_each records (keyed_send p topic) w = (Ok tt, w') ->
    trace w' = trace w ++ keyed_events p topic records /\
    clock w' = clock w /\ ticks w' = ticks w /\
    next_producer w' = next_producer w /\
    test_results w' = test_results w.
Proof.
  induction records as [| r records IH]; intros w w' H; simpl in H.
  - unfold ret in H. injection H as <-. simpl. rewrite app_nil_r. repeat split.
  - apply bind_Ok_inv in H as ([] & w1 & H1 & H).
    apply keyed_send_inv in H1 as [(_ & [e ?] & _) | (-> & _)]; [discriminate |].
    apply IH in H as (E1 & E2 & E3 & E4 & E5).
    cbn [trace clock ticks next_producer test_results add_event count_send] in *.
    rewrite E1, <- app_assoc. repeat split; assumption.
Qed.

Lemma keyed_sends_frame p topic records :
  forall w r w',
    for_each records (keyed_send p topic) w = (r, w') ->
    exists events,
      trace w' = trace w ++ events /\
      Forall quiet events /\
      next_producer w' = next_producer w /\
      test_results w' = test_results w /\
      files w' = files w.
Proof.
  induction records as [| rec records IH]; intros w r w' H; simpl in H.
  - unfold ret in H. injection H as <- <-. exists []. rewrite app_nil_r.
    repeat split. constructor.
  - apply bind_inv in H as [(e & H1 & _) | ([] & w1 & H1 & H)].
    + apply keyed_send_inv in H1 as [(_ & _ & ->) | (-> & _)].
      * exists []. rewrite app_nil_r. repeat split. constructor.
      * eexists [_]. cbn. repeat split. repeat constructor.
    + apply keyed_send_inv in H1 as [(_ & [e ?] & _) | (-> & _)]; [discriminate |].
      apply IH in H as (events & E1 & E2 & E3 & E4 & E5).
      cbn [trace next_producer test_results files add_event count_send] in *.
      eexists (_ :: events). rewrite E1, <- app_assoc. cbn [app].
      repeat split; try assumption. repeat constructor. exact E2.
Qed.

End KeyedSends.

(** Split a hypothesis [H : (m1 ;; ... ;; mk) w = (r, w')] into one case
    for every step that can raise and one for the normal end. *)
Ltac exec_any H :=
  cbv beta iota in H;
  lazymatch type of H with
  | bind _ _ _ = (_, _) =>
      let a := fresh "a" in
      let w1 := fresh "w" in
      let e := fresh "e" in
      let H1 := fresh "Hstep" in
      let E := fresh "E" in
      apply bind_inv in H as [(e & H1 & E) | (a & w1 & H1 & H)];
      [ exec_any H1; simplify_eq
      | exec_any H1; exec_any H ]
  | _ => try (progress prim_unfold H; simplify_eq)
  end.

Ltac world_simpl :=
  cbn [trace clock ticks next_producer test_results files topics sends acks
       admin_calls admin_fault admin_connect_fault send_fault ack_fault
       add_event tick fresh_producer count_send count_ack count_admin_call
       add_topic store_results clear_results] in *.

(** Resolve the steps that are left after [exec_any]. *)
Ltac resolve_steps :=
  repeat match goal with
  | H : read_records _ _ = _ |- _ =>
      apply read_records_inv in H as [(? & ? & ?) | (? & ? & ? & ?)]; simplify_eq
  | H : timed_sends _ _ _ _ _ = _ |- _ =>
      apply timed_sends_frame in H as (? & ? & ? & ? & ? & ?)
  | H : for_each _ (keyed_send _ _) _ = _ |- _ =>
      apply keyed_sends_frame in H as (? & ? & ? & ? & ? & ?)
  | H : truediv _ _ _ = _ |- _ => apply truediv_pure in H; subst
  | H : int_truediv _ _ _ = _ |- _ => apply int_truediv_pure in H; subst
  | H : statistics_mean _ _ = _ |- _ => apply statistics_mean_pure in H; subst
  | H : percentile _ _ _ = _ |- _ => apply percentile_pure in H; subst
  | H : estimate_compression _ _ _ = _ |- _ =>
      apply estimate_compression_pure in H; subst
  end.

Ltac rewrite_frames :=
  repeat match goal with
  | H : trace _ = _ |- _ => rewrite H; clear H
  | H : next_producer _ = _ |- _ => rewrite H; clear H
  | H : test_results _ = _ |- _ => rewrite H; clear H
  | H : files _ = _ |- _ => rewrite H; clear H
  end;
  rewrite <- ?app_assoc; cbn [app].

Ltac solve_Forall :=
  repeat first
    [ assumption
    | apply Forall_nil_2
    | apply Forall_cons_2
    | apply Forall_app_2
    | split; reflexivity ].

(** ** One run of each sweep *)

Section Runs.

Lemma truediv_Ok_inv x y w q w' :
  truediv x y w = (Ok q, w') -> fdiv x y = Some q /\ w' = w.
Proof.
  unfold truediv. destruct (fdiv x y); [| discriminate].
  intros H. injection H as <- <-. split; reflexivity.
Qed.

Lemma percentile_Ok_inv l q w x w' :
  percentile l q w = (Ok x, w') ->
  w' = w /\ forall w0, percentile l q w0 = (Ok x, w0).
Proof.
  unfold percentile, py_index. destruct (_ <? 0); [discriminate |].
  destruct (_ !! _); [| discriminate].
  intros H. injection H as <- <-. split; reflexivity.
Qed.

Lemma statistics_mean_Ok_inv l w a w' :
  statistics_mean l w = (Ok a, w') ->
  l <> [] /\ a = round53 (Qsum l / inject_Z (len l)) /\ w' = w.
Proof.
  destruct l; [discriminate |]. intros H. injection H as <- <-.
  repeat split. discriminate.
Qed.

Lemma batch_linger_run_ok f bs lm results w results' w' :
  batch_linger_run f (bs, lm) results w = (Ok results', w') ->
  exists records throughput avg p95 p99,
    let p := next_producer w in
    let sample := take 1000 records in
    let latencies := map (latency_at (clock w) (S (ticks w))) (seq 0 (length sample)) in
    let duration := fsub (clock w (S (ticks w) + 2 * length sample)%nat)
                         (clock w (ticks w)) in
    let result := batch_linger_result bs lm throughput avg p95 p99 duration in
    files w !! f = Some records /\
    fdiv (of_int (len sample)) duration = Some throughput /\
    latencies <> [] /\
    avg = round53 (Qsum latencies / inject_Z (len latencies)) /\
    (forall w0, percentile latencies lit_0_95 w0 = (Ok p95, w0)) /\
    (forall w0, percentile latencies lit_0_99 w0 = (Ok p99, w0)) /\
    results' = results ++ [result] /\
    trace w' = trace w ++
      [EvPrint (MsgTesting ("batch.size=" +:+ pretty bs +:+ "B, linger.ms="
                            +:+ pretty lm +:+ "ms"));
       EvOpen p {| cfg_batch_size := bs; cfg_linger_ms := lm;
                   cfg_compression_type := Some "lz4" |};
       EvReadFile f] ++
      send_and_wait p "hydro-batch-test" sample ++
      [EvFlush p; EvPrint (MsgMetrics result); EvClose p; EvSleep 2] /\
    next_producer w' = S p /\
    test_results w' = test_results w.
Proof.
  intros H. unfold batch_linger_run in H.
  exec_ok H.
  apply read_records_inv in Hstep as [(_ & ? & _) | (records & Hf & ? & ->)];
    [discriminate |]. simplify_eq.
  apply timed_sends_ok in Hstep0 as (-> & Et & Ec & Ek & Ep & Er).
  apply truediv_Ok_inv in Hstep1 as [Hthr ->].
  apply statistics_mean_Ok_inv in Hstep2 as (Hne & -> & ->).
  apply percentile_Ok_inv in Hstep3 as [-> H95].
  apply percentile_Ok_inv in Hstep4 as [-> H99].
  cbn [trace clock ticks next_producer test_results files
       add_event tick fresh_producer] in *.
  rewrite Ec, Ek in *. cbn [app] in *.
  eexists records, a1, _, a3, a4. cbv zeta.
  repeat split; try eassumption; try reflexivity.
  rewrite Et. rewrite <- !app_assoc. reflexivity.
Qed.

Lemma batch_linger_run_raise f bs lm results w e w' :
  batch_linger_run f (bs, lm) results w = (Raise e, w') ->
  exists msg cfg events,
    trace w' = trace w ++ EvPrint msg :: EvOpen (next_producer w) cfg :: events /\
    Forall quiet events /\
    next_producer w' = S (next_producer w) /\
    test_results w' = test_results w.
Proof.
  intros H. unfold batch_linger_run in H.
  exec_any H; resolve_steps; world_simpl; rewrite_frames;
    (do 3 eexists; split; [reflexivity |]; split; [solve_Forall |];
     split; reflexivity).
Qed.

Lemma estimate_compression_Ok_inv algo s w est w' :
  estimate_compression algo s w = (Ok est, w') ->
  w' = w /\ forall w0, estimate_compression algo s w0 = (Ok est, w0).
Proof.
  unfold estimate_compression, bind, int_truediv, ret, raise.
  destruct (String.eqb algo "none").
  - intros H. injection H as <- <-. split; reflexivity.
  - destruct (s =? 0); [discriminate |].
    intros H. injection H as <- <-. split; reflexivity.
Qed.

Lemma compression_run_ok records original_size algo results w results' w' :
  compression_run records original_size algo results w = (Ok results', w') ->
  exists throughput avg estimate,
    let p := next_producer w in
    let latencies := map (latency_at (clock w) (S (ticks w))) (seq 0 (length records)) in
    let duration := fsub (clock w (S (ticks w) + 2 * length records)%nat)
                         (clock w (ticks w)) in
    let result := compression_result algo throughput avg original_size
                    estimate.1 estimate.2 in
    fdiv (of_int (len records)) duration = Some throughput /\
    latencies <> [] /\
    avg = round53 (Qsum latencies / inject_Z (len latencies)) /\
    (forall w0, estimate_compression algo original_size w0 = (Ok estimate, w0)) /\
    results' = results ++ [result] /\
    trace w' = trace w ++
      [EvPrint (MsgTesting ("compression=" +:+ algo));
       EvOpen p {| cfg_batch_size := 262144; cfg_linger_ms := 50;
                   cfg_compression_type :=
                     if String.eqb algo "none" then None else Some algo |}] ++
      send_and_wait p ("hydro-comp-" +:+ algo) records ++
      [EvFlush p; EvPrint (MsgMetrics result); EvClose p; EvSleep 2] /\
    next_producer w' = S p /\
    test_results w' = test_results w.
Proof.
  intros H. unfold compression_run in H.
  exec_ok H.
  apply timed_sends_ok in Hstep as (-> & Et & Ec & Ek & Ep & Er).
  apply truediv_Ok_inv in Hstep0 as [Hthr ->].
  apply statistics_mean_Ok_inv in Hstep1 as (Hne & -> & ->).
  apply estimate_compression_Ok_inv in Hstep2 as [-> Hest].
  world_simpl. rewrite Ec, Ek in *. cbn [app] in *.
  eexists a0, _, a2. cbv zeta.
  repeat split; try eassumption; try reflexivity.
  rewrite Et. rewrite <- !app_assoc. reflexivity.
Qed.

Lemma compression_run_raise records original_size algo results w e w' :
  compression_run records original_size algo results w = (Raise e, w') ->
  exists msg cfg events,
    trace w' = trace w ++ EvPrint msg :: EvOpen (next_producer w) cfg :: events /\
    Forall quiet events /\
    next_producer w' = S (next_producer w) /\
    test_results w' = test_results w.
Proof.
  intros H. unfold compression_run in H.
  exec_any H; resolve_steps; world_simpl; rewrite_frames;
    (do 3 eexists; split; [reflexivity |]; split; [solve_Forall |];
     split; reflexivity).
Qed.

Lemma partitioning_run_ok records n baseline results w baseline' results' w' :
  partitioning_run records n (baseline, results) w = (Ok (baseline', results'), w') ->
  exists throughput scaling_factor,
    let p := next_producer w in
    let duration := fsub (clock w (S (ticks w))) (clock w (ticks w)) in
    let result := partitioning_result n throughput duration scaling_factor in
    fdiv (of_int (len records)) duration = Some throughput /\
    match baseline with
    | None => scaling_factor = 1%Q /\ baseline' = Some throughput
    | Some b => fdiv throughput b = Some scaling_factor /\ baseline' = Some b
    end /\
    results' = results ++ [result] /\
    trace w' = trace w ++
      [EvPrint (MsgTesting ("partitions=" +:+ pretty n));
       EvOpen p {| cfg_batch_size := 262144; cfg_linger_ms := 50;
                   cfg_compression_type := Some "lz4" |}] ++
      keyed_events p ("hydro-part-" +:+ pretty n) records ++
      [EvFlush p; EvPrint (MsgMetrics result); EvClose p; EvSleep 2] /\
    next_producer w' = S p /\
    test_results w' = test_results w.
Proof.
  intros H. unfold partitioning_run in H.
  exec_ok H. destruct a.
  apply keyed_sends_ok in Hstep as (Et & Ec & Ek & Ep & Er).
  apply truediv_Ok_inv in Hstep0 as [Hthr ->].
  world_simpl. rewrite Ec, Ek in *.
  destruct baseline as [b |].
  - apply bind_Ok_inv in Hstep1 as (sf & w3 & Hsf & Hret).
    apply truediv_Ok_inv in Hsf as [Hsf ->]. simplify_eq.
    world_simpl. exists a0, sf. cbv zeta.
    repeat split; try eassumption; try reflexivity.
    rewrite Et. rewrite <- !app_assoc. reflexivity.
  - simplify_eq. world_simpl. exists a0, 1%Q. cbv zeta.
    repeat split; try eassumption; try reflexivity.
    rewrite Et. rewrite <- !app_assoc. reflexivity.
Qed.

Lemma partitioning_run_raise records n locals w e w' :
  partitioning_run records n locals w = (Raise e, w') ->
  exists msg cfg events,
    trace w' = trace w ++ EvPrint msg :: EvOpen (next_producer w) cfg :: events /\
    Forall quiet events /\
    next_producer w' = S (next_producer w) /\
    test_results w' = test_results w.
Proof.
  intros H. unfold partitioning_run in H.
  destruct locals as [[baseline |] results];
    exec_any H; resolve_steps; world_simpl; rewrite_frames;
    (do 3 eexists; split; [reflexivity |]; split; [solve_Forall |];
     split; reflexivity).
Qed.

End Runs.

(** ** Producer sessions *)

Section Sessions.




End Sessions.



(** ** Topic provisioning *)

Section Provisioning.

Lemma create_topic_eq t w :
  create_topic t w =
  match admin_fault w (admin_calls w) with
  | Some e =>
      if decide (e = TopicAlreadyExistsError)
      then (Ok tt, add_event (EvPrint (MsgTopicExists (topic_name t))) (attempted t w))
      else (Raise e, attempted t w)
  | None =>
      if decide (topic_name t ∈ topics w)
      then (Ok tt, add_event (EvPrint (MsgTopicExists (topic_name t))) (attempted t w))
      else (Ok tt, add_event (EvPrint (MsgTopicCreated (topic_name t)))
                     (add_topic (topic_name t) (attempted t w)))
  end.
Proof.
  unfold create_topic, try_except, bind, admin_create_topics, print, emit, attempted.
  destruct (admin_fault w (admin_calls w)) as [e |].
  - cbn [find_clause]. unfold is_TopicAlreadyExistsError.
    destruct (decide (e = TopicAlreadyExistsError)) as [-> | NE].
    + reflexivity.
    + rewrite bool_decide_eq_false_2 by exact NE. reflexivity.
  - destruct (decide (topic_name t ∈ topics w)); reflexivity.
Qed.

Lemma opens_no_session_refl w : opens_no_session w w.
Proof.
  repeat split. exists []. rewrite app_nil_r. split; [reflexivity | constructor].
Qed.

Lemma opens_no_session_trans w1 w2 w3 :
  opens_no_session w1 w2 -> opens_no_session w2 w3 -> opens_no_session w1 w3.
Proof.
  intros (F1 & R1 & P1 & A1 & C1 & ev1 & T1 & Q1) (F2 & R2 & P2 & A2 & C2 & ev2 & T2 & Q2).
  repeat split; try congruence.
  exists (ev1 ++ ev2). rewrite T2, T1, app_assoc. split; [reflexivity |].
  apply Forall_app_2; assumption.
Qed.

Lemma opens_no_session_event ev w :
  is_open ev = false -> opens_no_session w (add_event ev w).
Proof.
  intros H. repeat split. exists [ev]. split; [reflexivity |].
  constructor; [exact H | constructor].
Qed.

Lemma create_topic_frame t w r w' :
  create_topic t w = (r, w') -> opens_no_session w w'.
Proof.
  rewrite create_topic_eq.
  destruct (admin_fault w (admin_calls w)) as [e |];
    [destruct (decide (e = TopicAlreadyExistsError))
    | destruct (decide (topic_name t ∈ topics w))];
    intros H; injection H as <- <-; repeat split;
    eexists; (split; [cbn; rewrite <- ?app_assoc; reflexivity |]);
    repeat constructor.
Qed.

Lemma create_loop_frame l :
  forall w r w', for_each l create_topic w = (r, w') -> opens_no_session w w'.
Proof.
  induction l as [| t l IH]; intros w r w' H; simpl in H.
  - unfold ret in H. injection H as <- <-. apply opens_no_session_refl.
  - apply bind_inv in H as [(e & H1 & _) | ([] & w1 & H1 & H)].
    + eapply create_topic_frame, H1.
    + eapply opens_no_session_trans; [eapply create_topic_frame, H1 | eapply IH, H].
Qed.

Lemma create_topics_of_frame l w r w' :
  create_topics_of l w = (r, w') -> opens_no_session w w'.
Proof.
  unfold create_topics_of, KafkaAdminClient, admin_close, emit. intros H.
  apply bind_inv in H as [(e & H1 & _) | ([] & w1 & H1 & H)].
  - destruct (admin_connect_fault w); [| discriminate].
    injection H1 as _ <-. apply opens_no_session_refl.
  - destruct (admin_connect_fault w); [discriminate |]. injection H1 as <-.
    eapply opens_no_session_trans;
      [apply (opens_no_session_event EvAdminOpen); reflexivity |].
    apply bind_inv in H as [(e & H2 & _) | ([] & w2 & H2 & H)].
    + eapply create_loop_frame, H2.
    + eapply opens_no_session_trans; [eapply create_loop_frame, H2 |].
      injection H as _ <-. apply (opens_no_session_event EvAdminClose). reflexivity.
Qed.

(** Without faults from the broker, every topic of the list ends up
    existing, whether it was there before or not. *)
Lemma create_loop_ok l :
  forall w,
    (forall n, admin_fault w n = None) ->
    exists w',
      for_each l create_topic w = (Ok tt, w') /\
      topics w ⊆ topics w' /\
      (forall t, t ∈ l -> topic_name t ∈ topics w').
Proof.
  induction l as [| t l IH]; intros w Hf; simpl.
  - exists w. unfold ret. split; [reflexivity |]. split; [reflexivity |].
    intros t Ht. inversion Ht.
  - unfold bind. rewrite create_topic_eq, Hf.
    destruct (decide (topic_name t ∈ topics w)) as [Hin | Hnin].
    + destruct (IH (add_event (EvPrint (MsgTopicExists (topic_name t))) (attempted t w)))
        as (w' & E & Hsub & Hall); [exact Hf |].
      exists w'. split; [exact E |]. cbn in Hsub. split; [exact Hsub |].
      intros t' Ht'. apply elem_of_cons in Ht' as [-> | Ht']; [| apply Hall, Ht'].
      apply Hsub, Hin.
    + destruct (IH (add_event (EvPrint (MsgTopicCreated (topic_name t)))
                      (add_topic (topic_name t) (attempted t w))))
        as (w' & E & Hsub & Hall); [exact Hf |].
      exists w'. split; [exact E |]. cbn in Hsub. split; [set_solver |].
      intros t' Ht'. apply elem_of_cons in Ht' as [-> | Ht']; [| apply Hall, Ht'].
      set_solver.
Qed.

(** When every topic exists already, each attempt is refused by the
    broker, caught and logged; nothing is created. *)
Lemma create_loop_existing l :
  forall w,
    (forall n, admin_fault w n = None) ->
    (forall t, t ∈ l -> topic_name t ∈ topics w) ->
    exists w',
      for_each l create_topic w = (Ok tt, w') /\
      topics w' = topics w /\
      trace w' = trace w ++ already_exists_log l.
Proof.
  induction l as [| t l IH]; intros w Hf Hall; simpl.
  - exists w. unfold ret. rewrite app_nil_r. repeat split.
  - unfold bind. rewrite create_topic_eq, Hf.
    rewrite decide_True by (apply Hall; left).
    destruct (IH (add_event (EvPrint (MsgTopicExists (topic_name t))) (attempted t w)))
      as (w' & E & Ht & Etr).
    + exact Hf.
    + intros t' Ht'. cbn. apply Hall. right. exact Ht'.
    + exists w'. split; [exact E |]. cbn in Ht, Etr. split; [exact Ht |].
      rewrite Etr. unfold already_exists_log. cbn [flat_map app].
      rewrite <- !app_assoc. reflexivity.
Qed.

(** The first fault that is not [TopicAlreadyExistsError] ends the loop. *)
Lemma create_loop_fault l :
  forall w i e,
    (i < length l)%nat ->
    (forall j, (j < i)%nat -> admin_fault w (admin_calls w + j)%nat = None) ->
    admin_fault w (admin_calls w + i)%nat = Some e ->
    e <> TopicAlreadyExistsError ->
    exists w', for_each l create_topic w = (Raise e, w').
Proof.
  induction l as [| t l IH]; intros w i e Hi Hbefore Hat Hne; simpl in Hi; [lia |].
  simpl. unfold bind. rewrite create_topic_eq.
  destruct i as [| i].
  - rewrite Nat.add_0_r in Hat. rewrite Hat.
    rewrite decide_False by exact Hne. eexists. reflexivity.
  - rewrite <- (Nat.add_0_r (admin_calls w)), (Hbefore 0%nat) by lia.
    destruct (decide (topic_name t ∈ topics w));
      (eapply (IH _ i e); [lia | | | exact Hne]; cbn;
       [intros j Hj; rewrite <- Nat.add_succ_r; apply Hbefore; lia
       | rewrite <- Nat.add_succ_r; exact Hat]).
Qed.

End Provisioning.

Section ProvisioningCalls.

Lemma create_topics_of_ok l w :
  admin_connect_fault w = None -> (forall n, admin_fault w n = None) ->
  exists w',
    create_topics_of l w = (Ok tt, w') /\
    (forall t, t ∈ l -> topic_name t ∈ topics w').
Proof.
  intros Hc Hf. unfold create_topics_of, bind, KafkaAdminClient. rewrite Hc.
  destruct (create_loop_ok l (add_event EvAdminOpen w) Hf) as (w1 & E & _ & Hall).
  rewrite E. eexists. split; [reflexivity | exact Hall].
Qed.

Lemma create_topics_of_existing l w :
  admin_connect_fault w = None -> (forall n, admin_fault w n = None) ->
  (forall t, t ∈ l -> topic_name t ∈ topics w) ->
  exists w',
    create_topics_of l w = (Ok tt, w') /\
    topics w' = topics w /\
    trace w' = trace w ++ EvAdminOpen :: already_exists_log l ++ [EvAdminClose].
Proof.
  intros Hc Hf Hall. unfold create_topics_of, bind, KafkaAdminClient. rewrite Hc.
  destruct (create_loop_existing l (add_event EvAdminOpen w) Hf Hall)
    as (w1 & E & Ht & Etr).
  rewrite E. eexists. split; [reflexivity |]. cbn. rewrite Ht, Etr. cbn.
  rewrite <- !app_assoc. split; reflexivity.
Qed.

Lemma startup_eq w :
  startup w =
  match create_topics (before_provisioning w) with
  | (Ok _, w') => (Ok tt, add_event (EvSleep 3) w')
  | (Raise e, w') => (Raise e, w')
  end.
Proof. reflexivity. Qed.

Lemma main_startup_raise w e w' :
  startup w = (Raise e, w') -> main w = (Raise e, w').
Proof. intros H. unfold main. apply bind_Raise_intro, H. Qed.

Lemma startup_frame w r w' :
  startup w = (r, w') ->
  files w' = files w /\
  exists events, trace w' = trace w ++ events /\
                 Forall (fun ev => is_open ev = false) events.
Proof.
  rewrite startup_eq.
  destruct (create_topics (before_provisioning w)) as [[[] | e] w1] eqn:E;
    intros H; injection H as <- <-;
    apply create_topics_of_frame in E as (F & _ & _ & _ & _ & events & T & Q);
    cbn in F, T |- *; (split; [exact F |]).
  - eexists. rewrite T, <- !app_assoc. cbn [app]. split; [reflexivity |].
    repeat (constructor; [reflexivity |]).
    apply Forall_app_2; [exact Q | repeat constructor].
  - eexists. rewrite T, <- !app_assoc. cbn [app]. split; [reflexivity |].
    repeat (constructor; [reflexivity |]). exact Q.
Qed.

End ProvisioningCalls.

(** C6: an attempt to create a topic that exists is caught and logged, so
    provisioning twice in a row raises nothing the second time; an
    administrative error of any other kind is not caught: it leaves
    [create_topics] and [main] before any producer session is opened. *)
Theorem C6_provisioning_idempotent_others_fatal :
  (forall t w,
     admin_fault w (admin_calls w) = None -> topic_name t ∈ topics w ->
     create_topic t w =
       (Ok tt, add_event (EvPrint (MsgTopicExists (topic_name t))) (attempted t w))) /\
  (forall w,
     admin_connect_fault w = None -> (forall n, admin_fault w n = None) ->
     exists w1 w2,
       create_topics w = (Ok tt, w1) /\
       create_topics w1 = (Ok tt, w2) /\
       topics w2 = topics w1 /\
       trace w2 = trace w1 ++
                  EvAdminOpen :: already_exists_log new_topics ++ [EvAdminClose]) /\
  (forall w i e,
     (i < length new_topics)%nat ->
     admin_connect_fault w = None ->
     (forall j, (j < i)%nat -> admin_fault w (admin_calls w + j)%nat = None) ->
     admin_fault w (admin_calls w + i)%nat = Some e ->
     e <> TopicAlreadyExistsError ->
     exists w' events,
       create_topics (before_provisioning w) = (Raise e, w') /\
       main w = (Raise e, w') /\
       trace w' = trace w ++ events /\
       Forall (fun ev => is_open ev = false) events /\
       exit_status (main w).1 <> 0) /\
  (forall w e,
     admin_connect_fault w = Some e ->
     main w = (Raise e, before_provisioning w)).
Proof.
  split; [| split; [| split]].
  - intros t w Hf Hin. rewrite create_topic_eq, Hf, decide_True by exact Hin.
    reflexivity.
  - intros w Hc Hf.
    destruct (create_topics_of_ok new_topics w Hc Hf) as (w1 & E1 & Hall).
    pose proof (create_topics_of_frame _ _ _ _ E1) as (_ & _ & _ & Ef & Ec & _).
    destruct (create_topics_of_existing new_topics w1) as (w2 & E2 & Ht & Etr).
    + congruence.
    + intros n. rewrite Ef. apply Hf.
    + exact Hall.
    + exists w1, w2. repeat split; assumption.
  - intros w i e Hi Hc Hbefore Hat Hne.
    destruct (create_loop_fault new_topics
                (add_event EvAdminOpen (before_provisioning w)) i e Hi Hbefore Hat Hne)
      as (w' & E).
    assert (Ect : create_topics (before_provisioning w) = (Raise e, w')).
    { unfold create_topics, create_topics_of, bind, KafkaAdminClient.
      cbn [admin_connect_fault before_provisioning add_event clear_results].
      rewrite Hc, E. reflexivity. }
    assert (Es : startup w = (Raise e, w')) by (rewrite startup_eq, Ect; reflexivity).
    pose proof (startup_frame _ _ _ Es) as (_ & events & Etr & Hq).
    exists w', events. rewrite (main_startup_raise _ _ _ Es). cbn [fst].
    repeat split; try assumption. destruct e; discriminate.
  - intros w e Hc. apply main_startup_raise. rewrite startup_eq.
    unfold create_topics, create_topics_of, bind, KafkaAdminClient.
    cbn [admin_connect_fault before_provisioning add_event clear_results].
    rewrite Hc. reflexivity.
Qed.

Lemma C6_witness :
  (admin_connect_fault Scenario.healthy = None /\
   (forall n, admin_fault Scenario.healthy n = None) /\
   exists w1 w2,
     create_topics Scenario.healthy = (Ok tt, w1) /\
     create_topics w1 = (Ok tt, w2) /\
     topics w2 = topics w1) /\
  ((3 < length new_topics)%nat /\
   admin_fault Scenario.broker_breaks_down 3%nat = Some NoBrokersAvailable /\
   NoBrokersAvailable <> TopicAlreadyExistsError /\
   exists w', main Scenario.broker_breaks_down = (Raise NoBrokersAvailable, w')).
Proof.
  split.
  - split; [reflexivity |]. split; [intros n; reflexivity |].
    destruct (proj1 (proj2 C6_provisioning_idempotent_others_fatal) Scenario.healthy
                eq_refl (fun n => eq_refl)) as (w1 & w2 & E1 & E2 & Ht & _).
    exists w1, w2. repeat split; assumption.
  - split; [cbn; lia |]. split; [reflexivity |]. split; [discriminate |].
    destruct (proj1 (proj2 (proj2 C6_provisioning_idempotent_others_fatal))
                Scenario.broker_breaks_down 3%nat NoBrokersAvailable)
      as (w' & events & _ & E & _).
    + cbn; lia.
    + reflexivity.
    + intros j Hj. destruct j as [| [| [| j]]]; [reflexivity .. | lia].
    + reflexivity.
    + discriminate.
    + exists w'. exact E.
Defined.

(** ** Whole sweeps *)

Section Sweeps.



(** A relation between worlds that every iteration respects holds across
    the loop, however it ends. *)
Lemma for_fold_keeps {A S} (R : World -> World -> Prop) (run : A -> S -> M S) l :
  (forall w, R w w) ->
  (forall w1 w2 w3, R w1 w2 -> R w2 w3 -> R w1 w3) ->
  (forall x st w r w', run x st w = (r, w') -> R w w') ->
  forall st w r w', for_fold l run st w = (r, w') -> R w w'.
Proof.
  intros Hrefl Htrans Hrun. induction l as [| x l IH]; intros st w r w' H; simpl in H.
  - unfold ret in H. injection H as _ <-. apply Hrefl.
  - apply bind_inv in H as [(e & H1 & _) | (st' & w1 & H1 & H)].
    + eapply Hrun, H1.
    + eapply Htrans; [eapply Hrun, H1 | eapply IH, H].
Qed.


Lemma batch_linger_run_keeps f cfg rs w r w' :
  batch_linger_run f cfg rs w = (r, w') -> same_results w w'.
Proof.
  destruct cfg as [bs lm]. destruct r as [rs' | e]; intros H.
  - apply batch_linger_run_ok in H. destruct H as (? & ? & ? & ? & ? & H).
    cbv zeta in H. apply H.
  - apply batch_linger_run_raise in H as (? & ? & ? & _ & _ & _ & H). exact H.
Qed.

Lemma compression_run_keeps records s algo rs w r w' :
  compression_run records s algo rs w = (r, w') -> same_results w w'.
Proof.
  destruct r as [rs' | e]; intros H.
  - apply compression_run_ok in H. destruct H as (? & ? & ? & H).
    cbv zeta in H. apply H.
  - apply compression_run_raise in H as (? & ? & ? & _ & _ & _ & H). exact H.
Qed.

Lemma partitioning_run_keeps records n locals w r w' :
  partitioning_run records n locals w = (r, w') -> same_results w w'.
Proof.
  destruct r as [[b' rs'] | e]; intros H.
  - destruct locals as [b rs].
    apply partitioning_run_ok in H. destruct H as (? & ? & H).
    cbv zeta in H. apply H.
  - apply partitioning_run_raise in H as (? & ? & ? & _ & _ & _ & H). exact H.
Qed.

Lemma same_results_trans w1 w2 w3 :
  same_results w1 w2 -> same_results w2 w3 -> same_results w1 w3.
Proof. unfold same_results. congruence. Qed.

(** A sweep method stores its results when it ends normally and stores
    nothing when it raises. *)
Lemma test_batch_linger_stores f w :
  match test_batch_linger f w with
  | (Ok results, w') =>
      test_results w' = <[ "batch_linger" := results ]> (test_results w)
  | (Raise _, w') => test_results w' = test_results w
  end.
Proof.
  destruct (test_batch_linger f w) as [[results | e] w'] eqn:E;
    unfold test_batch_linger in E; exec_any E.
  - apply (for_fold_keeps same_results) in Hstep;
      [| reflexivity | apply same_results_trans | apply batch_linger_run_keeps].
    world_simpl. unfold same_results in Hstep. world_simpl. rewrite Hstep. reflexivity.
  - apply (for_fold_keeps same_results) in Hstep;
      [| reflexivity | apply same_results_trans | apply batch_linger_run_keeps].
    exact Hstep.
Qed.

Lemma test_compression_stores f w :
  match test_compression f w with
  | (Ok results, w') =>
      test_results w' = <[ "compression" := results ]> (test_results w)
  | (Raise _, w') => test_results w' = test_results w
  end.
Proof.
  destruct (test_compression f w) as [[results | e] w'] eqn:E;
    unfold test_compression in E; exec_any E.
  - apply read_records_inv in Hstep as [(_ & ? & _) | (recs & _ & ? & ->)];
      simplify_eq.
    apply (for_fold_keeps same_results) in Hstep0;
      [| reflexivity | apply same_results_trans | apply compression_run_keeps].
    unfold same_results in Hstep0. world_simpl. rewrite Hstep0. reflexivity.
  - apply read_records_inv in Hstep as [(_ & _ & ->) | (recs & _ & ? & _)];
      simplify_eq. reflexivity.
  - apply read_records_inv in Hstep as [(_ & ? & _) | (recs & _ & ? & ->)];
      simplify_eq.
    apply (for_fold_keeps same_results) in Hstep0;
      [| reflexivity | apply same_results_trans | apply compression_run_keeps].
    exact Hstep0.
Qed.

Lemma test_partitioning_stores f w :
  match test_partitioning f w with
  | (Ok results, w') =>
      test_results w' = <[ "partitioning" := results ]> (test_results w)
  | (Raise _, w') => test_results w' = test_results w
  end.
Proof.
  destruct (test_partitioning f w) as [[results | e] w'] eqn:E;
    unfold test_partitioning in E; exec_any E.
  - apply read_records_inv in Hstep as [(_ & ? & _) | (recs & _ & ? & ->)];
      simplify_eq.
    apply (for_fold_keeps same_results) in Hstep0;
      [| reflexivity | apply same_results_trans | apply partitioning_run_keeps].
    unfold same_results in Hstep0. world_simpl. rewrite Hstep0. reflexivity.
  - apply read_records_inv in Hstep as [(_ & _ & ->) | (recs & _ & ? & _)];
      simplify_eq. reflexivity.
  - apply read_records_inv in Hstep as [(_ & ? & _) | (recs & _ & ? & ->)];
      simplify_eq.
    apply (for_fold_keeps same_results) in Hstep0;
      [| reflexivity | apply same_results_trans | apply partitioning_run_keeps].
    exact Hstep0.
Qed.

End Sweeps.

(** ** The top level *)

Section TopLevel.

Lemma main_eq w :
  main w =
  match startup w with
  | (Ok _, w1) => try_except run_tests main_handlers w1
  | (Raise e, w') => (Raise e, w')
  end.
Proof. reflexivity. Qed.

Lemma try_main_handlers w :
  try_except run_tests main_handlers w =
  match run_tests w with
  | (Ok a, w') => (Ok a, w')
  | (Raise e, w') =>
      if is_FileNotFoundError e then (Ok tt, add_event (EvPrint MsgRunGenerator) w')
      else if is_Exception e then (Ok tt, add_event (EvPrint (MsgError e)) w')
      else (Raise e, w')
  end.
Proof.
  unfold try_except. destruct (run_tests w) as [[[] | e] w']; [reflexivity |].
  cbn [find_clause main_handlers].
  destruct (is_FileNotFoundError e); [reflexivity |].
  destruct (is_Exception e); reflexivity.
Qed.

(** The first sweep that raises ends [run_tests]: the later sweeps and the
    report are skipped. *)
Lemma run_tests_first_failure w :
  match test_batch_linger data_file w with
  | (Raise e, w') => run_tests w = (Raise e, w')
  | (Ok _, w1) =>
      match test_compression data_file w1 with
      | (Raise e, w') => run_tests w = (Raise e, w')
      | (Ok _, w2) =>
          match test_partitioning data_file w2 with
          | (Raise e, w') => run_tests w = (Raise e, w')
          | (Ok _, w3) => run_tests w = (generate_report ;;; print MsgSuccess)%py w3
          end
      end
  end.
Proof.
  unfold run_tests, bind.
  destruct (test_batch_linger data_file w) as [[r1 | e] w1]; [| reflexivity].
  destruct (test_compression data_file w1) as [[r2 | e] w2]; [| reflexivity].
  destruct (test_partitioning data_file w2) as [[r3 | e] w3]; reflexivity.
Qed.

Lemma missing_file_raises w :
  files w !! data_file = None ->
  exists w', run_tests w = (Raise FileNotFoundError, w') /\
             files w' = files w.
Proof.
  intros H. eexists.
  unfold run_tests, test_batch_linger, bind, print, emit.
  cbn [for_fold batch_linger_configs]. unfold bind, batch_linger_run, bind.
  unfold print, emit, KafkaProducer, read_records.
  cbn [files add_event fresh_producer]. rewrite H. split; reflexivity.
Qed.

End TopLevel.




(** C9, as the code has it: a missing workload file makes [main] print the
    instruction to run the data generator and end normally; any other
    [Exception] raised in the [try] block is printed with its message and
    [main] also ends normally, so the process exits with status 0.  Only an
    error raised before the [try] block (provisioning) or one that is not
    an [Exception] leaves [main], which gives a non-zero exit status. *)
Theorem C9_top_level_error_handling :
  (forall w w1,
     startup w = (Ok tt, w1) -> files w !! data_file = None ->
     exists w2,
       run_tests w1 = (Raise FileNotFoundError, w2) /\
       main w = (Ok tt, add_event (EvPrint MsgRunGenerator) w2) /\
       exit_status (main w).1 = 0) /\
  (forall w w1 e w2,
     startup w = (Ok tt, w1) -> run_tests w1 = (Raise e, w2) ->
     e <> FileNotFoundError -> is_Exception e = true ->
     main w = (Ok tt, add_event (EvPrint (MsgError e)) w2) /\
     exit_status (main w).1 = 0) /\
  (forall w w1 e w2,
     startup w = (Ok tt, w1) -> run_tests w1 = (Raise e, w2) ->
     is_Exception e = false ->
     main w = (Raise e, w2) /\ exit_status (main w).1 <> 0) /\
  (forall w e w',
     startup w = (Raise e, w') ->
     main w = (Raise e, w') /\ exit_status (main w).1 <> 0).
Proof.
  split; [| split; [| split]].
  - intros w w1 Hs Hf.
    pose proof (startup_frame _ _ _ Hs) as (Ef & _).
    destruct (missing_file_raises w1) as (w2 & E & _); [rewrite Ef; exact Hf |].
    exists w2. split; [exact E |].
    assert (Em : main w = (Ok tt, add_event (EvPrint MsgRunGenerator) w2)).
    { rewrite main_eq, Hs, try_main_handlers, E. reflexivity. }
    rewrite Em. split; reflexivity.
  - intros w w1 e w2 Hs E Hne He.
    assert (Em : main w = (Ok tt, add_event (EvPrint (MsgError e)) w2)).
    { rewrite main_eq, Hs, try_main_handlers, E, He.
      unfold is_FileNotFoundError. rewrite bool_decide_eq_false_2 by exact Hne.
      reflexivity. }
    rewrite Em. split; reflexivity.
  - intros w w1 e w2 Hs E He.
    assert (Em : main w = (Raise e, w2)).
    { rewrite main_eq, Hs, try_main_handlers, E, He.
      unfold is_FileNotFoundError. rewrite bool_decide_eq_false_2; [reflexivity |].
      intros ->. discriminate. }
    rewrite Em. split; [reflexivity |]. destruct e; discriminate.
  - intros w e w' Hs. rewrite (main_startup_raise _ _ _ Hs).
    split; [reflexivity |]. destruct e; discriminate.
Qed.

Lemma C9_witness :
  files Scenario.no_workload_file !! data_file = None /\
  (exists w1, startup Scenario.no_workload_file = (Ok tt, w1)) /\
  exit_status (main Scenario.no_workload_file).1 = 0 /\
  last (trace (main Scenario.no_workload_file).2) = Some (EvPrint MsgRunGenerator).
Proof.
  split; [reflexivity |].
  destruct (startup Scenario.no_workload_file) as [[[] | e] w1] eqn:Hs;
    [| vm_compute in Hs; discriminate].
  split; [exists w1; reflexivity |].
  destruct (proj1 C9_top_level_error_handling Scenario.no_workload_file w1 Hs eq_refl)
    as (w2 & _ & Em & Ex).
  split; [exact Ex |]. rewrite Em. cbn [snd trace add_event]. apply last_snoc.
Defined.

(** A timeout in the [try] block is reported, and the exit status is 0. *)
Lemma C9_counterexample :
  let out := main Scenario.first_ack_times_out in
  last (trace out.2) = Some (EvPrint (MsgError KafkaTimeoutError)) /\
  exit_status out.1 = 0.
Proof. vm_compute. split; reflexivity. Qed.

(** ** The results of the batch/linger sweep *)

Section BatchLingerResults.

Lemma batch_linger_run_files f config rs w r w' :
  batch_linger_run f config rs w = (r, w') -> files w' = files w.
Proof.
  destruct config as [bs lm]. intros H. unfold batch_linger_run in H.
  exec_any H; resolve_steps; world_simpl; congruence.
Qed.

Lemma batch_linger_result_keys bs lm thr avg p95 p99 dur :
  dom (batch_linger_result bs lm thr avg p95 p99 dur) = list_to_set batch_linger_keys.
Proof. unfold batch_linger_result. rewrite dom_list_to_map_L. reflexivity. Qed.

Lemma batch_linger_run_reports f cfg rs w rs' w' :
  batch_linger_run f cfg rs w = (Ok rs', w') ->
  exists records r,
    files w !! f = Some records /\
    rs' = rs ++ [r] /\
    reports_mean_p95_p99
      (run_latencies (clock w) (ticks w) (length (take 1000 records))) r.
Proof.
  destruct cfg as [bs lm]. intros H.
  apply batch_linger_run_ok in H
    as (records & thr & avg & p95 & p99 & Hf & _ & Hne & Havg & H95 & H99 & -> & _).
  cbv zeta in *. exists records. eexists. split; [exact Hf |].
  split; [reflexivity |]. split.
  - apply batch_linger_result_keys.
  - exists avg, p95, p99. unfold run_latencies.
    split; [reflexivity |]. split; [reflexivity |]. split; [reflexivity |].
    split; [| split; [exact H95 | split; [exact H99 |]]].
    + intros w0. rewrite Havg. unfold statistics_mean.
      destruct (map _ _); [congruence | reflexivity].
    + eapply percentile_95_le_99; [| apply (H95 w) | apply (H99 w)].
      unfold len. rewrite length_map, length_seq, length_take. lia.
Qed.

(** One run takes [readings_per_run] clock readings and leaves the clock
    and the workload file as they are. *)
Lemma batch_linger_run_clock f cfg rs w rs' w' records :
  batch_linger_run f cfg rs w = (Ok rs', w') ->
  files w !! f = Some records ->
  clock w' = clock w /\
  ticks w' = (ticks w + readings_per_run (length (take 1000 records)))%nat /\
  files w' = files w.
Proof.
  destruct cfg as [bs lm]. intros H Hf.
  pose proof (batch_linger_run_files _ _ _ _ _ _ H) as Hfiles.
  unfold batch_linger_run in H. exec_ok H.
  apply read_records_inv in Hstep as [(_ & ? & _) | (records' & Hf' & ? & ->)];
    [discriminate |]. simplify_eq.
  cbn [files add_event fresh_producer] in Hf'. rewrite Hf in Hf'.
  injection Hf' as <-.
  apply timed_sends_ok in Hstep0 as (_ & _ & Ec & Ek & _).
  apply truediv_Ok_inv in Hstep1 as [_ ->].
  apply statistics_mean_Ok_inv in Hstep2 as (_ & _ & ->).
  apply percentile_Ok_inv in Hstep3 as [-> _].
  apply percentile_Ok_inv in Hstep4 as [-> _].
  world_simpl. unfold readings_per_run.
  split; [exact Ec |]. split; [rewrite Ek; lia | exact Hfiles].
Qed.

(** The rows that the loop of the sweep appends, run by run. *)
Lemma batch_linger_sweep_reports f records configs :
  forall rs w rs' w',
    files w !! f = Some records ->
    for_fold configs (batch_linger_run f) rs w = (Ok rs', w') ->
    exists new,
      rs' = rs ++ new /\ length new = length configs /\
      forall i r, new !! i = Some r ->
        let n := length (take 1000 records) in
        reports_mean_p95_p99
          (run_latencies (clock w) (ticks w + i * readings_per_run n) n) r.
Proof.
  induction configs as [| cfg configs IH]; intros rs w rs' w' Hf H; simpl in H.
  - unfold ret in H. injection H as <- _. exists []. rewrite app_nil_r.
    split; [reflexivity |]. split; [reflexivity |]. intros i r Hi. discriminate.
  - apply bind_Ok_inv in H as (rs1 & w1 & H1 & H).
    destruct (batch_linger_run_clock _ _ _ _ _ _ _ H1 Hf) as (Ec & Ek & Efiles).
    apply batch_linger_run_reports in H1 as (records' & r0 & Hf' & -> & Hr0).
    rewrite Hf in Hf'. injection Hf' as <-.
    apply IH in H as (new & -> & Hlen & Hall); [| rewrite Efiles; exact Hf].
    exists (r0 :: new). rewrite <- app_assoc. split; [reflexivity |].
    split; [cbn; f_equal; exact Hlen |].
    intros [| i] r Hi; cbv zeta.
    + injection Hi as <-. rewrite Nat.mul_0_l, Nat.add_0_r. exact Hr0.
    + cbn [lookup list_lookup] in Hi. specialize (Hall i r Hi). cbv zeta in Hall.
      rewrite Ec, Ek in Hall.
      replace (ticks w + S i * readings_per_run (length (take 1000 records)))%nat
        with (ticks w + readings_per_run (length (take 1000 records)) +
              i * readings_per_run (length (take 1000 records)))%nat by lia.
      exact Hall.
Qed.

End BatchLingerResults.

(** C8, as the code has it: the result of every completed batch/linger run
    holds, under ['avg_latency'], ['p95_latency'] and ['p99_latency'], the
    value of [statistics.mean] and the nearest-rank p95 and p99 of the
    latencies measured in that run, with p95 <= p99; a completed sweep
    stores six such results, the [i]-th for the latencies of the [i]-th
    run; no median is computed or stored (a result has the seven keys of
    [batch_linger_keys] and no other). *)
Theorem C8_results_hold_mean_p95_p99 :
  (forall f bs lm results w,
     match batch_linger_run f (bs, lm) results w with
     | (Ok results', _) =>
         exists records r,
           files w !! f = Some records /\
           results' = results ++ [r] /\
           reports_mean_p95_p99
             (run_latencies (clock w) (ticks w) (length (take 1000 records))) r
     | (Raise _, _) => True
     end) /\
  (forall f w,
     match test_batch_linger f w with
     | (Ok results, _) =>
         exists records,
           files w !! f = Some records /\
           length results = length batch_linger_configs /\
           forall i r, results !! i = Some r ->
             let n := length (take 1000 records) in
             reports_mean_p95_p99
               (run_latencies (clock w) (ticks w + i * readings_per_run n) n) r
     | (Raise _, _) => True
     end).
Proof.
  split.
  - intros f bs lm results w.
    destruct (batch_linger_run f (bs, lm) results w) as [[results' | e] w'] eqn:E;
      [| exact I].
    exact (batch_linger_run_reports _ _ _ _ _ _ E).
  - intros f w.
    destruct (test_batch_linger f w) as [[results | e] w'] eqn:E; [| exact I].
    unfold test_batch_linger in E. exec_ok E.
    assert (Hf : exists records, files w !! f = Some records).
    { cbn [for_fold batch_linger_configs] in Hstep.
      apply bind_Ok_inv in Hstep as (rs1 & w2 & H1 & _).
      apply batch_linger_run_reports in H1 as (records & _ & Hf & _).
      exists records. exact Hf. }
    destruct Hf as [records Hf]. exists records. split; [exact Hf |].
    destruct (batch_linger_sweep_reports f records _ _
                (add_event (EvPrint (MsgStage "BATCH/LINGER")) w) _ _ Hf Hstep)
      as (new & -> & Hlen & Hall).
    split; [exact Hlen |]. exact Hall.
Qed.

Lemma C8_witness :
  succeeds (test_batch_linger data_file Scenario.healthy).1 = true /\
  match test_batch_linger data_file Scenario.healthy with
  | (Ok results, _) =>
      exists records,
        files Scenario.healthy !! data_file = Some records /\
        length results = length batch_linger_configs /\
        forall i r, results !! i = Some r ->
          let n := length (take 1000 records) in
          reports_mean_p95_p99
            (run_latencies (clock Scenario.healthy)
               (ticks Scenario.healthy + i * readings_per_run n) n) r
  | (Raise _, _) => True
  end.
Proof.
  split; [vm_compute; reflexivity |].
  exact (proj2 C8_results_hold_mean_p95_p99 data_file Scenario.healthy).
Defined.

(** The results of a healthy batch/linger sweep have no median under any
    name: their keys are the seven of [batch_linger_keys]. *)
Lemma C8_counterexample :
  match (test_batch_linger data_file Scenario.healthy).1 with
  | Ok (r :: _) =>
      r !! "median" = None /\
      r !! "median_latency" = None /\
      r !! "p50" = None /\
      r !! "p50_latency" = None /\
      map fst (map_to_list r) =
        [ "avg_latency"; "batch_size"; "linger_ms"; "throughput"; "duration";
          "p95_latency"; "p99_latency" ]
  | _ => False
  end.
Proof. vm_compute. repeat split. Qed.

(** ** The scaling factor of the partitioning sweep *)

Section Scaling.

Lemma partitioning_run_invariant records n locals w locals' w' :
  partitioning_invariant locals ->
  partitioning_run records n locals w = (Ok locals', w') ->
  partitioning_invariant locals'.
Proof.
  destruct locals as [b rs], locals' as [b' rs']. intros Inv H.
  apply partitioning_run_ok in H as (thr & sf & _ & Hb & -> & _).
  cbv zeta in *. unfold partitioning_invariant in *. cbn [fst snd] in *.
  destruct rs as [| r0 rest].
  - subst b. destruct Hb as [-> ->]. cbn [app].
    exists thr. repeat split. constructor.
  - destruct Inv as (t0 & -> & Ht & Hs & Hall). destruct Hb as [Hsf ->].
    cbn [app]. exists t0. repeat split; try assumption.
    apply Forall_app_2; [exact Hall |].
    constructor; [| constructor]. exists thr, sf. repeat split. exact Hsf.
Qed.

Lemma partitioning_sweep_length records l :
  forall locals w locals' w',
    for_fold l (partitioning_run records) locals w = (Ok locals', w') ->
    length locals'.2 = (length locals.2 + length l)%nat.
Proof.
  induction l as [| n l IH]; intros locals w locals' w' H; simpl in H.
  - unfold ret in H. injection H as <- _. simpl. lia.
  - apply bind_Ok_inv in H as (locals1 & w1 & H1 & H).
    apply IH in H. rewrite H.
    destruct locals as [b rs], locals1 as [b1 rs1].
    apply partitioning_run_ok in H1 as (thr & sf & _ & _ & -> & _).
    cbn [snd]. rewrite length_app. simpl. lia.
Qed.

End Scaling.

(** C5: in the partitioning sweep the first result's scaling factor is
    exactly 1.0, and the scaling factor of every later result is its
    throughput divided by the first result's throughput. *)
Theorem C5_scaling_factor_relative_to_first_run :
  forall f w,
    match test_partitioning f w with
    | (Ok results, _) =>
        length results = length partition_counts /\
        exists first later baseline,
          results = first :: later /\
          first !! "scaling_factor" = Some (VFloat 1) /\
          first !! "throughput" = Some (VFloat baseline) /\
          Forall (scaled_against baseline) later
    | (Raise _, _) => True
    end.
Proof.
  intros f w.
  destruct (test_partitioning f w) as [[results | e] w'] eqn:E; [| exact I].
  unfold test_partitioning in E. exec_ok E.
  pose proof (partitioning_sweep_length _ _ _ _ _ _ Hstep0) as Hlen.
  apply (for_fold_invariant partitioning_invariant) in Hstep0.
  - cbn [snd length] in Hlen. split; [exact Hlen |].
    destruct a0 as [b rs]. unfold partitioning_invariant in Hstep0. cbn [fst snd] in *.
    destruct rs as [| first later]; [discriminate |].
    destruct Hstep0 as (baseline & _ & Ht & Hs & Hall).
    exists first, later, baseline. repeat split; assumption.
  - intros n st wa st' wb Hinv Hrun. eapply partitioning_run_invariant; eassumption.
  - reflexivity.
Qed.

Lemma C5_witness :
  succeeds (test_partitioning data_file Scenario.healthy).1 = true /\
  match test_partitioning data_file Scenario.healthy with
  | (Ok results, _) =>
      length results = length partition_counts /\
      exists first later baseline,
        results = first :: later /\
        first !! "scaling_factor" = Some (VFloat 1) /\
        first !! "throughput" = Some (VFloat baseline) /\
        Forall (scaled_against baseline) later
  | (Raise _, _) => True
  end.
Proof.
  split; [vm_compute; reflexivity |].
  exact (C5_scaling_factor_relative_to_first_run data_file Scenario.healthy).
Defined.

(** ** One record in flight *)

Section OneInFlight.


End OneInFlight.




(** ** The compression sweep *)

Section CompressionSweep.

Lemma compression_sweep_estimates records s l :
  forall rs w rs' w',
    for_fold l (compression_run records s) rs w = (Ok rs', w') ->
    exists new, rs' = rs ++ new /\ Forall2 (estimated_for s) l new.
Proof.
  induction l as [| algo l IH]; intros rs w rs' w' H; simpl in H.
  - unfold ret in H. injection H as <- _. exists []. rewrite app_nil_r.
    split; [reflexivity | constructor].
  - apply bind_Ok_inv in H as (rs1 & w1 & H1 & H).
    apply compression_run_ok in H1 as (thr & avg & est & _ & _ & _ & Hest & -> & _).
    cbv zeta in *.
    apply IH in H as (new & -> & Hall).
    eexists (_ :: new). rewrite <- app_assoc. split; [reflexivity |].
    constructor; [| exact Hall]. exists thr, avg, est. split; [exact Hest | reflexivity].
Qed.

Lemma ratio_le s : 0 < s -> (ratio_of (2 * s / 5) s <= ratio_of (s / 4) s)%Q.
Proof.
  intros Hs. apply ratio_of_antitone; [exact Hs |]. Z.div_mod_to_equations. lia.
Qed.

Lemma ratio_lt s :
  s = 3 \/ 5 <= s -> (ratio_of (2 * s / 5) s < ratio_of (s / 4) s)%Q.
Proof.
  intros Hs.
  destruct (Z_le_gt_dec 7 s) as [H7 | H7]; [apply ratio_gap, H7 |].
  assert (C : s = 3 \/ s = 5 \/ s = 6) by lia.
  destruct C as [-> | [-> | ->]]; unfold Qlt; vm_compute; reflexivity.
Qed.

End CompressionSweep.

(** C4, as the code has it: on a sample of [s > 0] bytes the codec 'none'
    gets compressed size [s] and ratio exactly 0.0; snappy, lz4 and zstd get
    [int(s * 0.40)], [int(s * 0.35)] and [int(s * 0.25)] evaluated in
    binary64, which is [floor(2s/5)] for snappy and [floor(s/4)] for zstd,
    and the ratio [(1 - compressed / s) * 100]; the ratio of zstd is never
    below the ratio of snappy, and is strictly greater when [s = 3] or
    [s >= 5].  All four runs of the sweep use the same sample size. *)
Theorem C4_compression_estimates :
  (forall s w,
     0 < s < 2 ^ 45 ->
     estimate_compression "none" s w = (Ok (s, 0%Q), w) /\
     estimate_compression "snappy" s w =
       (Ok (2 * s / 5, ratio_of (2 * s / 5) s), w) /\
     estimate_compression "lz4" s w =
       (Ok (to_int (fmul (of_int s) lit_0_35),
            ratio_of (to_int (fmul (of_int s) lit_0_35)) s), w) /\
     estimate_compression "zstd" s w = (Ok (s / 4, ratio_of (s / 4) s), w) /\
     (ratio_of (2 * s / 5) s <= ratio_of (s / 4) s)%Q /\
     (s = 3 \/ 5 <= s -> (ratio_of (2 * s / 5) s < ratio_of (s / 4) s)%Q)) /\
  (forall f w,
     match test_compression f w with
     | (Ok results, _) =>
         exists records,
           files w !! f = Some records /\
           Forall2 (estimated_for (serialized_size (take 3000 records)))
                   algorithms results
     | (Raise _, _) => True
     end).
Proof.
  split.
  - intros s w Hs.
    split; [apply estimate_none |].
    split; [apply estimate_snappy, Hs |].
    split; [apply estimate_lz4; lia |].
    split; [apply estimate_zstd, Hs |].
    split; [apply ratio_le; lia | apply ratio_lt].
  - intros f w.
    destruct (test_compression f w) as [[results | e] w'] eqn:E; [| exact I].
    unfold test_compression in E. exec_ok E.
    apply read_records_inv in Hstep as [(_ & ? & _) | (records & Hf & ? & ->)];
      [discriminate |]. simplify_eq.
    apply compression_sweep_estimates in Hstep0 as (new & -> & Hall).
    exists records. split; [exact Hf | exact Hall].
Qed.

Lemma C4_witness :
  0 < 8 < 2 ^ 45 /\ (8 = 3 \/ 5 <= 8) /\
  (ratio_of (2 * 8 / 5) 8 < ratio_of (8 / 4) 8)%Q /\
  succeeds (test_compression data_file Scenario.healthy).1 = true.
Proof.
  split; [lia |]. split; [right; lia |].
  split; [| vm_compute; reflexivity].
  apply (proj1 C4_compression_estimates 8 Scenario.healthy ltac:(lia)). right. lia.
Defined.

(** One record [{}] makes a sample of two bytes: snappy and zstd are both
    estimated at zero bytes, and their ratios are equal. *)
Lemma C4_counterexample :
  match (test_compression data_file Scenario.tiny_workload).1 with
  | Ok [_; snappy; _; zstd] =>
      match snappy !! "compression_ratio", zstd !! "compression_ratio" with
      | Some (VFloat ratio_snappy), Some (VFloat ratio_zstd) =>
          ~ (ratio_snappy < ratio_zstd)%Q
      | _, _ => False
      end
  | _ => False
  end.
Proof. vm_compute. intros H. discriminate H. Qed.

(** ** Percentiles of a run *)

Section RunPercentiles.

Lemma batch_linger_run_percentiles f bs lm results w results' w' :
  batch_linger_run f (bs, lm) results w = (Ok results', w') ->
  exists records r p95 p99,
    let latencies :=
      map (latency_at (clock w) (S (ticks w)))
          (seq 0 (length (take 1000 records))) in
    files w !! f = Some records /\
    results' = results ++ [r] /\
    latencies <> [] /\
    sorted latencies !! Z.to_nat (95 * len latencies / 100) = Some p95 /\
    sorted latencies !! Z.to_nat (99 * len latencies / 100) = Some p99 /\
    r !! "p95_latency" = Some (VFloat p95) /\
    r !! "p99_latency" = Some (VFloat p99).
Proof.
  intros H.
  apply batch_linger_run_ok in H
    as (records & thr & avg & p95 & p99 & Hf & _ & Hne & _ & H95 & H99 & -> & _).
  cbv zeta in *.
  set (latencies := map _ _) in *.
  assert (Hlen : len latencies < 2 ^ 45).
  { unfold len, latencies. rewrite length_map, length_seq, length_take. lia. }
  destruct (percentile_95 latencies Hne Hlen) as (x & Hx & Ex).
  destruct (percentile_99 latencies Hne Hlen) as (y & Hy & Ey).
  specialize (H95 w). specialize (H99 w). rewrite Ex in H95. rewrite Ey in H99.
  injection H95 as ->. injection H99 as ->.
  exists records. eexists. exists p95, p99.
  repeat split; try eassumption; reflexivity.
Qed.

End RunPercentiles.

(** C3: for a non-empty latency sequence of length [n], the reduction's
    percentiles are nearest-rank over the ascending-sorted sequence: p95 is
    the element at index [floor(0.95 * n)], p99 the element at index
    [floor(0.99 * n)]; for [n = 1000], p95 is [sorted(latencies)[950]].
    Every completed run of the batch/linger sweep stores these two
    elements. *)
Theorem C3_nearest_rank_percentiles :
  (forall latencies : list Q,
     latencies <> [] -> len latencies < 2 ^ 45 ->
     StronglySorted Qle (sorted latencies) /\
     sorted latencies ≡ₚ latencies /\
     exists p95 p99,
       sorted latencies !! Z.to_nat (95 * len latencies / 100) = Some p95 /\
       sorted latencies !! Z.to_nat (99 * len latencies / 100) = Some p99 /\
       (forall w, percentile latencies lit_0_95 w = (Ok p95, w)) /\
       (forall w, percentile latencies lit_0_99 w = (Ok p99, w)) /\
       (len latencies = 1000 -> sorted latencies !! 950%nat = Some p95)) /\
  (forall f bs lm results w,
     match batch_linger_run f (bs, lm) results w with
     | (Ok results', _) =>
         exists records r p95 p99,
           let latencies :=
             map (latency_at (clock w) (S (ticks w)))
                 (seq 0 (length (take 1000 records))) in
           files w !! f = Some records /\
           results' = results ++ [r] /\
           latencies <> [] /\
           sorted latencies !! Z.to_nat (95 * len latencies / 100) = Some p95 /\
           sorted latencies !! Z.to_nat (99 * len latencies / 100) = Some p99 /\
           r !! "p95_latency" = Some (VFloat p95) /\
           r !! "p99_latency" = Some (VFloat p99)
     | (Raise _, _) => True
     end).
Proof.
  split.
  - intros latencies Hne Hlen.
    split; [apply sorted_sorted |]. split; [apply sorted_perm |].
    destruct (percentile_95 latencies Hne Hlen) as (x & Hx & Ex).
    destruct (percentile_99 latencies Hne Hlen) as (y & Hy & Ey).
    exists x, y. repeat split; try assumption.
    intros E. rewrite E in Hx. exact Hx.
  - intros f bs lm results w.
    destruct (batch_linger_run f (bs, lm) results w) as [[results' | e] w'] eqn:E;
      [| exact I].
    eapply batch_linger_run_percentiles, E.
Qed.

Lemma C3_witness :
  [3; 1; 2]%Q <> [] /\ len [3; 1; 2]%Q < 2 ^ 45 /\
  exists p95 p99,
    sorted [3; 1; 2]%Q !! Z.to_nat (95 * len [3; 1; 2]%Q / 100) = Some p95 /\
    sorted [3; 1; 2]%Q !! Z.to_nat (99 * len [3; 1; 2]%Q / 100) = Some p99.
Proof.
  split; [discriminate |]. split; [reflexivity |].
  destruct (proj1 C3_nearest_rank_percentiles [3; 1; 2]%Q
              ltac:(discriminate) ltac:(reflexivity))
    as (_ & _ & p95 & p99 & H1 & H2 & _).
  exists p95, p99. split; assumption.
Defined.

(** * Further properties of the sweeps *)

(** ** What a completed sweep leaves in the trace *)

Section Profiles.

Lemma session_events_app l1 l2 :
  session_events (l1 ++ l2) = session_events l1 ++ session_events l2.
Proof. apply List.filter_app. Qed.

Lemma count_sends_app l1 l2 :
  count_sends (l1 ++ l2) = (count_sends l1 + count_sends l2)%nat.
Proof. unfold count_sends. rewrite List.filter_app, length_app. reflexivity. Qed.

Lemma count_ack_waits_app l1 l2 :
  count_ack_waits (l1 ++ l2) = (count_ack_waits l1 + count_ack_waits l2)%nat.
Proof. unfold count_ack_waits. rewrite List.filter_app, length_app. reflexivity. Qed.

Lemma send_and_wait_profile p topic records :
  session_events (send_and_wait p topic records) = [] /\
  count_sends (send_and_wait p topic records) = length records /\
  count_ack_waits (send_and_wait p topic records) = length records.
Proof.
  induction records as [| r records (IH1 & IH2 & IH3)]; [repeat split |].
  unfold send_and_wait, session_events, count_sends, count_ack_waits in *.
  cbn [flat_map app List.filter is_open is_close is_send is_ack_wait orb length].
  rewrite IH1, IH2, IH3. repeat split.
Qed.

Lemma keyed_events_profile p topic records :
  session_events (keyed_events p topic records) = [] /\
  count_sends (keyed_events p topic records) = length records /\
  count_ack_waits (keyed_events p topic records) = 0%nat.
Proof.
  induction records as [| r records (IH1 & IH2 & IH3)]; [repeat split |].
  unfold keyed_events, session_events, count_sends, count_ack_waits in *.
  cbn [map List.filter is_open is_close is_send is_ack_wait orb length].
  rewrite IH1, IH2, IH3. repeat split.
Qed.

Lemma for_fold_profile {A St} (I : World -> Prop) (run : A -> St -> M St)
    (cfgof : A -> ProducerConfig) (sent acked : nat) l :
  (forall x st w st' w',
     I w -> run x st w = (Ok st', w') ->
     I w' /\ next_producer w' = S (next_producer w) /\
     exists events, trace w' = trace w ++ events /\
                    run_profile (next_producer w) (cfgof x) sent acked events) ->
  forall st w st' w',
    I w -> for_fold l run st w = (Ok st', w') ->
    I w' /\ next_producer w' = (next_producer w + length l)%nat /\
    exists events,
      trace w' = trace w ++ events /\
      session_events events = sessions_in_turn (next_producer w) (map cfgof l) /\
      count_sends events = (length l * sent)%nat /\
      count_ack_waits events = (length l * acked)%nat.
Proof.
  intros Hrun. induction l as [| x l IH]; intros st w st' w' HI H; simpl in H.
  - unfold ret in H. injection H as _ <-.
    split; [exact HI |]. split; [simpl; lia |].
    exists []. rewrite app_nil_r. repeat split.
  - apply bind_Ok_inv in H as (st1 & w1 & H1 & H).
    destruct (Hrun _ _ _ _ _ HI H1) as (HI1 & Hp1 & ev1 & Et1 & Hs1 & Hc1 & Ha1).
    destruct (IH _ _ _ _ HI1 H) as (HI' & Hp' & ev2 & Et2 & Hs2 & Hc2 & Ha2).
    split; [exact HI' |]. split; [rewrite Hp', Hp1; simpl; lia |].
    exists (ev1 ++ ev2). rewrite Et2, Et1, app_assoc.
    split; [reflexivity |].
    rewrite session_events_app, count_sends_app, count_ack_waits_app.
    rewrite Hs1, Hs2, Hc1, Hc2, Ha1, Ha2, Hp1. cbn [map sessions_in_turn app length].
    repeat split; lia.
Qed.

End Profiles.

Section RunProfiles.

Lemma compression_run_files records s algo rs w r w' :
  compression_run records s algo rs w = (r, w') -> files w' = files w.
Proof.
  intros H. unfold compression_run in H.
  exec_any H; resolve_steps; world_simpl; congruence.
Qed.

Lemma partitioning_run_files records n locals w r w' :
  partitioning_run records n locals w = (r, w') -> files w' = files w.
Proof.
  intros H. unfold partitioning_run in H.
  destruct locals as [[baseline |] results];
    exec_any H; resolve_steps; world_simpl; congruence.
Qed.

Lemma batch_linger_run_profile f records config rs w rs' w' :
  files w !! f = Some records ->
  batch_linger_run f config rs w = (Ok rs', w') ->
  files w' !! f = Some records /\
  next_producer w' = S (next_producer w) /\
  exists events,
    trace w' = trace w ++ events /\
    run_profile (next_producer w) (batch_linger_config config)
      (length (take 1000 records)) (length (take 1000 records)) events.
Proof.
  intros Hf H. pose proof (batch_linger_run_files _ _ _ _ _ _ H) as Ef.
  destruct config as [bs lm].
  apply batch_linger_run_ok in H
    as (records' & thr & avg & p95 & p99 & Hf' & _ & _ & _ & _ & _ & _ & Et & Ep & _).
  cbv zeta in *. rewrite Hf in Hf'. injection Hf' as <-.
  split; [rewrite Ef; exact Hf |]. split; [exact Ep |].
  eexists. split; [exact Et |].
  destruct (send_and_wait_profile (next_producer w) "hydro-batch-test" (take 1000 records))
    as (E1 & E2 & E3).
  unfold run_profile.
  rewrite !session_events_app, !count_sends_app, !count_ack_waits_app, E1, E2, E3.
  repeat split; cbn; lia.
Qed.

Lemma compression_run_profile records s algo rs w rs' w' :
  compression_run records s algo rs w = (Ok rs', w') ->
  next_producer w' = S (next_producer w) /\
  exists events,
    trace w' = trace w ++ events /\
    run_profile (next_producer w) (compression_config algo)
      (length records) (length records) events.
Proof.
  intros H.
  apply compression_run_ok in H as (thr & avg & est & _ & _ & _ & _ & _ & Et & Ep & _).
  cbv zeta in *. split; [exact Ep |].
  eexists. split; [exact Et |].
  destruct (send_and_wait_profile (next_producer w) ("hydro-comp-" +:+ algo) records)
    as (E1 & E2 & E3).
  unfold run_profile.
  rewrite !session_events_app, !count_sends_app, !count_ack_waits_app, E1, E2, E3.
  repeat split; cbn; lia.
Qed.

Lemma partitioning_run_profile records n locals w locals' w' :
  partitioning_run records n locals w = (Ok locals', w') ->
  next_producer w' = S (next_producer w) /\
  exists events,
    trace w' = trace w ++ events /\
    run_profile (next_producer w) (partitioning_config n)
      (length records) 0 events.
Proof.
  destruct locals as [b rs], locals' as [b' rs']. intros H.
  apply partitioning_run_ok in H as (thr & sf & _ & _ & _ & Et & Ep & _).
  cbv zeta in *. split; [exact Ep |].
  eexists. split; [exact Et |].
  destruct (keyed_events_profile (next_producer w) ("hydro-part-" +:+ pretty n) records)
    as (E1 & E2 & E3).
  unfold run_profile.
  rewrite !session_events_app, !count_sends_app, !count_ack_waits_app, E1, E2, E3.
  repeat split; cbn; lia.
Qed.

End RunProfiles.

Section SweepProfiles.

Lemma test_batch_linger_profile f records w rs w' :
  files w !! f = Some records ->
  test_batch_linger f w = (Ok rs, w') ->
  files w' = files w /\
  next_producer w' = (next_producer w + length batch_linger_configs)%nat /\
  exists events,
    trace w' = trace w ++ events /\
    session_events events =
      sessions_in_turn (next_producer w) (map batch_linger_config batch_linger_configs) /\
    count_sends events = (length batch_linger_configs * (1000 `min` length records))%nat /\
    count_ack_waits events = (length batch_linger_configs * (1000 `min` length records))%nat.
Proof.
  intros Hf H. unfold test_batch_linger in H. exec_ok H.
  pose proof (for_fold_keeps (fun w1 w2 => files w2 = files w1)
                (batch_linger_run f) batch_linger_configs
                (fun _ => eq_refl)
                (fun _ _ _ H1 H2 => eq_trans H2 H1)
                (fun x st w1 r w2 => batch_linger_run_files f x st w1 r w2)
                _ _ _ _ Hstep) as Efiles.
  apply (for_fold_profile (fun w0 => files w0 !! f = Some records)
           (batch_linger_run f) batch_linger_config
           (length (take 1000 records)) (length (take 1000 records))) in Hstep.
  - destruct Hstep as (_ & Hp & events & Et & Hs & Hc & Ha).
    world_simpl. split; [exact Efiles |]. split; [exact Hp |].
    exists (EvPrint (MsgStage "BATCH/LINGER") :: events).
    rewrite Et, <- app_assoc. split; [reflexivity |].
    rewrite length_take in Hc, Ha.
    change (session_events (?e :: events)) with (session_events events).
    repeat split; assumption.
  - intros x st wa st' wb HI Hrun.
    eapply batch_linger_run_profile; eassumption.
  - exact Hf.
Qed.

Lemma test_compression_profile f records w rs w' :
  files w !! f = Some records ->
  test_compression f w = (Ok rs, w') ->
  files w' = files w /\
  next_producer w' = (next_producer w + length algorithms)%nat /\
  exists events,
    trace w' = trace w ++ events /\
    session_events events =
      sessions_in_turn (next_producer w) (map compression_config algorithms) /\
    count_sends events = (length algorithms * (3000 `min` length records))%nat /\
    count_ack_waits events = (length algorithms * (3000 `min` length records))%nat.
Proof.
  intros Hf H. unfold test_compression in H. exec_ok H.
  apply read_records_inv in Hstep as [(_ & ? & _) | (records' & Hf' & ? & ->)];
    [discriminate |]. simplify_eq.
  cbn [files add_event] in Hf'. rewrite Hf in Hf'. injection Hf' as <-.
  pose proof (for_fold_keeps (fun w1 w2 => files w2 = files w1)
                (compression_run (take 3000 records) (serialized_size (take 3000 records)))
                algorithms
                (fun _ => eq_refl)
                (fun _ _ _ H1 H2 => eq_trans H2 H1)
                (fun x st w1 r w2 => compression_run_files _ _ x st w1 r w2)
                _ _ _ _ Hstep0) as Efiles.
  apply (for_fold_profile (fun _ => True)
           (compression_run (take 3000 records) (serialized_size (take 3000 records)))
           compression_config
           (length (take 3000 records)) (length (take 3000 records))) in Hstep0.
  - destruct Hstep0 as (_ & Hp & events & Et & Hs & Hc & Ha).
    world_simpl. split; [exact Efiles |]. split; [exact Hp |].
    exists (EvPrint (MsgStage "COMPRESSION") :: EvReadFile f :: events).
    rewrite Et, <- !app_assoc. split; [reflexivity |].
    rewrite length_take in Hc, Ha.
    change (session_events (?e :: ?e' :: events)) with (session_events events).
    repeat split; assumption.
  - intros x st wa st' wb _ Hrun. split; [exact I |].
    eapply compression_run_profile; eassumption.
  - exact I.
Qed.

Lemma test_partitioning_profile f records w rs w' :
  files w !! f = Some records ->
  test_partitioning f w = (Ok rs, w') ->
  files w' = files w /\
  next_producer w' = (next_producer w + length partition_counts)%nat /\
  exists events,
    trace w' = trace w ++ events /\
    session_events events =
      sessions_in_turn (next_producer w) (map partitioning_config partition_counts) /\
    count_sends events = (length partition_counts * (4000 `min` length records))%nat /\
    count_ack_waits events = 0%nat.
Proof.
  intros Hf H. unfold test_partitioning in H. exec_ok H.
  apply read_records_inv in Hstep as [(_ & ? & _) | (records' & Hf' & ? & ->)];
    [discriminate |]. simplify_eq.
  cbn [files add_event] in Hf'. rewrite Hf in Hf'. injection Hf' as <-.
  pose proof (for_fold_keeps (fun w1 w2 => files w2 = files w1)
                (partitioning_run (take 4000 records)) partition_counts
                (fun _ => eq_refl)
                (fun _ _ _ H1 H2 => eq_trans H2 H1)
                (fun x st w1 r w2 => partitioning_run_files _ x st w1 r w2)
                _ _ _ _ Hstep0) as Efiles.
  apply (for_fold_profile (fun _ => True)
           (partitioning_run (take 4000 records)) partitioning_config
           (length (take 4000 records)) 0) in Hstep0.
  - destruct Hstep0 as (_ & Hp & events & Et & Hs & Hc & Ha).
    world_simpl. split; [exact Efiles |]. split; [exact Hp |].
    exists (EvPrint (MsgStage "PARTITIONING") :: EvReadFile f :: events).
    rewrite Et, <- !app_assoc. split; [reflexivity |].
    rewrite length_take in Hc.
    change (session_events (?e :: ?e' :: events)) with (session_events events).
    repeat split; assumption.
  - intros x st wa st' wb _ Hrun. split; [exact I |].
    eapply partitioning_run_profile; eassumption.
  - exact I.
Qed.

End SweepProfiles.

(** In every sweep that completes, the producer sessions are used strictly
    in turn: one session per configuration, in the order of the
    configuration list and with its settings, with consecutive numbers, and
    each is closed before the next is opened. *)
Theorem sweep_sessions_in_turn f records w :
  files w !! f = Some records ->
  match test_batch_linger f w with
  | (Ok _, w') =>
      exists events,
        trace w' = trace w ++ events /\
        session_events events =
          sessions_in_turn (next_producer w)
            (map batch_linger_config batch_linger_configs)
  | (Raise _, _) => True
  end /\
  match test_compression f w with
  | (Ok _, w') =>
      exists events,
        trace w' = trace w ++ events /\
        session_events events =
          sessions_in_turn (next_producer w) (map compression_config algorithms)
  | (Raise _, _) => True
  end /\
  match test_partitioning f w with
  | (Ok _, w') =>
      exists events,
        trace w' = trace w ++ events /\
        session_events events =
          sessions_in_turn (next_producer w)
            (map partitioning_config partition_counts)
  | (Raise _, _) => True
  end.
Proof.
  intros Hf. repeat split.
  - destruct (test_batch_linger f w) as [[rs | e] w'] eqn:E; [| exact I].
    destruct (test_batch_linger_profile _ _ _ _ _ Hf E) as (_ & _ & ev & Et & Hs & _).
    exists ev. split; assumption.
  - destruct (test_compression f w) as [[rs | e] w'] eqn:E; [| exact I].
    destruct (test_compression_profile _ _ _ _ _ Hf E) as (_ & _ & ev & Et & Hs & _).
    exists ev. split; assumption.
  - destruct (test_partitioning f w) as [[rs | e] w'] eqn:E; [| exact I].
    destruct (test_partitioning_profile _ _ _ _ _ Hf E) as (_ & _ & ev & Et & Hs & _).
    exists ev. split; assumption.
Qed.

Lemma sweep_sessions_in_turn_witness :
  files Scenario.healthy !! data_file =
    Some [Scenario.kaplan_record; Scenario.kaplan_record] /\
  succeeds (test_batch_linger data_file Scenario.healthy).1 = true /\
  match test_batch_linger data_file Scenario.healthy with
  | (Ok _, w') =>
      exists events,
        trace w' = trace Scenario.healthy ++ events /\
        session_events events =
          sessions_in_turn (next_producer Scenario.healthy)
            (map batch_linger_config batch_linger_configs)
  | (Raise _, _) => True
  end.
Proof.
  assert (Hf : files Scenario.healthy !! data_file =
               Some [Scenario.kaplan_record; Scenario.kaplan_record])
    by (vm_compute; reflexivity).
  split; [exact Hf |]. split; [vm_compute; reflexivity |].
  pose proof (sweep_sessions_in_turn data_file
                [Scenario.kaplan_record; Scenario.kaplan_record]
                Scenario.healthy Hf) as (H & _).
  exact H.
Defined.

(** A sweep that completes sends, in every run, the first 1000 (batch and
    linger), 3000 (compression) or 4000 (partitioning) records of the
    workload file, or all of them when the file is shorter; the first two
    sweeps wait for one acknowledgment per send, the partitioning sweep for
    none. *)
Theorem sweep_send_counts f records w :
  files w !! f = Some records ->
  match test_batch_linger f w with
  | (Ok _, w') =>
      exists events,
        trace w' = trace w ++ events /\
        count_sends events = (6 * (1000 `min` length records))%nat /\
        count_ack_waits events = (6 * (1000 `min` length records))%nat
  | (Raise _, _) => True
  end /\
  match test_compression f w with
  | (Ok _, w') =>
      exists events,
        trace w' = trace w ++ events /\
        count_sends events = (4 * (3000 `min` length records))%nat /\
        count_ack_waits events = (4 * (3000 `min` length records))%nat
  | (Raise _, _) => True
  end /\
  match test_partitioning f w with
  | (Ok _, w') =>
      exists events,
        trace w' = trace w ++ events /\
        count_sends events = (3 * (4000 `min` length records))%nat /\
        count_ack_waits events = 0%nat
  | (Raise _, _) => True
  end.
Proof.
  intros Hf. repeat split.
  - destruct (test_batch_linger f w) as [[rs | e] w'] eqn:E; [| exact I].
    destruct (test_batch_linger_profile _ _ _ _ _ Hf E) as (_ & _ & ev & Et & _ & Hc & Ha).
    exists ev. repeat split; assumption.
  - destruct (test_compression f w) as [[rs | e] w'] eqn:E; [| exact I].
    destruct (test_compression_profile _ _ _ _ _ Hf E) as (_ & _ & ev & Et & _ & Hc & Ha).
    exists ev. repeat split; assumption.
  - destruct (test_partitioning f w) as [[rs | e] w'] eqn:E; [| exact I].
    destruct (test_partitioning_profile _ _ _ _ _ Hf E) as (_ & _ & ev & Et & _ & Hc & Ha).
    exists ev. repeat split; assumption.
Qed.

Lemma sweep_send_counts_witness :
  files Scenario.healthy !! data_file =
    Some [Scenario.kaplan_record; Scenario.kaplan_record] /\
  succeeds (test_partitioning data_file Scenario.healthy).1 = true /\
  match test_partitioning data_file Scenario.healthy with
  | (Ok _, w') =>
      exists events,
        trace w' = trace Scenario.healthy ++ events /\
        count_sends events =
          (3 * (4000 `min` length [Scenario.kaplan_record; Scenario.kaplan_record]))%nat /\
        count_ack_waits events = 0%nat
  | (Raise _, _) => True
  end.
Proof.
  assert (Hf : files Scenario.healthy !! data_file =
               Some [Scenario.kaplan_record; Scenario.kaplan_record])
    by (vm_compute; reflexivity).
  split; [exact Hf |]. split; [vm_compute; reflexivity |].
  pose proof (sweep_send_counts data_file
                [Scenario.kaplan_record; Scenario.kaplan_record]
                Scenario.healthy Hf) as (_ & _ & H).
  exact H.
Defined.

(** ** More on rounding: signs and fixed points *)

Section RoundingSigns.

Lemma round53_pos_iff x : (0 < round53 x)%Q <-> (0 < x)%Q.
Proof.
  destruct (Qcompare_spec x 0) as [H | H | H].
  - rewrite (round53_zero x H). split; intros C; exfalso; lra.
  - rewrite (round53_neg x H).
    pose proof (round_pos_pos (- x) ltac:(lra)). split; intros C; exfalso; lra.
  - rewrite (round53_pos x H). pose proof (round_pos_pos x H). split; intros; assumption.
Qed.

Lemma round53_zero_iff x : (round53 x == 0)%Q <-> (x == 0)%Q.
Proof.
  destruct (Qcompare_spec x 0) as [H | H | H].
  - rewrite (round53_zero x H). split; intros; [exact H | reflexivity].
  - rewrite (round53_neg x H).
    pose proof (round_pos_pos (- x) ltac:(lra)). split; intros C; exfalso; lra.
  - rewrite (round53_pos x H). pose proof (round_pos_pos x H).
    split; intros C; exfalso; lra.
Qed.

Lemma round53_nonneg x : (0 <= x)%Q -> (0 <= round53 x)%Q.
Proof.
  intros H. pose proof (round53_mono 0 x H) as M.
  rewrite (round53_zero 0) in M by reflexivity. exact M.
Qed.

(** A value is a float of the model when rounding leaves it alone. *)
Lemma round_pos_is_float x :
  (0 < x)%Q -> (round53 (round_pos x) == round_pos x)%Q.
Proof.
  intros Hx. destruct (scaled_range x Hx) as [Lo Hi].
  destruct (rne_between (2 ^ 52) (2 ^ 53) (x * pow2 (52 - ilog2 x)) Lo ltac:(lra))
    as [A B].
  unfold round_pos. cbv zeta. set (m := rne _) in *. set (e := ilog2 x) in *.
  destruct (Z.eq_dec m (2 ^ 53)) as [E | NE].
  - rewrite E.
    assert (T : (inject_Z (2 ^ 53) * pow2 (e - 52) == inject_Z 1 * pow2 (e + 1))%Q).
    { rewrite <- (pow2_Z 53) by lia. rewrite <- pow2_add.
      replace (53 + (e - 52)) with (e + 1) by lia.
      change (inject_Z 1) with 1%Q. ring. }
    rewrite T. apply round53_exact. lia.
  - apply round53_exact. lia.
Qed.

Lemma round53_idempotent x : (round53 (round53 x) == round53 x)%Q.
Proof.
  destruct (Qcompare_spec x 0) as [H | H | H].
  - rewrite (round53_zero x H). reflexivity.
  - rewrite (round53_neg x H).
    pose proof (round_pos_pos (- x) ltac:(lra)) as P.
    rewrite (round53_neg (- round_pos (- x))%Q) by lra.
    apply Qopp_comp.
    rewrite <- (round53_pos (- - round_pos (- x))%Q) by lra.
    rewrite (round53_comp (- - round_pos (- x))%Q (round_pos (- x))) by ring.
    apply round_pos_is_float. lra.
  - rewrite (round53_pos x H). apply round_pos_is_float, H.
Qed.

End RoundingSigns.

(** ** A failure in the middle of a run *)

Section PartialRuns.

(** The world after one record has been sent and acknowledged. *)
Lemma timed_sends_step p topic r rest latencies w :
  send_fault w (sends w) = None -> ack_fault w (acks w) = None ->
  timed_sends p topic (r :: rest) latencies w =
  timed_sends p topic rest
    (latencies ++ [fmul (fsub (clock w (S (ticks w))) (clock w (ticks w))) (of_int 1000)])
    (tick (add_event (EvAckWait p 10)
             (count_ack (add_event (EvSend p topic None r) (count_send (tick w)))))).
Proof.
  intros Hs Ha. cbn [timed_sends].
  unfold bind, time_time, producer_send, future_get. cbv beta zeta. world_simpl.
  rewrite Hs. cbv beta iota zeta. world_simpl. rewrite Ha. reflexivity.
Qed.

End PartialRuns.

(** When the acknowledgment of record [i] of a timed loop does not arrive,
    the loop raises at once: the records up to and including [i] have been
    handed to the producer and stay sent, the later ones are never sent,
    and nothing is stored. *)
Theorem timeout_leaves_prefix_sent p topic records :
  forall i e latencies w,
    (i < length records)%nat ->
    (forall j, (j <= i)%nat -> send_fault w (sends w + j)%nat = None) ->
    (forall j, (j < i)%nat -> ack_fault w (acks w + j)%nat = None) ->
    ack_fault w (acks w + i)%nat = Some e ->
    exists w',
      timed_sends p topic records latencies w = (Raise e, w') /\
      trace w' = trace w ++ send_and_wait p topic (take (S i) records) /\
      test_results w' = test_results w.
Proof.
  induction records as [| r records IH]; intros i e latencies w Hi Hs Ha He;
    simpl in Hi; [lia |].
  destruct i as [| i].
  - rewrite Nat.add_0_r in He. specialize (Hs 0%nat ltac:(lia)).
    rewrite Nat.add_0_r in Hs.
    cbn [timed_sends]. unfold bind, time_time, producer_send, future_get.
    cbv beta zeta. world_simpl. rewrite Hs. cbv beta iota zeta. world_simpl.
    rewrite He. eexists. split; [reflexivity |].
    world_simpl. rewrite <- app_assoc. split; reflexivity.
  - assert (Hs0 : send_fault w (sends w) = None).
    { rewrite <- (Nat.add_0_r (sends w)). apply Hs. lia. }
    assert (Ha0 : ack_fault w (acks w) = None).
    { rewrite <- (Nat.add_0_r (acks w)). apply Ha. lia. }
    rewrite (timed_sends_step _ _ _ _ _ _ Hs0 Ha0).
    match goal with
    | |- exists _, timed_sends _ _ _ ?l ?w1 = _ /\ _ =>
        destruct (IH i e l w1) as (w' & E & Et & Er)
    end.
    + lia.
    + world_simpl. intros j Hj.
      replace (S (sends w) + j)%nat with (sends w + S j)%nat by lia.
      apply Hs. lia.
    + world_simpl. intros j Hj.
      replace (S (acks w) + j)%nat with (acks w + S j)%nat by lia.
      apply Ha. lia.
    + world_simpl.
      replace (S (acks w) + i)%nat with (acks w + S i)%nat by lia.
      exact He.
    + exists w'. split; [exact E |]. world_simpl. rewrite Et, Er.
      split; [| reflexivity].
      rewrite <- !app_assoc. reflexivity.
Qed.

Lemma timeout_leaves_prefix_sent_witness :
  exists w',
    timed_sends 0 "hydro-batch-test"
      [Scenario.kaplan_record; Scenario.kaplan_record; Scenario.kaplan_record] []
      Scenario.second_ack_times_out = (Raise KafkaTimeoutError, w') /\
    trace w' = trace Scenario.second_ack_times_out ++
               send_and_wait 0 "hydro-batch-test"
                 [Scenario.kaplan_record; Scenario.kaplan_record].
Proof.
  destruct (timeout_leaves_prefix_sent 0 "hydro-batch-test"
              [Scenario.kaplan_record; Scenario.kaplan_record; Scenario.kaplan_record]
              1 KafkaTimeoutError [] Scenario.second_ack_times_out)
    as (w' & E & Et & _).
  - simpl. lia.
  - intros j _. reflexivity.
  - intros j Hj. destruct j; [reflexivity | lia].
  - reflexivity.
  - exists w'. split; [exact E | exact Et].
Defined.

Section UnreadableKey.




End UnreadableKey.



(** ** A workload file without records *)

Section EmptyWorkload.

Lemma fsub_zero a b : Qeq_bool (fsub a b) 0 = Qeq_bool a b.
Proof.
  unfold fsub. destruct (Qeq_bool a b) eqn:E.
  - apply Qeq_bool_iff in E. apply Qeq_bool_iff, round53_zero_iff.
    rewrite E. ring.
  - destruct (Qeq_bool (round53 (a - b)) 0) eqn:E'; [| reflexivity].
    apply Qeq_bool_iff in E'. apply (proj1 (round53_zero_iff _)) in E'.
    assert (Hab : (a == b)%Q).
    { assert (H : (a == (a - b) + b)%Q) by ring.
      rewrite E', Qplus_0_l in H. exact H. }
    apply Qeq_bool_iff in Hab. congruence.
Qed.

Lemma fdiv_zero_numerator d q : fdiv (of_int 0) d = Some q -> q = 0%Q.
Proof.
  unfold fdiv. destruct (Qeq_bool d 0) eqn:E; [discriminate |].
  intros [= <-]. apply round53_zero.
  change (of_int 0) with 0%Q. unfold Qdiv. apply Qmult_0_l.
Qed.

End EmptyWorkload.

(** On a workload file without records the batch/linger sweep ends in its
    first run, before anything is stored: with [ZeroDivisionError] when the
    two clock readings around the empty loop are equal, and with
    [StatisticsError] from [statistics.mean] otherwise. *)
Theorem empty_workload_ends_batch_linger f w :
  files w !! f = Some [] ->
  exists w',
    test_batch_linger f w =
      (Raise (if Qeq_bool (clock w (S (ticks w))) (clock w (ticks w))
              then ZeroDivisionError else StatisticsError), w') /\
    session_events (drop (length (trace w)) (trace w')) =
      [EvOpen (next_producer w) (batch_linger_config (16384, 0))] /\
    count_sends (drop (length (trace w)) (trace w')) = 0%nat /\
    test_results w' = test_results w.
Proof.
  intros Hf.
  unfold test_batch_linger, bind at 1. unfold print at 1, emit.
  cbn [for_fold batch_linger_configs]. unfold bind at 1, bind at 1.
  unfold batch_linger_run. unfold bind at 1. unfold print at 1, emit.
  unfold bind at 1, KafkaProducer. cbv beta zeta.
  unfold bind at 1, read_records. world_simpl. rewrite Hf.
  unfold bind at 1, time_time. cbn [take timed_sends].
  unfold bind at 1, ret at 1. unfold bind at 1, producer_flush, emit.
  unfold bind at 1. world_simpl.
  unfold bind at 1, truediv, fdiv. rewrite fsub_zero.
  destruct (Qeq_bool (clock w (S (ticks w))) (clock w (ticks w))).
  - unfold raise. eexists. split; [reflexivity |]. world_simpl.
    rewrite <- !app_assoc, drop_app_length. repeat split.
  - unfold ret at 1. unfold bind at 1. cbn [statistics_mean]. unfold raise.
    eexists. split; [reflexivity |]. world_simpl.
    rewrite <- !app_assoc, drop_app_length. repeat split.
Qed.

Lemma empty_workload_ends_batch_linger_witness :
  exists w',
    test_batch_linger data_file Scenario.empty_workload = (Raise StatisticsError, w') /\
    test_results w' = ∅.
Proof.
  destruct (empty_workload_ends_batch_linger data_file Scenario.empty_workload)
    as (w' & E & _ & _ & Er).
  - vm_compute. reflexivity.
  - exists w'. split; [exact E | exact Er].
Defined.

Section ZeroBaseline.

Lemma truediv_Raise_inv x y w e w' :
  truediv x y w = (Raise e, w') -> e = ZeroDivisionError.
Proof.
  unfold truediv. destruct (fdiv x y); unfold ret, raise; intros H; congruence.
Qed.

Lemma partitioning_run_empty_raises n locals w e w' :
  partitioning_run [] n locals w = (Raise e, w') -> e = ZeroDivisionError.
Proof.
  intros H. unfold partitioning_run in H.
  destruct locals as [[baseline |] results]; cbn [for_each] in H;
    exec_any H;
    repeat match goal with
    | H : truediv _ _ _ = (Raise _, _) |- _ => apply truediv_Raise_inv in H
    end; try assumption; try discriminate.
Qed.

Lemma zero_baseline_stops records n b results w r w' :
  Qeq_bool b 0 = true ->
  partitioning_run records n (Some b, results) w <> (Ok r, w').
Proof.
  intros Hb H. destruct r as [baseline' results'].
  apply partitioning_run_ok in H as (thr & sf & _ & (Hsf & _) & _).
  unfold fdiv in Hsf. rewrite Hb in Hsf. discriminate.
Qed.

End ZeroBaseline.

(** On a workload file without records the partitioning sweep always ends
    with [ZeroDivisionError] and stores nothing: either a run measures a
    duration of zero, or the first run sets the baseline throughput to
    [0 / duration = 0.0] and the second run divides by it. *)
Theorem empty_workload_ends_partitioning f w :
  files w !! f = Some [] ->
  exists w',
    test_partitioning f w = (Raise ZeroDivisionError, w') /\
    test_results w' = test_results w.
Proof.
  intros Hf. unfold test_partitioning.
  unfold bind at 1. unfold print at 1, emit.
  unfold bind at 1. unfold read_records. world_simpl. rewrite Hf.
  cbn [take]. unfold bind at 1.
  cbn [for_fold partition_counts].
  set (w1 := add_event (EvReadFile f) _).
  assert (Hr1 : test_results w1 = test_results w) by reflexivity.
  clearbody w1.
  unfold bind at 1.
  destruct (partitioning_run [] 2 (None, []) w1) as [[[b1 r1] | e1] w2] eqn:E1.
  - pose proof E1 as E1'.
    apply partitioning_run_ok in E1' as (thr & sf & Hthr & (_ & ->) & _ & _ & _ & Hr2).
    cbv zeta in Hthr. apply fdiv_zero_numerator in Hthr. subst thr.
    unfold bind at 1.
    destruct (partitioning_run [] 4 (Some 0%Q, r1) w2) as [[l2 | e2] w3] eqn:E2.
    + exfalso. revert E2. apply zero_baseline_stops. reflexivity.
    + pose proof (partitioning_run_empty_raises _ _ _ _ _ E2) as ->.
      apply partitioning_run_raise in E2 as (? & ? & ? & _ & _ & _ & Hr3).
      exists w3. split; [reflexivity | congruence].
  - pose proof (partitioning_run_empty_raises _ _ _ _ _ E1) as ->.
    apply partitioning_run_raise in E1 as (? & ? & ? & _ & _ & _ & Hr2).
    exists w2. split; [reflexivity | congruence].
Qed.

Lemma empty_workload_ends_partitioning_witness :
  exists w',
    test_partitioning data_file Scenario.empty_workload = (Raise ZeroDivisionError, w') /\
    test_results w' = ∅.
Proof.
  destruct (empty_workload_ends_partitioning data_file Scenario.empty_workload)
    as (w' & E & Er).
  - vm_compute. reflexivity.
  - exists w'. split; [exact E | exact Er].
Defined.

(** ** Bounds of the size model *)

Section EstimateBounds.

Lemma factor_cases algo :
  let factor := default 1%Q (compression_factors !! algo) in
  factor = lit_0_40 \/ factor = lit_0_35 \/ factor = lit_0_25 \/ factor = 1%Q.
Proof.
  cbv zeta. destruct (compression_factors !! algo) as [q |] eqn:E; cbn [default].
  - unfold compression_factors in E. apply elem_of_list_to_map_2 in E.
    repeat (apply elem_of_cons in E as [E | E]; [injection E as _ ->; tauto |]).
    apply elem_of_nil in E. contradiction.
  - tauto.
Qed.

Lemma factor_range algo :
  (0 <= default 1%Q (compression_factors !! algo) <= 1)%Q.
Proof.
  destruct (factor_cases algo) as [-> | [-> | [-> | ->]]];
    split; unfold Qle; vm_compute; discriminate.
Qed.

Lemma of_int_Z s : - 2 ^ 53 < s < 2 ^ 53 -> (of_int s == inject_Z s)%Q.
Proof. apply round53_Z. Qed.

Lemma round53_unit_interval x : (0 <= x <= 1)%Q -> (0 <= round53 x <= 1)%Q.
Proof.
  intros [Lo Hi]. split; [apply round53_nonneg, Lo |].
  apply (round53_le_const _ _ 1 0); [reflexivity | lia | exact Hi].
Qed.

Lemma scaled_size_range s factor :
  0 < s < 2 ^ 53 -> (0 <= factor <= 1)%Q ->
  0 <= to_int (fmul (of_int s) factor) <= s.
Proof.
  intros Hs [Lo Hi]. unfold fmul.
  assert (Qs : (0 < inject_Z s)%Q) by (apply (Q_of_Z_lt 0 s); lia).
  assert (P : (0 <= of_int s * factor)%Q).
  { rewrite of_int_Z by lia. apply Qmult_le_0_compat; lra. }
  assert (U : (of_int s * factor <= inject_Z s)%Q).
  { rewrite of_int_Z by lia.
    rewrite <- (Qmult_1_r (inject_Z s)) at 2.
    rewrite !(Qmult_comm (inject_Z s)). apply Qmult_le_compat_r; lra. }
  assert (P' : (0 <= round53 (of_int s * factor))%Q) by apply round53_nonneg, P.
  assert (U' : (round53 (of_int s * factor) <= inject_Z s)%Q).
  { pose proof (round53_le_repr (of_int s * factor) s 0 ltac:(lia)) as G.
    change (pow2 0) with 1%Q in G. rewrite Qmult_1_r in G. exact (G U). }
  rewrite to_int_floor by exact P'. split.
  - change 0 with (Qfloor 0). apply Qfloor_resp_le, P'.
  - pose proof (Qfloor_resp_le _ _ U') as F. rewrite Qfloor_Z in F. exact F.
Qed.

Lemma ratio_of_range c s :
  0 < s -> 0 <= c <= s -> (0 <= ratio_of c s <= 100)%Q.
Proof.
  intros Hs Hc. unfold ratio_of, fmul, fsub.
  assert (Qs : (0 < inject_Z s)%Q) by exact (Q_of_Z_lt 0 s Hs).
  assert (Q : (0 <= round53 (inject_Z c / inject_Z s) <= 1)%Q).
  { apply round53_unit_interval. split.
    - apply Qle_shift_div_l; [exact Qs |]. rewrite Qmult_0_l.
      apply (Q_of_Z_le 0 c). lia.
    - apply Qle_shift_div_r; [exact Qs |]. rewrite Qmult_1_l.
      apply Q_of_Z_le. lia. }
  assert (R : (0 <= round53 (of_int 1 - round53 (inject_Z c / inject_Z s)) <= 1)%Q).
  { apply round53_unit_interval. rewrite of_int_1. lra. }
  rewrite of_int_100. split.
  - apply round53_nonneg. lra.
  - apply (round53_le_const _ _ 100 0); [reflexivity | lia | lra].
Qed.

End EstimateBounds.

(** Whatever the codec name, the size model of [test_compression] stays
    within bounds on a sample of [0 < s < 2^53] bytes: it does not raise,
    the estimated compressed size lies between 0 and [s] (so the bytes
    saved are not negative), and the ratio lies between 0.0 and 100.0. *)
Theorem compression_estimate_in_bounds algo s w :
  0 < s < 2 ^ 53 ->
  exists compressed_size ratio,
    estimate_compression algo s w = (Ok (compressed_size, ratio), w) /\
    0 <= compressed_size <= s /\
    (0 <= ratio <= 100)%Q.
Proof.
  intros Hs. unfold estimate_compression.
  destruct (String.eqb algo "none").
  - exists s, 0%Q. split; [reflexivity |]. split; [lia | lra].
  - cbv zeta.
    pose proof (scaled_size_range s _ Hs (factor_range algo)) as Hc.
    set (c := to_int _) in *.
    unfold bind, int_truediv.
    destruct (s =? 0) eqn:Z0; [lia |]. unfold ret.
    eexists _, _. split; [reflexivity |]. split; [exact Hc |].
    apply (ratio_of_range c s); lia.
Qed.

Lemma compression_estimate_in_bounds_witness :
  exists compressed_size ratio,
    estimate_compression "lz4" 180 Scenario.healthy =
      (Ok (compressed_size, ratio), Scenario.healthy) /\
    0 <= compressed_size <= 180 /\
    (0 <= ratio <= 100)%Q.
Proof. apply compression_estimate_in_bounds. lia. Defined.

(** ** Provisioning, call by call *)

Section ProvisioningLog.

Lemma admin_events_app l1 l2 :
  admin_events (l1 ++ l2) = admin_events l1 ++ admin_events l2.
Proof. unfold admin_events. apply List.filter_app. Qed.

Lemma for_each_app {A} (body : A -> M unit) l1 l2 w w1 :
  for_each l1 body w = (Ok tt, w1) ->
  for_each (l1 ++ l2) body w = for_each l2 body w1.
Proof.
  revert w. induction l1 as [| x l1 IH]; intros w H; simpl in *.
  - unfold ret in H. injection H as <-. reflexivity.
  - apply bind_Ok_inv in H as ([] & w' & H1 & H2).
    rewrite (bind_Ok_intro _ _ _ _ _ H1). apply IH, H2.
Qed.

(** As long as the broker reports no other error, every topic of the list
    is attempted once, in order, and exists afterwards. *)
Lemma create_loop_log l :
  forall w,
    (forall j, (j < length l)%nat -> admin_fault w (admin_calls w + j)%nat = None) ->
    exists w' events,
      for_each l create_topic w = (Ok tt, w') /\
      topics w' = topics w ∪ topic_names l /\
      trace w' = trace w ++ events /\
      admin_events events = map EvCreateTopic l /\
      admin_calls w' = (admin_calls w + length l)%nat /\
      admin_fault w' = admin_fault w.
Proof.
  induction l as [| t l IH]; intros w Hf.
  - exists w, []. cbn. unfold ret, topic_names. cbn.
    rewrite app_nil_r, Nat.add_0_r. repeat split.
    symmetry. apply (right_id_L ∅ (∪)).
  - assert (Hf0 : admin_fault w (admin_calls w) = None).
    { rewrite <- (Nat.add_0_r (admin_calls w)). apply Hf. cbn. lia. }
    cbn [for_each]. unfold bind. rewrite create_topic_eq, Hf0.
    destruct (decide (topic_name t ∈ topics w)) as [Hin | Hnin].
    + destruct (IH (add_event (EvPrint (MsgTopicExists (topic_name t))) (attempted t w)))
        as (w' & events & E & Ht & Etr & Ea & Ec & Ef).
      { unfold attempted. world_simpl. intros j Hj.
        replace (S (admin_calls w) + j)%nat with (admin_calls w + S j)%nat by lia.
        apply Hf. cbn. lia. }
      rewrite E. unfold attempted in *. world_simpl.
      exists w', (EvCreateTopic t :: EvPrint (MsgTopicExists (topic_name t)) :: events).
      split; [reflexivity |]. split.
      { rewrite Ht. unfold topic_names. cbn [map list_to_set].
        apply set_eq. intros x.
        rewrite !elem_of_union, elem_of_singleton.
        split; [tauto | intros [H | [-> | H]]; tauto]. }
      split; [rewrite Etr, <- !app_assoc; reflexivity |].
      split; [unfold admin_events in *; cbn; rewrite Ea; reflexivity |].
      split; [cbn [length]; lia | exact Ef].
    + destruct (IH (add_event (EvPrint (MsgTopicCreated (topic_name t)))
                      (add_topic (topic_name t) (attempted t w))))
        as (w' & events & E & Ht & Etr & Ea & Ec & Ef).
      { unfold attempted. world_simpl. intros j Hj.
        replace (S (admin_calls w) + j)%nat with (admin_calls w + S j)%nat by lia.
        apply Hf. cbn. lia. }
      rewrite E. unfold attempted in *. world_simpl.
      exists w', (EvCreateTopic t :: EvPrint (MsgTopicCreated (topic_name t)) :: events).
      split; [reflexivity |]. split.
      { rewrite Ht. unfold topic_names. cbn [map list_to_set].
        unfold add_topic. cbn [topics].
        apply set_eq. intros x.
        rewrite !elem_of_union, elem_of_singleton. tauto. }
      split; [rewrite Etr, <- !app_assoc; reflexivity |].
      split; [unfold admin_events in *; cbn; rewrite Ea; reflexivity |].
      split; [cbn [length]; lia | exact Ef].
Qed.

End ProvisioningLog.

(** Whatever topics exist beforehand, provisioning on a broker that reports
    no other error ends normally: the client is opened, every topic of the
    list is attempted exactly once and in order, the client is closed, and
    afterwards the existing topics are the earlier ones together with every
    name of the list. *)
Theorem provisioning_attempts_every_topic l w :
  admin_connect_fault w = None ->
  (forall j, (j < length l)%nat -> admin_fault w (admin_calls w + j)%nat = None) ->
  exists w' events,
    create_topics_of l w = (Ok tt, w') /\
    topics w' = topics w ∪ topic_names l /\
    trace w' = trace w ++ events /\
    admin_events events = EvAdminOpen :: map EvCreateTopic l ++ [EvAdminClose].
Proof.
  intros Hc Hf. unfold create_topics_of, bind, KafkaAdminClient. rewrite Hc.
  destruct (create_loop_log l (add_event EvAdminOpen w)) as (w1 & events & E & Ht & Etr & Ea & _).
  { world_simpl. exact Hf. }
  rewrite E. unfold admin_close, emit. world_simpl.
  exists (add_event EvAdminClose w1), (EvAdminOpen :: events ++ [EvAdminClose]).
  split; [reflexivity |]. world_simpl. split; [exact Ht |].
  split; [rewrite Etr, <- !app_assoc; reflexivity |].
  change (EvAdminOpen :: events ++ [EvAdminClose])
    with ([EvAdminOpen] ++ events ++ [EvAdminClose]).
  rewrite !admin_events_app, Ea. reflexivity.
Qed.

Lemma provisioning_attempts_every_topic_witness :
  exists w' events,
    create_topics_of new_topics Scenario.healthy = (Ok tt, w') /\
    topics w' = topics Scenario.healthy ∪ topic_names new_topics /\
    trace w' = trace Scenario.healthy ++ events /\
    admin_events events = EvAdminOpen :: map EvCreateTopic new_topics ++ [EvAdminClose].
Proof.
  apply provisioning_attempts_every_topic.
  - reflexivity.
  - intros j _. reflexivity.
Defined.

(** When the broker answers the attempt for topic [i] with an error other
    than [TopicAlreadyExistsError], provisioning ends there: the topics
    before [i] exist, topic [i] and the later ones do not come into being,
    no later topic is attempted, and the administrative client is not
    closed. *)
Theorem provisioning_stops_at_fatal_error l i t e w :
  admin_connect_fault w = None ->
  l !! i = Some t ->
  (forall j, (j < i)%nat -> admin_fault w (admin_calls w + j)%nat = None) ->
  admin_fault w (admin_calls w + i)%nat = Some e ->
  e <> TopicAlreadyExistsError ->
  exists w' events,
    create_topics_of l w = (Raise e, w') /\
    topics w' = topics w ∪ topic_names (take i l) /\
    trace w' = trace w ++ events /\
    admin_events events = EvAdminOpen :: map EvCreateTopic (take (S i) l).
Proof.
  intros Hc Hi Hbefore Hat Hne.
  pose proof (lookup_lt_Some _ _ _ Hi) as Hlen.
  unfold create_topics_of, bind at 1, KafkaAdminClient. rewrite Hc.
  replace (for_each l create_topic)
    with (for_each (take i l ++ t :: drop (S i) l) create_topic)
    by (rewrite (take_drop_middle l i t Hi); reflexivity).
  destruct (create_loop_log (take i l) (add_event EvAdminOpen w))
    as (w1 & events & E & Ht & Etr & Ea & Ecalls & Ef).
  { world_simpl. rewrite length_take. intros j Hj. apply Hbefore. lia. }
  world_simpl. rewrite length_take, Nat.min_l in Ecalls by lia.
  unfold bind at 1. rewrite (for_each_app _ _ _ _ _ E).
  cbn [for_each]. unfold bind at 1. rewrite create_topic_eq, Ef. world_simpl.
  rewrite Ecalls, Hat, decide_False by exact Hne.
  exists (attempted t w1), (EvAdminOpen :: events ++ [EvCreateTopic t]).
  split; [reflexivity |]. unfold attempted. world_simpl.
  split; [exact Ht |].
  split; [rewrite Etr, <- !app_assoc; reflexivity |].
  change (EvAdminOpen :: events ++ [EvCreateTopic t])
    with ([EvAdminOpen] ++ events ++ [EvCreateTopic t]).
  rewrite !admin_events_app, Ea.
  rewrite (take_S_r l i t Hi), map_app. reflexivity.
Qed.

Lemma provisioning_stops_at_fatal_error_witness :
  exists w' events,
    create_topics_of new_topics Scenario.broker_breaks_down =
      (Raise NoBrokersAvailable, w') /\
    topics w' = topics Scenario.broker_breaks_down ∪ topic_names (take 3 new_topics) /\
    trace w' = trace Scenario.broker_breaks_down ++ events /\
    admin_events events = EvAdminOpen :: map EvCreateTopic (take 4 new_topics).
Proof.
  apply (provisioning_stops_at_fatal_error new_topics 3
           (NewTopic "hydro-comp-snappy" 3 1 [])).
  - reflexivity.
  - reflexivity.
  - intros j Hj. do 3 (destruct j as [| j]; [reflexivity |]). lia.
  - reflexivity.
  - discriminate.
Defined.

(** ** A missing workload file *)

(** [test_batch_linger] creates the producer of its first configuration
    before it opens the workload file, so a missing file leaves one session
    open, with nothing sent; [test_compression] and [test_partitioning]
    read the file first and fail before they open any session. *)
Theorem missing_file_leaves_one_session_open f w :
  files w !! f = None ->
  (exists w',
     test_batch_linger f w = (Raise FileNotFoundError, w') /\
     trace w' = trace w ++
       [EvPrint (MsgStage "BATCH/LINGER");
        EvPrint (MsgTesting "batch.size=16384B, linger.ms=0ms");
        EvOpen (next_producer w) (batch_linger_config (16384, 0))] /\
     next_producer w' = S (next_producer w) /\
     test_results w' = test_results w) /\
  test_compression f w =
    (Raise FileNotFoundError, add_event (EvPrint (MsgStage "COMPRESSION")) w) /\
  test_partitioning f w =
    (Raise FileNotFoundError, add_event (EvPrint (MsgStage "PARTITIONING")) w).
Proof.
  intros Hf. split; [| split].
  - unfold test_batch_linger, bind at 1. unfold print at 1, emit.
    cbn [for_fold batch_linger_configs]. unfold bind at 1, bind at 1.
    unfold batch_linger_run. unfold bind at 1. unfold print at 1, emit.
    unfold bind at 1, KafkaProducer. cbv beta zeta.
    unfold bind at 1, read_records. world_simpl. rewrite Hf.
    eexists. split; [reflexivity |]. world_simpl.
    rewrite <- !app_assoc. repeat split.
  - unfold test_compression, bind at 1. unfold print at 1, emit.
    unfold bind at 1, read_records. world_simpl. rewrite Hf. reflexivity.
  - unfold test_partitioning, bind at 1. unfold print at 1, emit.
    unfold bind at 1, read_records. world_simpl. rewrite Hf. reflexivity.
Qed.

Lemma missing_file_leaves_one_session_open_witness :
  exists w',
    test_batch_linger data_file Scenario.no_workload_file =
      (Raise FileNotFoundError, w') /\
    trace w' =
      [EvPrint (MsgStage "BATCH/LINGER");
       EvPrint (MsgTesting "batch.size=16384B, linger.ms=0ms");
       EvOpen 0 (batch_linger_config (16384, 0))].
Proof.
  destruct (missing_file_leaves_one_session_open data_file Scenario.no_workload_file)
    as ((w' & E & Et & _) & _).
  - vm_compute. reflexivity.
  - exists w'. split; [exact E | exact Et].
Defined.

(** ** The rows of the report *)

Section ReportRows.

Lemma formats_batch_linger_result bs lm thr avg p95 p99 d :
  formats_row "batch_linger" (batch_linger_result bs lm thr avg p95 p99 d) = true.
Proof. reflexivity. Qed.

Lemma formats_compression_result algo thr avg s c ratio :
  formats_row "compression" (compression_result algo thr avg s c ratio) = true.
Proof. reflexivity. Qed.

Lemma formats_partitioning_result n thr d sf :
  formats_row "partitioning" (partitioning_result n thr d sf) = true.
Proof. reflexivity. Qed.

End ReportRows.

(** Every row that a completed sweep stores can be formatted by
    [generate_report]: each key that the report reads from the row is
    there, the values formatted as fixed-point numbers are numbers and the
    value formatted as a string is a string.  So the report raises neither
    [KeyError] nor a format error on the rows of the sweeps. *)
Theorem stored_rows_fit_the_report f w :
  match test_batch_linger f w with
  | (Ok results, _) => Forall (fun r => formats_row "batch_linger" r = true) results
  | (Raise _, _) => True
  end /\
  match test_compression f w with
  | (Ok results, _) => Forall (fun r => formats_row "compression" r = true) results
  | (Raise _, _) => True
  end /\
  match test_partitioning f w with
  | (Ok results, _) => Forall (fun r => formats_row "partitioning" r = true) results
  | (Raise _, _) => True
  end.
Proof.
  split; [| split].
  - destruct (test_batch_linger f w) as [[results | e] w'] eqn:E; [| exact I].
    unfold test_batch_linger in E. exec_ok E.
    revert Hstep.
    apply (for_fold_invariant
             (fun rs => Forall (fun r => formats_row "batch_linger" r = true) rs));
      [| constructor].
    intros [bs lm] st wa st' wb Hst H.
    apply batch_linger_run_ok in H as (? & ? & ? & ? & ? & H).
    cbv zeta in H. destruct H as (_ & _ & _ & _ & _ & _ & -> & _).
    apply Forall_app_2; [exact Hst |].
    constructor; [apply formats_batch_linger_result | constructor].
  - destruct (test_compression f w) as [[results | e] w'] eqn:E; [| exact I].
    unfold test_compression in E. exec_ok E.
    revert Hstep0.
    apply (for_fold_invariant
             (fun rs => Forall (fun r => formats_row "compression" r = true) rs));
      [| constructor].
    intros algo st wa st' wb Hst H.
    apply compression_run_ok in H as (? & ? & ? & H).
    cbv zeta in H. destruct H as (_ & _ & _ & _ & -> & _).
    apply Forall_app_2; [exact Hst |].
    constructor; [apply formats_compression_result | constructor].
  - destruct (test_partitioning f w) as [[results | e] w'] eqn:E; [| exact I].
    unfold test_partitioning in E. exec_ok E.
    revert Hstep0.
    apply (for_fold_invariant
             (fun st : option Q * list RunResult =>
                Forall (fun r => formats_row "partitioning" r = true) st.2));
      [| constructor].
    intros n [b st] wa [b' st'] wb Hst H.
    apply partitioning_run_ok in H as (? & ? & H).
    cbv zeta in H. destruct H as (_ & _ & -> & _).
    apply Forall_app_2; [exact Hst |].
    constructor; [apply formats_partitioning_result | constructor].
Qed.

Lemma stored_rows_fit_the_report_witness :
  succeeds (test_batch_linger data_file Scenario.healthy).1 = true /\
  match test_batch_linger data_file Scenario.healthy with
  | (Ok results, _) => Forall (fun r => formats_row "batch_linger" r = true) results
  | (Raise _, _) => True
  end.
Proof.
  split; [vm_compute; reflexivity |].
  pose proof (stored_rows_fit_the_report data_file Scenario.healthy) as (H & _).
  exact H.
Defined.

(** ** A complete run and its report *)

Section CompleteRun.












(** Formatting a row leaves the world alone, and returns on a row that
    has the fields with fitting values. *)
Lemma format_value_pure spec v w res w' :
  format_value spec v w = (res, w') -> w' = w.
Proof.
  unfold format_value, ret, raise.
  destruct spec, v; try destruct (_ <? _); intros H; injection H as _ <-;
    reflexivity.
Qed.

Lemma format_row_pure sweep r w res w' :
  format_row sweep r w = (res, w') -> w' = w.
Proof.
  unfold format_row. generalize (report_fields sweep). intros l. revert w.
  induction l as [| [key spec] l IH]; intros w H; simpl in H.
  - unfold ret in H. injection H as _ <-. reflexivity.
  - assert (Hfield : forall res1 w1,
               (v <- row_lookup key r ;; format_value spec v)%py w = (res1, w1) ->
               w1 = w).
    { intros res1 w1. unfold bind, row_lookup, ret, raise.
      destruct (r !! key) as [v |].
      - apply format_value_pure.
      - intros H1. injection H1 as _ <-. reflexivity. }
    apply bind_inv in H as [(e & H1 & _) | ([] & w1 & H1 & H)].
    + apply Hfield in H1. exact H1.
    + apply Hfield in H1. subst w1. apply IH, H.
Qed.




Lemma report_rows_keep_results key rows :
  forall w res w',
    for_each rows (fun r => format_row key r ;;; print (MsgReportRow r))%py w
      = (res, w') ->
    test_results w' = test_results w.
Proof.
  induction rows as [| r rows IH]; intros w res w' H; simpl in H.
  - unfold ret in H. injection H as _ <-. reflexivity.
  - apply bind_inv in H as [(e & H1 & _) | ([] & w1 & H1 & H)].
    + apply bind_inv in H1 as [(e1 & H1 & _) | ([] & w2 & H1 & H2)].
      * apply format_row_pure in H1. subst. reflexivity.
      * apply format_row_pure in H1. subst w2. discriminate.
    + apply bind_Ok_inv in H1 as ([] & w2 & H1 & H2).
      apply format_row_pure in H1. subst w2.
      unfold print, emit in H2. injection H2 as <-.
      apply IH in H. exact H.
Qed.



End CompleteRun.



(** ** The metrics of one run *)

Section RunMetrics.

Lemma Qdiv_pos_iff n d :
  (0 < n)%Q -> ~ (d == 0)%Q -> ((0 < n / d)%Q <-> (0 < d)%Q).
Proof.
  intros Hn Hd. split; intros H.
  - destruct (Qlt_le_dec 0 d) as [P | N]; [exact P | exfalso].
    assert (Hneg : (d < 0)%Q).
    { destruct (Qcompare_spec d 0) as [E | L | G]; [contradiction | exact L | lra]. }
    assert (Hm : (0 < n / d * - d)%Q) by (apply Qmult_lt_0_compat; lra).
    assert (Hx : (n / d * - d == - n)%Q) by (field; exact Hd).
    rewrite Hx in Hm. lra.
  - apply Qlt_shift_div_l; [exact H | lra].
Qed.

(** The sign of [n / (end - start)] for a positive count [n]. *)
Lemma throughput_sign n start end_ thr :
  0 < n < 2 ^ 53 ->
  fdiv (of_int n) (fsub end_ start) = Some thr ->
  ~ (thr == 0)%Q /\ ((0 < thr)%Q <-> (start < end_)%Q).
Proof.
  intros Hn H. unfold fdiv in H.
  destruct (Qeq_bool (fsub end_ start) 0) eqn:Z0; [discriminate |].
  injection H as <-.
  assert (Hd : ~ (fsub end_ start == 0)%Q).
  { intros E. apply Qeq_bool_iff in E. congruence. }
  assert (Qn : (0 < of_int n)%Q).
  { rewrite of_int_Z by lia. apply (Q_of_Z_lt 0 n). lia. }
  assert (Hpos : (0 < fsub end_ start)%Q <-> (start < end_)%Q).
  { unfold fsub. rewrite round53_pos_iff. split; intros; lra. }
  split.
  - rewrite round53_zero_iff. intros E.
    assert (Hq : (of_int n / fsub end_ start * fsub end_ start == of_int n)%Q)
      by (field; exact Hd).
    rewrite E, Qmult_0_l in Hq. rewrite <- Hq in Qn.
    exact (Qlt_irrefl 0 Qn).
  - rewrite round53_pos_iff, (Qdiv_pos_iff _ _ Qn Hd). exact Hpos.
Qed.

Lemma Qsum_bounds lo hi l :
  Forall (fun x => lo <= x <= hi)%Q l ->
  (inject_Z (len l) * lo <= Qsum l <= inject_Z (len l) * hi)%Q.
Proof.
  induction 1 as [| x l [Lo Hi] _ IH].
  - change (inject_Z (len (@nil Q))) with 0%Q. change (Qsum []) with 0%Q.
    rewrite !Qmult_0_l. split; apply Qle_refl.
  - change (len (x :: l)) with (Z.of_nat (S (length l))).
    rewrite Nat2Z.inj_succ. unfold Z.succ. rewrite inject_Z_plus.
    change (Z.of_nat (length l)) with (len l). change (inject_Z 1) with 1%Q.
    cbn [Qsum foldr]. fold (Qsum l). lra.
Qed.

Lemma extremes l :
  l <> [] ->
  exists lo hi, lo ∈ l /\ hi ∈ l /\ Forall (fun x => lo <= x <= hi)%Q l.
Proof.
  induction l as [| x l IH]; [congruence | intros _].
  destruct l as [| y l].
  - exists x, x. split; [left |]. split; [left |].
    constructor; [lra | constructor].
  - destruct IH as (lo & hi & Hlo & Hhi & Hall); [discriminate |].
    exists (if Qlt_le_dec x lo then x else lo), (if Qlt_le_dec hi x then x else hi).
    split; [destruct (Qlt_le_dec x lo); [left | right; exact Hlo] |].
    split; [destruct (Qlt_le_dec hi x); [left | right; exact Hhi] |].
    constructor.
    + destruct (Qlt_le_dec x lo), (Qlt_le_dec hi x); lra.
    + eapply Forall_impl; [exact Hall |]. cbv beta. intros z [Hz1 Hz2].
      destruct (Qlt_le_dec x lo), (Qlt_le_dec hi x); lra.
Qed.

(** [statistics.mean] of binary64 values lies between two of them. *)
Lemma mean_between l :
  l <> [] -> Forall (fun x => round53 x == x)%Q l ->
  exists lo hi,
    lo ∈ l /\ hi ∈ l /\
    (lo <= round53 (Qsum l / inject_Z (len l)) <= hi)%Q.
Proof.
  intros Hne Hfl.
  destruct (extremes l Hne) as (lo & hi & Hlo & Hhi & Hall).
  exists lo, hi. split; [exact Hlo |]. split; [exact Hhi |].
  pose proof (Qsum_bounds lo hi l Hall) as [Lo Hi].
  assert (Hn : (0 < inject_Z (len l))%Q).
  { apply (Q_of_Z_lt 0). unfold len. destruct l; [congruence | cbn; lia]. }
  rewrite Forall_forall in Hfl.
  split.
  - apply Qle_trans with (round53 lo);
      [rewrite (Hfl lo Hlo); apply Qle_refl | apply round53_mono].
    apply Qle_shift_div_l; [exact Hn |]. rewrite Qmult_comm. exact Lo.
  - apply Qle_trans with (round53 hi);
      [apply round53_mono | rewrite (Hfl hi Hhi); apply Qle_refl].
    apply Qle_shift_div_r; [exact Hn |]. rewrite Qmult_comm. exact Hi.
Qed.

Lemma latencies_are_floats clock t0 n :
  Forall (fun x => round53 x == x)%Q (map (latency_at clock t0) (seq 0 n)).
Proof.
  apply Forall_forall. intros x Hx.
  apply list_elem_of_In, in_map_iff in Hx as (i & <- & _).
  unfold latency_at, fmul. apply round53_idempotent.
Qed.

End RunMetrics.

(** The throughput of a completed batch/linger run is never zero, and it
    is positive exactly when the clock reading taken after the flush is
    later than the one taken before the loop: [time.time()] is the wall
    clock, and a reading that went backwards gives a negative throughput. *)
Theorem throughput_sign_follows_the_clock f config results w :
  match batch_linger_run f config results w with
  | (Ok results', _) =>
      exists records r throughput,
        files w !! f = Some records /\
        results' = results ++ [r] /\
        r !! "throughput" = Some (VFloat throughput) /\
        ~ (throughput == 0)%Q /\
        ((0 < throughput)%Q <->
         (clock w (ticks w) <
          clock w (S (ticks w) + 2 * length (take 1000 records))%nat)%Q)
  | (Raise _, _) => True
  end.
Proof.
  destruct config as [bs lm].
  destruct (batch_linger_run f (bs, lm) results w) as [[results' | e] w'] eqn:E;
    [| exact I].
  apply batch_linger_run_ok in E as (records & thr & avg & p95 & p99 & E).
  cbv zeta in E. destruct E as (Hf & Hthr & Hne & _ & _ & _ & -> & _).
  exists records, (batch_linger_result bs lm thr avg p95 p99
                     (fsub (clock w (S (ticks w) + 2 * length (take 1000 records))%nat)
                           (clock w (ticks w)))), thr.
  split; [exact Hf |]. split; [reflexivity |]. split; [reflexivity |].
  apply (throughput_sign (len (take 1000 records))); [| exact Hthr].
  unfold len. rewrite length_take.
  destruct (take 1000 records) eqn:Et; [exfalso; apply Hne; reflexivity |].
  assert (Hl : (0 < 1000 `min` length records)%nat).
  { rewrite <- length_take, Et. cbn. lia. }
  lia.
Qed.

Lemma throughput_sign_follows_the_clock_witness :
  succeeds (batch_linger_run data_file (16384, 0) [] Scenario.healthy).1 = true /\
  match batch_linger_run data_file (16384, 0) [] Scenario.healthy with
  | (Ok results', _) =>
      exists records r throughput,
        files Scenario.healthy !! data_file = Some records /\
        results' = [] ++ [r] /\
        r !! "throughput" = Some (VFloat throughput) /\
        ~ (throughput == 0)%Q /\
        ((0 < throughput)%Q <->
         (clock Scenario.healthy (ticks Scenario.healthy) <
          clock Scenario.healthy
            (S (ticks Scenario.healthy) + 2 * length (take 1000 records))%nat)%Q)
  | (Raise _, _) => True
  end.
Proof.
  split; [vm_compute; reflexivity |].
  exact (throughput_sign_follows_the_clock data_file (16384, 0) [] Scenario.healthy).
Defined.

(** The mean latency that a completed batch/linger run reports lies
    between two of the latencies it measured: rounding the exact mean to
    binary64 does not take it below the smallest or above the largest
    sample. *)
Theorem mean_latency_within_the_samples f config results w :
  match batch_linger_run f config results w with
  | (Ok results', _) =>
      exists records r avg lo hi,
        let latencies := map (latency_at (clock w) (S (ticks w)))
                             (seq 0 (length (take 1000 records))) in
        files w !! f = Some records /\
        results' = results ++ [r] /\
        r !! "avg_latency" = Some (VFloat avg) /\
        lo ∈ latencies /\ hi ∈ latencies /\
        (lo <= avg <= hi)%Q
  | (Raise _, _) => True
  end.
Proof.
  destruct config as [bs lm].
  destruct (batch_linger_run f (bs, lm) results w) as [[results' | e] w'] eqn:E;
    [| exact I].
  apply batch_linger_run_ok in E as (records & thr & avg & p95 & p99 & E).
  cbv zeta in E. destruct E as (Hf & _ & Hne & -> & _ & _ & -> & _).
  destruct (mean_between _ Hne (latencies_are_floats _ _ _))
    as (lo & hi & Hlo & Hhi & Hb).
  eexists records, _, _, lo, hi. cbv zeta.
  split; [exact Hf |]. split; [reflexivity |]. split; [reflexivity |].
  split; [exact Hlo |]. split; [exact Hhi | exact Hb].
Qed.

Lemma mean_latency_within_the_samples_witness :
  succeeds (batch_linger_run data_file (16384, 0) [] Scenario.healthy).1 = true /\
  match batch_linger_run data_file (16384, 0) [] Scenario.healthy with
  | (Ok results', _) =>
      exists records r avg lo hi,
        let latencies := map (latency_at (clock Scenario.healthy)
                                         (S (ticks Scenario.healthy)))
                             (seq 0 (length (take 1000 records))) in
        files Scenario.healthy !! data_file = Some records /\
        results' = [] ++ [r] /\
        r !! "avg_latency" = Some (VFloat avg) /\
        lo ∈ latencies /\ hi ∈ latencies /\
        (lo <= avg <= hi)%Q
  | (Raise _, _) => True
  end.
Proof.
  split; [vm_compute; reflexivity |].
  exact (mean_latency_within_the_samples data_file (16384, 0) [] Scenario.healthy).
Defined.

(** ** The results that [main] leaves behind *)

Section ResultsOfMain.

Lemma startup_clears_results w r w' :
  startup w = (r, w') -> test_results w' = ∅.
Proof.
  rewrite startup_eq.
  destruct (create_topics (before_provisioning w)) as [[[] | e] w1] eqn:E;
    intros H; injection H as <- <-;
    apply create_topics_of_frame in E as (_ & R & _); exact R.
Qed.

Lemma generate_report_keeps_results w r w' :
  generate_report w = (r, w') -> test_results w' = test_results w.
Proof.
  assert (Hsec : forall key w0 r0 w0',
             report_section key w0 = (r0, w0') -> test_results w0' = test_results w0).
  { intros key w0 r0 w0'. unfold report_section, bind, get_test_results.
    destruct (test_results w0 !! key) as [rows |].
    - unfold print at 1, emit. intros H.
      apply report_rows_keep_results in H. exact H.
    - unfold ret. intros H. injection H as _ <-. reflexivity. }
  unfold generate_report. intros H. exec_any H;
    repeat match goal with
    | H : report_section _ _ = _ |- _ => apply Hsec in H
    end; world_simpl; congruence.
Qed.

Lemma run_tests_results w :
  let m := test_results w in
  let m' := test_results (run_tests w).2 in
  m' = m \/
  (exists r1, m' = <[ "batch_linger" := r1 ]> m) \/
  (exists r1 r2, m' = <[ "compression" := r2 ]> (<[ "batch_linger" := r1 ]> m)) \/
  (exists r1 r2 r3,
     m' = <[ "partitioning" := r3 ]>
            (<[ "compression" := r2 ]> (<[ "batch_linger" := r1 ]> m))).
Proof.
  cbv zeta.
  pose proof (run_tests_first_failure w) as H.
  pose proof (test_batch_linger_stores data_file w) as S1.
  destruct (test_batch_linger data_file w) as [[r1 | e] w1];
    [| rewrite H; left; exact S1].
  pose proof (test_compression_stores data_file w1) as S2.
  destruct (test_compression data_file w1) as [[r2 | e] w2];
    [| rewrite H; right; left; exists r1; cbn [snd]; congruence].
  pose proof (test_partitioning_stores data_file w2) as S3.
  destruct (test_partitioning data_file w2) as [[r3 | e] w3];
    [| rewrite H; right; right; left; exists r1, r2; cbn [snd]; congruence].
  rewrite H. right; right; right. exists r1, r2, r3.
  unfold bind. destruct (generate_report w3) as [[[] | e] w4] eqn:E4;
    apply generate_report_keeps_results in E4;
    unfold print, emit; cbn [snd]; world_simpl; congruence.
Qed.

End ResultsOfMain.

(** Whatever the tester state was before and however the run ends, the
    results held after [main] are those of this run only: [main] starts
    from a fresh tester, and the keys it holds at the end are the keys of
    the first [n] sweeps, for some [n] from 0 to 3. *)
Theorem main_holds_results_of_a_prefix_of_sweeps w :
  exists n, (n <= 3)%nat /\
    dom (test_results (main w).2) = list_to_set (take n sweep_keys).
Proof.
  rewrite main_eq.
  destruct (startup w) as [[[] | e] w1] eqn:Es.
  - apply startup_clears_results in Es.
    rewrite try_main_handlers.
    pose proof (run_tests_results w1) as H. cbv zeta in H. rewrite Es in H.
    assert (Hd : exists n, (n <= 3)%nat /\
              dom (test_results (run_tests w1).2) = list_to_set (take n sweep_keys)).
    { destruct H as [H | [(r1 & H) | [(r1 & r2 & H) | (r1 & r2 & r3 & H)]]];
        rewrite H.
      - exists 0%nat. split; [lia |]. rewrite dom_empty_L. reflexivity.
      - exists 1%nat. split; [lia |]. rewrite dom_insert_L, dom_empty_L. reflexivity.
      - exists 2%nat. split; [lia |]. rewrite !dom_insert_L, dom_empty_L.
        cbn [take sweep_keys list_to_set]. apply set_eq. intros x.
        rewrite !elem_of_union. tauto.
      - exists 3%nat. split; [lia |]. rewrite !dom_insert_L, dom_empty_L.
        cbn [take sweep_keys list_to_set]. apply set_eq. intros x.
        rewrite !elem_of_union. tauto. }
    destruct (run_tests w1) as [[[] | e] w2]; cbn [snd] in *; [exact Hd |].
    destruct (is_FileNotFoundError e); [exact Hd |].
    destruct (is_Exception e); exact Hd.
  - apply startup_clears_results in Es. exists 0%nat. split; [lia |].
    cbn [snd]. rewrite Es, dom_empty_L. reflexivity.
Qed.
